(** * PopForecast: the external-data enrichment and reconciliation layer

    A shallow embedding of the enrichment code of the repository

    - [src/api/musicbrainz_client.py]            (module [MusicBrainzClient]),
    - [src/scripts/enrich_with_musicbrainz.py]   (module [MusicBrainzRunner]),
    - [src/scripts/enrich_with_wikidata.py]      (module [WikidataEnrichment]),
    - [src/features/build_musicbrainz_features.py] (module [MusicBrainzFeatures]),
    - [src/scripts/fix_schema_drift.py]          (module [SchemaDrift]),
    - [src/core/lastfm_client.py]                (module [LastFMClient]),
    - [src/scripts/enrich_with_lastfm.py]        (module [LastFMRunner]),

    followed by the theorems about them.

    Conventions.  Python strings are modelled as [string], a character
    being a code point below 256 (Latin-1); the character classes of
    Python ([str.isdigit], [str.isspace], [\s], [\d], [str.lower], [(?i)])
    are the ones Python has on these code points.  Text with a code point
    from 256 on is outside the model.
    Durations are integers in milliseconds.  Python dictionaries that serve
    as caches are [gmap string _]; dictionaries that are records of a
    remote answer are records whose optional keys are [option] fields.
    Effects (outbound requests, sleeps, log lines, file writes) are events
    of a trace; exceptions are a result constructor. *)

From Stdlib Require Import ZArith List String Ascii Bool Lia Permutation.
From stdpp Require Import base gmap strings list.
Import ListNotations.

Local Open Scope Z_scope.

(** ** Python string primitives used by the code *)

Module PyStr.

(** [str.isspace], [\s] and the characters [str.strip] removes: TAB, LF,
    VT, FF, CR, FS, GS, RS, US, SPACE, the next-line control (133) and
    the no-break space (160). *)
Definition is_space (c : ascii) : bool :=
  let n := nat_of_ascii c in
  ((9 <=? n)%nat && (n <=? 13)%nat) || ((28 <=? n)%nat && (n <=? 32)%nat)
  || (n =? 133)%nat || (n =? 160)%nat.

(** [\d] and [str.isdecimal]: the digits 0 to 9, the only characters
    [int] reads as digits. *)
Definition is_digit (c : ascii) : bool :=
  let n := nat_of_ascii c in (48 <=? n)%nat && (n <=? 57)%nat.

(** [str.isdigit]: the decimal digits and the superscripts two and three
    (178, 179) and one (185), which [int] refuses. *)
Definition isdigit (c : ascii) : bool :=
  let n := nat_of_ascii c in
  is_digit c || (n =? 178)%nat || (n =? 179)%nat || (n =? 185)%nat.

(** The lower-case form of a character: A to Z, and the accented capitals
    192 to 222 but for the multiplication sign (215), move up by 32. *)
Definition lower_char (c : ascii) : ascii :=
  let n := nat_of_ascii c in
  if ((65 <=? n)%nat && (n <=? 90)%nat)
     || ((192 <=? n)%nat && (n <=? 222)%nat && negb (n =? 215)%nat)
  then ascii_of_nat (n + 32) else c.

(** [s.lower()] *)
Fixpoint lower (s : string) : string :=
  match s with
  | EmptyString => EmptyString
  | String c s' => String (lower_char c) (lower s')
  end.

Fixpoint lstrip (s : string) : string :=
  match s with
  | EmptyString => EmptyString
  | String c s' => if is_space c then lstrip s' else s
  end.

Definition rev (s : string) : string :=
  string_of_list_ascii (List.rev (list_ascii_of_string s)).

Definition rstrip (s : string) : string := rev (lstrip (rev s)).

(** [s.strip()] *)
Definition strip (s : string) : string := rstrip (lstrip s).

(** [re.sub(r'\s+', ' ', s)]: every maximal run of whitespace becomes one
    space.  [in_run] tells that the previous character was whitespace. *)
Fixpoint collapse_from (in_run : bool) (s : string) : string :=
  match s with
  | EmptyString => EmptyString
  | String c s' =>
      if is_space c
      then (if in_run then collapse_from true s'
            else String " " (collapse_from true s'))
      else String c (collapse_from false s')
  end.

Definition collapse_ws (s : string) : string := collapse_from false s.

(** [s.endswith(suffix)]: some tail of [s] is [suffix]. *)
Fixpoint endswith (s suffix : string) : bool :=
  if String.eqb s suffix then true
  else
    match s with
    | EmptyString => false
    | String _ s' => endswith s' suffix
    end.

(** [s.startswith(p)], returning what follows the prefix. *)
Fixpoint strip_prefix (p s : string) : option string :=
  match p, s with
  | EmptyString, _ => Some s
  | String a p', String b s' =>
      if Ascii.eqb a b then strip_prefix p' s' else None
  | String _ _, EmptyString => None
  end.

(** Case-insensitive variant, for patterns compiled with [(?i)];
    [p] is given in lower case. *)
Fixpoint strip_prefix_ci (p s : string) : option string :=
  match p, s with
  | EmptyString, _ => Some s
  | String a p', String b s' =>
      if Ascii.eqb a (lower_char b) then strip_prefix_ci p' s' else None
  | String _ _, EmptyString => None
  end.

(** [''.join(filter(str.isdigit, s))] *)
Fixpoint digits_of (s : string) : string :=
  match s with
  | EmptyString => EmptyString
  | String c s' =>
      if isdigit c then String c (digits_of s') else digits_of s'
  end.

(** Every character of [s] is a decimal digit: what [int(s)] requires of
    a string without sign, space or underscore. *)
Fixpoint all_decimal (s : string) : bool :=
  match s with
  | EmptyString => true
  | String c s' => is_digit c && all_decimal s'
  end.

(** The value [int(s)] has for a non-empty string of decimal digits. *)
Fixpoint int_of_digits_from (acc : Z) (s : string) : Z :=
  match s with
  | EmptyString => acc
  | String c s' =>
      int_of_digits_from (10 * acc + (Z.of_nat (nat_of_ascii c) - 48)) s'
  end.

Definition int_of_digits (s : string) : Z := int_of_digits_from 0 s.

(** The most digits [int] reads from a string: the interpreter's default
    [sys.get_int_max_str_digits()], beyond which [int] raises
    [ValueError]. *)
Definition int_max_str_digits : Z := 4300.

(** [s[:n]] *)
Definition take (n : nat) (s : string) : string := substring 0 n s.

(** [sep.join(l)] *)
Fixpoint join (sep : string) (l : list string) : string :=
  match l with
  | [] => EmptyString
  | [x] => x
  | x :: l' => x +:+ sep +:+ join sep l'
  end.

(** Non-overlapping, left-to-right splitting shared by [str.split(sep)]
    and [re.split(pattern, s)].  [match_len s] is the length of the
    separator occurrence that starts at the head of [s], if there is one
    (never 0 for the separators of this code).  [skip] counts the
    characters of the current occurrence still to be dropped and [cur]
    holds the piece being read, reversed. *)
Fixpoint split_go (match_len : string -> option nat)
    (s : string) (skip : nat) (cur : list ascii) : list string :=
  match s with
  | EmptyString => [string_of_list_ascii (List.rev cur)]
  | String c s' =>
      match skip with
      | S k => split_go match_len s' k cur
      | O =>
          match match_len s with
          | Some n =>
              string_of_list_ascii (List.rev cur)
                :: split_go match_len s' (Nat.pred n) []
          | None => split_go match_len s' 0%nat (c :: cur)
          end
      end
  end.

Definition split_with (match_len : string -> option nat) (s : string)
  : list string :=
  split_go match_len s 0%nat [].

(** [s.split(sep)] for a non-empty literal separator. *)
Definition split (sep s : string) : list string :=
  split_with
    (fun t => match strip_prefix sep t with
              | Some _ => Some (String.length sep)
              | None => None
              end) s.

(** [sub in s] *)
Fixpoint contains (sub s : string) : bool :=
  match strip_prefix sub s with
  | Some _ => true
  | None =>
      match s with
      | EmptyString => false
      | String _ s' => contains sub s'
      end
  end.

(** [col.replace('_x', '')]: every non-overlapping occurrence of the two
    characters, scanned from the left, is deleted. *)
Fixpoint remove_x (s : string) : string :=
  match s with
  | EmptyString => EmptyString
  | String c s' =>
      match s' with
      | EmptyString => s
      | String d s'' =>
          if Ascii.eqb c "_" && Ascii.eqb d "x"
          then remove_x s''
          else String c (remove_x s')
      end
  end.

End PyStr.

(** The argument of a Python [int(...)] conversion: [IntLike z] is a value
    that [int] turns into [z] (an integer, a numeric string), [NotIntLike]
    one on which [int] raises ([None], a non-numeric string). *)
Inductive IntArg : Set :=
| IntLike (z : Z)
| NotIntLike.

(** ** Effects: state, exceptions and an event trace

    A computation runs on a state [S] (the outside world, possibly paired
    with the mutable objects it updates in place), returns a value or
    raises, and emits the events of type [E] it performed, oldest first.
    A raised exception keeps the state reached and the events emitted so
    far, as a Python [try] block does. *)

Module Eff.

Inductive exn : Set :=
| NetworkError     (* a transport failure: timeout, connection error *)
| ValueError       (* an undecodable body, [int] of a non-number *)
| KeyError
| AttributeError
| RetryError.      (* tenacity: the attempts are exhausted *)

Inductive res (A : Type) : Type :=
| Ok (a : A)
| Raise (e : exn).
Arguments Ok {A} a.
Arguments Raise {A} e.

Definition M (S E A : Type) : Type := S -> res A * S * list E.

Section Ops.
Context {S E : Type}.

Definition ret {A} (a : A) : M S E A := fun s => (Ok a, s, []).

Definition raise {A} (e : exn) : M S E A := fun s => (Raise e, s, []).

Definition bind {A B} (c : M S E A) (k : A -> M S E B) : M S E B :=
  fun s =>
    match c s with
    | (Ok a, s1, ev1) =>
        match k a s1 with
        | (r, s2, ev2) => (r, s2, ev1 ++ ev2)
        end
    | (Raise e, s1, ev1) => (Raise e, s1, ev1)
    end.

Definition emit (e : E) : M S E unit := fun s => (Ok tt, s, [e]).

Definition modify (f : S -> S) : M S E unit := fun s => (Ok tt, f s, []).

(** [try: c  except Exception as e: h e] *)
Definition try_except {A} (c : M S E A) (h : exn -> M S E A) : M S E A :=
  fun s =>
    match c s with
    | (Ok a, s1, ev1) => (Ok a, s1, ev1)
    | (Raise e, s1, ev1) =>
        match h e s1 with
        | (r, s2, ev2) => (r, s2, ev1 ++ ev2)
        end
    end.
End Ops.

(** Run [c] with a fresh local variable of initial value [r0]. *)
Definition with_local {W R E A} (r0 : R) (c : M (W * R) E A) : M W E A :=
  fun w =>
    match c (w, r0) with
    | (r, (w1, _), ev) => (r, w1, ev)
    end.

(** [int(v)] *)
Definition py_int {S E} (v : IntArg) : M S E Z :=
  match v with
  | IntLike z => ret z
  | NotIntLike => raise ValueError
  end.

Definition events {S E A} (out : res A * S * list E) : list E := snd out.
Definition result {S E A} (out : res A * S * list E) : res A := fst (fst out).
Definition state {S E A} (out : res A * S * list E) : S := snd (fst out).

End Eff.

Import Eff.

Declare Scope eff_scope.
Delimit Scope eff_scope with eff.
Notation "x <- c1 ;; c2" := (Eff.bind c1 (fun x => c2))
  (at level 100, c1 at next level, right associativity) : eff_scope.
Notation "c1 ;; c2" := (Eff.bind c1 (fun _ => c2))
  (at level 100, right associativity) : eff_scope.

(** The double-quote character of the query strings. *)
Definition dquote : string := String (ascii_of_nat 34) EmptyString.

(** ** [src/api/musicbrainz_client.py] *)

Module MusicBrainzClient.

(** The answer of [musicbrainzngs.search_recordings]: nested dictionaries,
    every key of which the code reads defensively. *)
Record ReleaseGroup : Set := {
  rg_type : option string;                        (* "type" *)
  rg_secondary_type_list : option (list string)   (* "secondary-type-list" *)
}.

Record Track : Set := {
  t_number : option string                        (* "number" *)
}.

Record Medium : Set := {
  m_track_list : option (list Track);             (* "track-list" *)
  m_track_count : option IntArg                   (* "track-count" *)
}.

Record Release : Set := {
  r_status : option string;                       (* "status" *)
  r_release_group : option ReleaseGroup;          (* "release-group" *)
  r_date : option string;                         (* "date" *)
  r_title : option string;                        (* "title" *)
  r_medium_list : option (list Medium)            (* "medium-list" *)
}.

Record Recording : Set := {
  release_list : option (list Release)            (* "release-list" *)
}.

Inductive SearchOutcome : Set :=
| SearchRaises
| SearchReturns (recording_list : option (list Recording)).

(** The dictionary [result] the function returns. *)
Record ProminenceRecord : Set := {
  release_title : option string;
  release_date : option string;
  release_type : string;
  track_count : option Z;
  track_number : option Z;
  found : bool
}.

Definition initial_result : ProminenceRecord :=
  {| release_title := None; release_date := None;
     release_type := "unknown"; track_count := None;
     track_number := None; found := false |}.

Definition set_release_title v (r : ProminenceRecord) :=
  {| release_title := v; release_date := release_date r;
     release_type := release_type r; track_count := track_count r;
     track_number := track_number r; found := found r |}.
Definition set_release_date v (r : ProminenceRecord) :=
  {| release_title := release_title r; release_date := v;
     release_type := release_type r; track_count := track_count r;
     track_number := track_number r; found := found r |}.
Definition set_release_type v (r : ProminenceRecord) :=
  {| release_title := release_title r; release_date := release_date r;
     release_type := v; track_count := track_count r;
     track_number := track_number r; found := found r |}.
Definition set_track_count v (r : ProminenceRecord) :=
  {| release_title := release_title r; release_date := release_date r;
     release_type := release_type r; track_count := v;
     track_number := track_number r; found := found r |}.
Definition set_track_number v (r : ProminenceRecord) :=
  {| release_title := release_title r; release_date := release_date r;
     release_type := release_type r; track_count := track_count r;
     track_number := v; found := found r |}.
Definition set_found v (r : ProminenceRecord) :=
  {| release_title := release_title r; release_date := release_date r;
     release_type := release_type r; track_count := track_count r;
     track_number := track_number r; found := v |}.

(** What the function does to the outside, as the code shows it; what
    the library does inside a search is not part of the trace. *)
Inductive Event : Set :=
| EvSleep (ms : Z)            (* time.sleep *)
| EvSearch (query : string)   (* musicbrainzngs.search_recordings *)
| EvWarning.                  (* logger.warning *)

(** *** Step 2: the filter *)

(** An element of [valid_releases]. *)
Record Candidate : Set := {
  c_release : Release;
  c_date : string;
  c_type : string
}.

Definition mem_string (x : string) (l : list string) : bool :=
  existsb (String.eqb x) l.

Definition bad_types : list string :=
  ["Compilation"; "Live"; "Mixtape/Street"; "DJ-mix"; "Broadcast";
   "Interview"]%string.

Definition empty_release_group : ReleaseGroup :=
  {| rg_type := None; rg_secondary_type_list := None |}.

(** One iteration of the inner loop: [Some c] when [rel] is appended. *)
Definition candidate_of (rel : Release) : option Candidate :=
  let status := default ""%string (r_status rel) in
  let rg := default empty_release_group (r_release_group rel) in
  let primary_type := default "unknown"%string (rg_type rg) in
  let secondary_types := default [] (rg_secondary_type_list rg) in
  if negb (String.eqb status "Official") then None
  else if existsb (fun t => mem_string t bad_types) secondary_types then None
  else if negb (mem_string primary_type ["Album"; "Single"; "EP"]%string)
  then None
  else
    let release_date := default ""%string (r_date rel) in
    if (4 <=? String.length release_date)%nat
    then Some {| c_release := rel; c_date := release_date;
                 c_type := primary_type |}
    else None.

Definition valid_releases (recordings : list Recording) : list Candidate :=
  flat_map
    (fun rec => omap candidate_of (default [] (release_list rec)))
    recordings.

(** *** Step 3: the sort *)

Definition type_priority (t : string) : Z :=
  if String.eqb t "Album" then 0
  else if String.eqb t "EP" then 1
  else if String.eqb t "Single" then 2
  else 3.

(** The sort key, a Python tuple [(str, int, str)]. *)
Definition sort_key (x : Candidate) : string * Z * string :=
  (PyStr.take 4 (c_date x), type_priority (c_type x), c_date x).

(** Tuple comparison: the first differing component decides; strings
    compare character by character. *)
Definition key_compare (a b : string * Z * string) : comparison :=
  match String.compare (fst (fst a)) (fst (fst b)) with
  | Eq =>
      match Z.compare (snd (fst a)) (snd (fst b)) with
      | Eq => String.compare (snd a) (snd b)
      | c => c
      end
  | c => c
  end.

Definition key_ltb (a b : string * Z * string) : bool :=
  match key_compare a b with Lt => true | _ => false end.

(** [list.sort(key=...)] is stable: an element moves in front of another
    only when its key is strictly smaller. *)
Fixpoint insert_by_key (x : Candidate) (l : list Candidate) : list Candidate :=
  match l with
  | [] => [x]
  | y :: l' =>
      if key_ltb (sort_key y) (sort_key x)
      then y :: insert_by_key x l'
      else x :: l
  end.

Fixpoint sort_by_key (l : list Candidate) : list Candidate :=
  match l with
  | [] => []
  | x :: l' => insert_by_key x (sort_by_key l')
  end.

(** [valid_releases[0]["release"]] after the sort. *)
Definition best_of_valid (valid : list Candidate) : option Release :=
  match sort_by_key valid with
  | c :: _ => Some (c_release c)
  | [] => None
  end.

(** The absolute fallback: [recordings[0]["release-list"][0]]. *)
Definition fallback_release (recordings : list Recording) : option Release :=
  match recordings with
  | rec0 :: _ =>
      match release_list rec0 with
      | Some (rel :: _) => Some rel
      | _ => None
      end
  | [] => None
  end.

(** [best_release], or [None] where the code returns [result] early. *)
Definition choose_release (recordings : list Recording) : option Release :=
  match valid_releases recordings with
  | [] => fallback_release recordings
  | valid => best_of_valid valid
  end.

(** *** The function *)

Section Client.
Context {World : Type}.

(** [musicbrainzngs.search_recordings(query=..., limit=100)]: the remote
    catalog, an arbitrary function of the query and of the world. *)
Variable search_recordings : string -> World -> SearchOutcome * World.

(** The state of the [try] block: the world and the dictionary [result],
    which the block updates in place. *)
Definition Frame : Type := World * ProminenceRecord.

Definition update_result (f : ProminenceRecord -> ProminenceRecord)
  : M Frame Event unit :=
  Eff.modify (fun fr => (fst fr, f (snd fr))).

Definition get_result : M Frame Event ProminenceRecord :=
  fun fr => (Ok (snd fr), fr, []).

(** One search, followed by [.get("recording-list", [])]. *)
Definition call_search (query : string) : M Frame Event (list Recording) :=
  fun fr =>
    match search_recordings query (fst fr) with
    | (SearchRaises, w1) =>
        (Raise NetworkError, (w1, snd fr), [EvSearch query])
    | (SearchReturns l, w1) =>
        (Ok (default [] l), (w1, snd fr), [EvSearch query])
    end.

Definition strict_query (artist_name track_name : string) : string :=
  ("artist:" +:+ dquote +:+ artist_name +:+ dquote +:+ " AND recording:"
     +:+ dquote +:+ track_name +:+ dquote)%string.

Definition loose_query (artist_name track_name : string) : string :=
  (artist_name +:+ " " +:+ track_name)%string.

Definition is_nil {A} (l : list A) : bool :=
  match l with [] => true | _ => false end.

Definition is_empty_string (s : string) : bool :=
  match s with EmptyString => true | _ => false end.

(** [int(digits)] on the characters [filter(str.isdigit, ...)] kept: the
    string is read when each of them is a decimal digit and they are at
    most [int_max_str_digits]; on a superscript digit, or on more digits,
    [int] raises [ValueError]. *)
Definition int_arg_of_digits (digits : string) : IntArg :=
  if PyStr.all_decimal digits
     && (Z.of_nat (String.length digits) <=? PyStr.int_max_str_digits)
  then IntLike (PyStr.int_of_digits digits)
  else NotIntLike.

(** Step 4: the target metrics, written into [result] one by one. *)
Definition extract_metrics (best_release : Release) : M Frame Event unit :=
  (let rg := default empty_release_group (r_release_group best_release) in
   update_result
     (set_release_title (Some (default "unknown"%string (r_title best_release)))) ;;
   update_result
     (set_release_date (Some (default "unknown"%string (r_date best_release)))) ;;
   update_result (set_release_type (default "unknown"%string (rg_type rg))) ;;
   (if mem_string "Compilation" (default [] (rg_secondary_type_list rg))
    then update_result (set_release_type "Compilation"%string)
    else ret tt) ;;
   match r_medium_list best_release with
   | Some (medium :: _) =>
       match m_track_list medium with
       | Some (track :: _) =>
           let digits := PyStr.digits_of (default ""%string (t_number track)) in
           if is_empty_string digits then ret tt
           else
             n <- py_int (int_arg_of_digits digits) ;;
             update_result (set_track_number (Some n))
       | _ => ret tt
       end ;;
       match m_track_count medium with
       | Some v =>
           n <- py_int v ;;
           update_result (set_track_count (Some n))
       | None => ret tt
       end
   | _ => ret tt
   end)%eff.

(** Step 1: the strict search and, when it finds nothing, the loose
    one. *)
Definition search_phase (artist_name track_name : string)
  : M Frame Event (list Recording) :=
  (recordings <- call_search (strict_query artist_name track_name) ;;
   if is_nil recordings
   then call_search (loose_query artist_name track_name)
   else ret recordings)%eff.

(** Steps 2 to 4 on the recordings found; [ret tt] before the end
    stands for an early [return result]. *)
Definition select_and_extract (recordings : list Recording)
  : M Frame Event unit :=
  (if is_nil recordings then ret tt
   else
     match choose_release recordings with
     | Some best_release =>
         extract_metrics best_release ;;
         update_result (set_found true)
     | None => ret tt
     end)%eff.

(** The body of the [try] block. *)
Definition try_body (artist_name track_name : string) : M Frame Event unit :=
  (recordings <- search_phase artist_name track_name ;;
   select_and_extract recordings)%eff.

Definition get_track_prominence (artist_name track_name : string)
  : M World Event ProminenceRecord :=
  (emit (EvSleep 1000) ;;
   with_local initial_result
     (try_except (try_body artist_name track_name)
        (fun _ => emit EvWarning) ;;
      get_result))%eff.

End Client.

(** A scripted catalog, for running the client on concrete answers: the
    world is the list of the answers still to come. *)
Definition scripted (query : string) (w : list SearchOutcome)
  : SearchOutcome * list SearchOutcome :=
  match w with
  | [] => (SearchRaises, [])
  | o :: w1 => (o, w1)
  end.

End MusicBrainzClient.

(** ** [src/scripts/enrich_with_musicbrainz.py] *)

Module MusicBrainzRunner.

Import MusicBrainzClient.

(** The content of [DATA_OUT]: a JSON object from composite keys to the
    records of the client. *)
Definition Cache : Type := gmap string ProminenceRecord.

(** The file [DATA_OUT]: [None] while it does not exist. *)
Definition Disk : Type := option Cache.

Inductive Event : Type :=
| EvClient (e : MusicBrainzClient.Event)   (* what the client did *)
| EvSave (snapshot : Cache).               (* json.dump(results, f) *)

Definition save_interval : nat := 50.

(** [f"{artist} || {track}"] *)
Definition dict_key (artist track : string) : string :=
  (artist +:+ " || " +:+ track)%string.

Section Runner.
Context {World : Type}.
Variable search_recordings : string -> World -> SearchOutcome * World.

Definition St : Type := World * Disk.

(** A call of the client from the runner. *)
Definition call_client (artist track : string) : M St Event ProminenceRecord :=
  fun st =>
    match get_track_prominence search_recordings artist track (fst st) with
    | (r, w1, ev) => (r, (w1, snd st), map EvClient ev)
    end.

(** [with open(DATA_OUT, "w") as f: json.dump(results, f, indent=4)]:
    the whole mapping replaces the file. *)
Definition save (results : Cache) : M St Event unit :=
  fun st => (Ok tt, (fst st, Some results), [EvSave results]).

(** [results = {}], replaced by the content of the file if it exists. *)
Definition load : M St Event Cache :=
  fun st => (Ok (default ∅ (snd st)), st, []).

(** The [for task in tasks] loop; [results] is the dictionary updated
    in place, [processed_since_save] the counter. *)
Fixpoint loop (tasks : list (string * string)) (results : Cache)
    (processed_since_save : nat) : M St Event Cache :=
  match tasks with
  | [] => ret results
  | (artist, track) :: rest =>
      let key := dict_key artist track in
      match results !! key with
      | Some _ => loop rest results processed_since_save
      | None =>
          (mb_data <- call_client artist track ;;
           let results := <[key := mb_data]> results in
           let processed := S processed_since_save in
           if (save_interval <=? processed)%nat
           then (save results ;; loop rest results 0%nat)
           else loop rest results processed)%eff
      end
  end.

(** [main], from the loading of the existing progress on; [tasks] is
    the list of unique (artist, track) pairs taken from the dataset. *)
Definition main (tasks : list (string * string)) : M St Event unit :=
  (results <- load ;;
   results <- loop tasks results 0%nat ;;
   save results)%eff.

End Runner.

End MusicBrainzRunner.

(** ** [src/features/build_musicbrainz_features.py] *)

Module MusicBrainzFeatures.

(** A value of [mb_data]: a record of the cache file as [json.load]
    returns it. *)
Record CachedRecord : Set := {
  found : option bool;            (* "found" *)
  release_type : option string;   (* "release_type" *)
  track_number : option Z;        (* "track_number": absent, null or int *)
  track_count : option Z          (* "track_count" *)
}.

(** [mb_data.get(key, {})] on an absent key: the empty dictionary. *)
Definition empty_record : CachedRecord :=
  {| found := None; release_type := None; track_number := None;
     track_count := None |}.

(** The row [res] of derived features.  [mb_prominence_ratio] is a float
    with four decimals; it is held as the integer number of
    ten-thousandths, [0.0] being [0] and [1.0] being [10000]. *)
Record Features : Set := {
  mb_found : Z;
  mb_is_single : Z;
  mb_track_number : Z;
  mb_track_count : Z;
  mb_prominence_ratio : Z
}.

(** [x or 1] for [x] an optional integer: [None] and [0] are falsy. *)
Definition or_one (x : option Z) : Z :=
  match x with
  | Some v => if v =? 0 then 1 else v
  | None => 1
  end.

(** Where the binary64 number nearest to [a / b], the result of the
    division of two [int]s, lies with respect to [a / b] itself, for
    [a, b > 0]: [Lt] below it, [Eq] on it, [Gt] above it.  [p] is the
    integer part of the binary logarithm of [a / b]; the quotient is scaled
    to 53 significant bits and rounded to the nearest integer, to the even
    one on a tie. *)
Definition double_vs_quotient (a b : Z) : comparison :=
  let d := Z.log2 a - Z.log2 b in
  let p :=
    if (if 0 <=? d then b * 2 ^ d <=? a else b <=? a * 2 ^ (- d))
    then d else d - 1 in
  let e := p - 52 in
  let num := if e <? 0 then a * 2 ^ (- e) else a in
  let den := if e <? 0 then b else b * 2 ^ e in
  let q := num / den in
  let r := num mod den in
  if 2 * r <? den then (if r =? 0 then Eq else Lt)
  else if den <? 2 * r then Gt
  else if Z.even q then Lt else Gt.

(** [round(a / b, 4)] for [a >= 0] and [b > 0], in ten-thousandths: the
    multiple of 0.0001 nearest to the quotient.  When the quotient is half
    way between two of them, the float that Python rounds decides: the
    upper one if it is above the quotient, the lower one if it is below,
    the even one if it is the quotient.  (This is the value Python
    computes as long as [a < 2 ^ 38], the float being then on the same
    side of every half-way point as the quotient.) *)
Definition round4_nonneg (a b : Z) : Z :=
  let n := a * 10000 in
  let q := n / b in
  let r := n mod b in
  if 2 * r <? b then q
  else if b <? 2 * r then q + 1
  else
    match double_vs_quotient a b with
    | Lt => q
    | Gt => q + 1
    | Eq => if Z.even q then q else q + 1
    end.

(** [round(a / b, 4)] for [b > 0]; rounding is symmetric about zero. *)
Definition round4 (a b : Z) : Z :=
  if 0 <=? a then round4_nonneg a b else - round4_nonneg (- a) b.

Definition mb_key (artist_name song_name : string) : string :=
  (artist_name +:+ " || " +:+ song_name)%string.

Definition features_of (data : CachedRecord) : Features :=
  if default false (found data) then
    let rel_type := default "unknown"%string (release_type data) in
    let is_single :=
      if String.eqb rel_type "Single" || String.eqb rel_type "EP"
      then 1 else 0 in
    let number := or_one (track_number data) in
    let count := or_one (track_count data) in
    {| mb_found := 1;
       mb_is_single := is_single;
       mb_track_number := number;
       mb_track_count := count;
       mb_prominence_ratio := if 0 <? count then round4 number count else 0 |}
  else
    {| mb_found := 0; mb_is_single := 1; mb_track_number := 1;
       mb_track_count := 1; mb_prominence_ratio := 0 |}.

(** [extract_logic(row)] for a row with the given artist and song. *)
Definition extract_logic (mb_data : gmap string CachedRecord)
    (artist_name song_name : string) : Features :=
  let key := mb_key artist_name song_name in
  let data := default empty_record (mb_data !! key) in
  features_of data.

End MusicBrainzFeatures.

(** ** [src/scripts/fix_schema_drift.py] *)

Module SchemaDrift.

Section Table.
(** The content of a column. *)
Context {V : Type}.

(** A table: its columns in order, each a label and a content.  Labels
    may repeat, as in pandas. *)
Definition DataFrame : Type := list (string * V).

Definition columns (df : DataFrame) : list string := map fst df.

Definition mem_string (x : string) (l : list string) : bool :=
  existsb (String.eqb x) l.

(** [{col: col.replace('_x', '') for col in df.columns if col.endswith('_x')}] *)
Definition rename_map (df : DataFrame) : gmap string string :=
  list_to_map
    (map (fun col => (col, PyStr.remove_x col))
       (List.filter (fun col => PyStr.endswith col "_x") (columns df))).

(** [[col for col in df.columns if col.endswith('_y')]] *)
Definition cols_to_drop (df : DataFrame) : list string :=
  List.filter (fun col => PyStr.endswith col "_y") (columns df).

(** [df.rename(columns=mapping)]: a label that is a key of the mapping
    is replaced, the others stay. *)
Definition rename (mapping : gmap string string) (df : DataFrame) : DataFrame :=
  map (fun cv => (default (fst cv) (mapping !! fst cv), snd cv)) df.

(** [df.drop(columns=labels)]: every column bearing one of the labels
    goes; a label borne by no column raises [KeyError] ([None]). *)
Definition drop (labels : list string) (df : DataFrame) : option DataFrame :=
  if forallb (fun l => mem_string l (columns df)) labels
  then Some (List.filter (fun cv => negb (mem_string (fst cv) labels)) df)
  else None.

(** Steps 1 to 3 of [clean_redundant_columns]: from the table read from
    [FILE_PATH] to the table [df_clean] that step 4 hands to [to_parquet]
    ([None]: a [KeyError] of [drop]).  The write is [to_parquet] below,
    the whole function [clean_and_save]. *)
Definition clean_redundant_columns (df : DataFrame) : option DataFrame :=
  match drop (cols_to_drop df) (rename (rename_map df) df) with
  | None => None
  | Some df_clean =>
      if mem_string "Unnamed: 0" (columns df_clean)
      then drop ["Unnamed: 0"%string] df_clean
      else Some df_clean
  end.

(** No label occurs twice. *)
Fixpoint distinct (labels : list string) : bool :=
  match labels with
  | [] => true
  | l :: rest => negb (mem_string l rest) && distinct rest
  end.

(** Step 4, [df_clean.to_parquet(FILE_PATH)]: the conversion to the
    columnar format refuses a table in which a label repeats; the call
    then raises [ValueError] before anything is written ([None]).
    Otherwise the file holds the table. *)
Definition to_parquet (df : DataFrame) : option DataFrame :=
  if distinct (columns df) then Some df else None.

(** The whole function on the table read: the table the file holds when
    the function returns, [None] when it raises. *)
Definition clean_and_save (df : DataFrame) : option DataFrame :=
  match clean_redundant_columns df with
  | Some df_clean => to_parquet df_clean
  | None => None
  end.

End Table.

End SchemaDrift.

(** ** [src/scripts/enrich_with_wikidata.py] *)

Module WikidataEnrichment.

(** *** Section 2 of the script: string manipulation *)

(** The greedy [\s+]: the number of leading whitespace characters and
    what follows them. *)
Fixpoint span_spaces (s : string) : nat * string :=
  match s with
  | EmptyString => (0%nat, s)
  | String c s' =>
      if PyStr.is_space c
      then (let (n, rest) := span_spaces s' in (S n, rest))
      else (0%nat, s)
  end.

(** The alternatives of the collaboration pattern, in the order of the
    regular expression: the keyword, in lower case, and whether an
    optional dot [\.?] follows it. *)
Definition separators : list (string * bool) :=
  [("feat", true); ("ft", true); ("&", false); ("x", false);
   ("with", false); ("vs", true); ("presents", false);
   ("features", false)]%string.

(** The closing [\s+] of an alternative, after [consumed] characters. *)
Definition closing_spaces (consumed : nat) (t : string) : option nat :=
  match span_spaces t with
  | (O, _) => None
  | (n, _) => Some (consumed + n)%nat
  end.

(** One alternative [\s+kw\.?\s+] matched, case-insensitively, at the head
    of [s]: the length of the match.  The optional dot is greedy: it is
    taken first, and given back if the rest then fails. *)
Definition match_alternative (kw : string) (dot : bool) (s : string)
  : option nat :=
  match span_spaces s with
  | (O, _) => None
  | (n1, s1) =>
      match PyStr.strip_prefix_ci kw s1 with
      | None => None
      | Some s2 =>
          let base := (n1 + String.length kw)%nat in
          match dot, s2 with
          | true, String c s3 =>
              if Ascii.eqb c "."
              then match closing_spaces (S base) s3 with
                   | Some n => Some n
                   | None => closing_spaces base s2
                   end
              else closing_spaces base s2
          | _, _ => closing_spaces base s2
          end
      end
  end.

(** The whole pattern at the head of [s]: the first alternative that
    matches. *)
Fixpoint first_match (alts : list (string * bool)) (s : string) : option nat :=
  match alts with
  | [] => None
  | (kw, dot) :: rest =>
      match match_alternative kw dot s with
      | Some n => Some n
      | None => first_match rest s
      end
  end.

(** [re.split(r'(?i)\s+feat\.?\s+|...|\s+features\s+', s)] *)
Definition re_split (s : string) : list string :=
  PyStr.split_with (first_match separators) s.

Definition is_empty_string (s : string) : bool :=
  match s with EmptyString => true | _ => false end.

(** [re.sub(r'\s+', ' ', s.strip())] *)
Definition normalize (s : string) : string :=
  PyStr.collapse_ws (PyStr.strip s).

(** The final loop: clean, and deduplicate on the lower-cased name. *)
Fixpoint clean_parts (parts : list string) (seen : gset string) : list string :=
  match parts with
  | [] => []
  | p :: rest =>
      if is_empty_string p then clean_parts rest seen
      else
        let name := normalize p in
        let key := PyStr.lower name in
        if bool_decide (key ∈ seen) then clean_parts rest seen
        else name :: clean_parts rest ({[key]} ∪ seen)
  end.

Definition split_collaborations (raw_string : string) : list string :=
  if is_empty_string (PyStr.strip raw_string) then []
  else
    let parts :=
      if PyStr.contains " / " raw_string
      then flat_map re_split (PyStr.split " / " raw_string)
      else re_split raw_string in
    clean_parts parts ∅.

(** [re.search(r'Q\d+', url)], [match.group(0)]. *)
Fixpoint take_digits (s : string) : string :=
  match s with
  | EmptyString => EmptyString
  | String c s' =>
      if PyStr.is_digit c then String c (take_digits s') else EmptyString
  end.

Fixpoint search_qid (url : string) : option string :=
  match url with
  | EmptyString => None
  | String c s' =>
      if Ascii.eqb c "Q"
      then match take_digits s' with
           | EmptyString => search_qid s'
           | ds => Some (String c ds)
           end
      else search_qid s'
  end.

(** *** Section 3 of the script: the API clients *)

(** The three outbound calls, by what distinguishes them. *)
Inductive Request : Set :=
| MBSearchArtist (artist_name : string)   (* ws/2/artist/?query=artist:"..." *)
| MBArtistRels (mbid : string)            (* ws/2/artist/{mbid}?inc=url-rels *)
| WDCountries (qid : string).             (* the SPARQL query on P27 / P495 *)

(** The JSON documents, with the keys the code reads. *)
Record Area : Set := {
  area_name : option string                  (* "name" *)
}.

Record ArtistJson : Set := {
  a_score : option IntArg;                   (* "score" *)
  a_id : option string;                      (* "id" *)
  a_name : option string;                    (* "name" *)
  a_area : option Area                       (* "area" *)
}.

Record UrlJson : Set := {
  resource : option string                   (* "resource" *)
}.

Record RelJson : Set := {
  rel_type : option string;                  (* "type" *)
  rel_url : option UrlJson                   (* "url" *)
}.

Record CountryName : Set := {
  value : option string                      (* "value" *)
}.

(** A SPARQL binding; [b_other_keys] tells that the dictionary has keys
    other than "countryName", so that it is truthy without it. *)
Record Binding : Set := {
  b_countryName : option CountryName;        (* "countryName" *)
  b_other_keys : bool
}.

Record JsonBody : Set := {
  artists : option (list ArtistJson);        (* "artists" *)
  relations : option (list RelJson);         (* "relations" *)
  bindings : option (list Binding)           (* "results" / "bindings" *)
}.

Inductive Body : Set :=
| BadBody                    (* [resp.json()] raises *)
| Json (j : JsonBody).

(** What [requests.get(..., timeout=10)] does. *)
Inductive HttpOutcome : Set :=
| RequestRaises                                (* timeout, connection error *)
| Response (status_code : Z) (body : Body).

Inductive Event : Set :=
| EvRequest (r : Request)    (* requests.get *)
| EvSleep (ms : Z)           (* time.sleep in the script *)
| EvBackoff (ms : Z)         (* the wait of tenacity between attempts *)
| EvWarning.                 (* logging.warning *)

(** The result of [search_musicbrainz]. *)
Record MBHit : Set := {
  hit_mbid : string;
  hit_name : string;
  hit_mb_country : option string
}.

(** A resolved record of the catalog. *)
Record ArtistRecord : Set := {
  mbid : string;
  qid : option string;
  nationality : option string
}.

(** [wait_exponential(multiplier, min, max)] of tenacity (version 8 and
    later), in seconds, after the attempt of the given number:
    [max(max(0, min), min(multiplier * 2 ** (attempt_number - 1), max))]. *)
Definition wait_exponential (multiplier mn mx : Z) (attempt_number : nat) : Z :=
  Z.max (Z.max 0 mn)
    (Z.min (multiplier * 2 ^ (Z.of_nat attempt_number - 1)) mx).

(** The wait of the three decorators, in milliseconds. *)
Definition backoff_ms (attempt_number : nat) : Z :=
  1000 * wait_exponential 1 2 10 attempt_number.

(** [stop_after_attempt(3)] *)
Definition max_attempts : nat := 3.

Section Pipeline.
Context {World : Type}.

(** The network: an arbitrary function of the request and the world. *)
Variable requests_get : Request -> World -> HttpOutcome * World.

Definition http_get (r : Request) : M World Event (Z * Body) :=
  fun w =>
    match requests_get r w with
    | (RequestRaises, w1) => (Raise NetworkError, w1, [EvRequest r])
    | (Response code body, w1) => (Ok (code, body), w1, [EvRequest r])
    end.

(** [resp.json()] *)
Definition json (b : Body) : M World Event JsonBody :=
  match b with
  | BadBody => raise ValueError
  | Json j => ret j
  end.

(** [d[key]] on a key that may be missing. *)
Definition item {A} (field : option A) : M World Event A :=
  match field with
  | Some a => ret a
  | None => raise KeyError
  end.

(** [@retry(stop=stop_after_attempt(3), wait=wait_exponential(...))]:
    an attempt that raises is followed by a wait and a new attempt
    while attempts are left, by [RetryError] otherwise.
    [retries_left] is [max_attempts - attempt_number]. *)
Fixpoint retry_loop {A} (retries_left attempt_number : nat)
    (f : M World Event A) : M World Event A :=
  try_except f
    (fun _ =>
       match retries_left with
       | O => raise RetryError
       | S k =>
           (emit (EvBackoff (backoff_ms attempt_number)) ;;
            retry_loop k (S attempt_number) f)%eff
       end).

Definition retry {A} (f : M World Event A) : M World Event A :=
  retry_loop (Nat.pred max_attempts) 1%nat f.

(** The body of [search_musicbrainz], one attempt. *)
Definition search_musicbrainz_attempt (artist_name : string)
  : M World Event (option MBHit) :=
  try_except
    (resp <- http_get (MBSearchArtist artist_name) ;;
     emit (EvSleep 1200) ;;
     if fst resp =? 200 then
       data <- json (snd resp) ;;
       match artists data with
       | Some (artist :: _) =>
           score <- py_int (default (IntLike 0) (a_score artist)) ;;
           if 85 <? score then
             id <- item (a_id artist) ;;
             name <- item (a_name artist) ;;
             ret (Some {| hit_mbid := id; hit_name := name;
                          hit_mb_country :=
                            match a_area artist with
                            | Some area => area_name area
                            | None => None
                            end |})
           else ret None
       | _ => ret None
       end
     else ret None)%eff
    (fun e => (emit EvWarning ;; raise e)%eff).

Definition search_musicbrainz (artist_name : string)
  : M World Event (option MBHit) :=
  retry (search_musicbrainz_attempt artist_name).

(** The loop over [data.get("relations", [])]. *)
Fixpoint find_wikidata_qid (rels : list RelJson) : option string :=
  match rels with
  | [] => None
  | rel :: rest =>
      match rel_type rel with
      | Some t =>
          if String.eqb t "wikidata" then
            let url :=
              match rel_url rel with
              | Some u => default ""%string (resource u)
              | None => ""%string
              end in
            match search_qid url with
            | Some q => Some q
            | None => find_wikidata_qid rest
            end
          else find_wikidata_qid rest
      | None => find_wikidata_qid rest
      end
  end.

Definition get_wikidata_qid_from_mb_attempt (mbid : string)
  : M World Event (option string) :=
  try_except
    (resp <- http_get (MBArtistRels mbid) ;;
     emit (EvSleep 1200) ;;
     if fst resp =? 200 then
       data <- json (snd resp) ;;
       ret (find_wikidata_qid (default [] (relations data)))
     else ret None)%eff
    (fun e => (emit EvWarning ;; raise e)%eff).

Definition get_wikidata_qid_from_mb (mbid : string)
  : M World Event (option string) :=
  retry (get_wikidata_qid_from_mb_attempt mbid).

(** [[r.get("countryName", {}).get("value") for r in results if r]] *)
Definition country_values (results : list Binding) : list (option string) :=
  map (fun r => match b_countryName r with
                | Some cn => value cn
                | None => None
                end)
    (List.filter
       (fun r => match b_countryName r with
                 | Some _ => true
                 | None => b_other_keys r
                 end) results).

Definition enrich_from_wikidata_attempt (qid : string)
  : M World Event (list (option string)) :=
  try_except
    (resp <- http_get (WDCountries qid) ;;
     if fst resp =? 200 then
       data <- json (snd resp) ;;
       ret (country_values (default [] (bindings data)))
     else ret [])%eff
    (fun e => (emit EvWarning ;; raise e)%eff).

Definition enrich_from_wikidata (qid : string)
  : M World Event (list (option string)) :=
  retry (enrich_from_wikidata_attempt qid).

(** *** Section 4 of the script: the orchestrator *)

(** [list(dict.fromkeys(l))]: the first occurrence of each string, in
    order. *)
Fixpoint unique_in_order (l : list string) (seen : gset string) : list string :=
  match l with
  | [] => []
  | x :: rest =>
      if bool_decide (x ∈ seen) then unique_in_order rest seen
      else x :: unique_in_order rest ({[x]} ∪ seen)
  end.

(** [[c.strip() for c in all_countries]]: [None.strip()] raises. *)
Fixpoint strip_all (l : list (option string)) : M World Event (list string) :=
  match l with
  | [] => ret []
  | Some c :: rest =>
      (stripped <- strip_all rest ;; ret (PyStr.strip c :: stripped))%eff
  | None :: _ => raise AttributeError
  end.

Definition fetch_and_build_record (artist_name : string)
  : M World Event (option ArtistRecord) :=
  (mb_data <- try_except (search_musicbrainz artist_name)
                (fun _ => ret None) ;;
   match mb_data with
   | None => ret None
   | Some hit =>
       let mb_country := hit_mb_country hit in
       qid <- try_except (get_wikidata_qid_from_mb (hit_mbid hit))
                (fun _ => ret None) ;;
       wd_countries <-
         match qid with
         | Some q =>
             if is_empty_string q then ret []
             else try_except (enrich_from_wikidata q) (fun _ => ret [])
         | None => ret []
         end ;;
       let all_countries :=
         match mb_country with
         | Some c => if is_empty_string c then [] else [Some c]
         | None => []
         end ++ wd_countries in
       final_nationalities <-
         match all_countries with
         | [] => ret None
         | _ =>
             stripped <- strip_all all_countries ;;
             ret (Some (PyStr.join " / " (unique_in_order stripped ∅)))
         end ;;
       ret (Some {| mbid := hit_mbid hit; qid := qid;
                    nationality := final_nationalities |})
   end)%eff.

(** [catalog["artists_catalog"]]: a key is absent (never attempted),
    mapped to [None] (attempted and failed), or mapped to a record. *)
Definition Catalog : Type := gmap string (option ArtistRecord).

(** The state of [process_raw_entry]: the world and the catalog, which
    is updated in place. *)
Definition St : Type := World * Catalog.

Definition call {A} (c : M World Event A) : M St Event A :=
  fun st =>
    match c (fst st) with
    | (r, w1, ev) => (r, (w1, snd st), ev)
    end.

Definition get_catalog : M St Event Catalog :=
  fun st => (Ok (snd st), st, []).

(** [catalog["artists_catalog"][key] = v] *)
Definition store (key : string) (v : option ArtistRecord) : M St Event unit :=
  Eff.modify (fun st => (fst st, <[key := v]> (snd st))).

(** [key not in catalog or (isinstance(catalog.get(key), dict) and
    catalog[key].get("qid") is None)] *)
Definition needs_processing (catalog : Catalog) (key : string) : bool :=
  match catalog !! key with
  | None => true
  | Some (Some record) =>
      match qid record with
      | None => true
      | Some _ => false
      end
  | Some None => false
  end.

(** The [for token in individual_tokens] loop. *)
Fixpoint process_tokens (tokens : list string) : M St Event unit :=
  match tokens with
  | [] => ret tt
  | token :: rest =>
      (catalog <- get_catalog ;;
       (if needs_processing catalog token
        then (record <- call (fetch_and_build_record token) ;;
              store token record)
        else ret tt) ;;
       process_tokens rest)%eff
  end.

(** [process_raw_entry(raw_string, catalog)].  The first pass returns
    [true] where the code returns from the function. *)
Definition process_raw_entry (raw_string : string) : M St Event unit :=
  (let raw_clean := normalize raw_string in
   catalog <- get_catalog ;;
   returned <-
     (if needs_processing catalog raw_clean
      then (full_string_hit <- call (fetch_and_build_record raw_clean) ;;
            match full_string_hit with
            | Some record => store raw_clean (Some record) ;; ret true
            | None => store raw_clean None ;; ret false
            end)
      else ret false) ;;
   if returned : bool then ret tt
   else
     catalog <- get_catalog ;;
     match catalog !! raw_clean with
     | Some (Some _) => ret tt
     | _ => process_tokens (split_collaborations raw_clean)
     end)%eff.

(** The file [CATALOG_FILE]: [None] while it does not exist, the mapping
    under "artists_catalog" otherwise. *)
Definition Disk : Type := option Catalog.

(** The state of [main]: the world and the catalog in memory, and the
    file. *)
Definition MainSt : Type := St * Disk.

(** [process_raw_entry(raw_entry, catalog)] in [main]. *)
Definition run_entry (raw_entry : string) : M MainSt Event unit :=
  fun st =>
    match process_raw_entry raw_entry (fst st) with
    | (r, s1, ev) => (r, (s1, snd st), ev)
    end.

(** [with open(CATALOG_FILE, 'w') as f: json.dump(catalog, f, indent=4)] *)
Definition save_catalog : M MainSt Event unit :=
  Eff.modify (fun st => (fst st, Some (snd (fst st)))).

(** The [for i, raw_entry in enumerate(...)] loop, from index [i] on. *)
Fixpoint main_loop (entries : list string) (i : nat) : M MainSt Event unit :=
  match entries with
  | [] => ret tt
  | raw_entry :: rest =>
      (run_entry raw_entry ;;
       (if ((i + 1) mod 50 =? 0)%nat then save_catalog else ret tt) ;;
       main_loop rest (S i))%eff
  end.

(** [main], on the list [INPUT_SONGS] read from the Last.fm cache; an
    exception that leaves it ends the run with the file as last saved. *)
Definition main (INPUT_SONGS : list string) : M (World * Disk) Event unit :=
  fun wd =>
    let catalog := default ∅ (snd wd) in
    let unique_raw_inputs := unique_in_order INPUT_SONGS ∅ in
    match (main_loop unique_raw_inputs 0%nat ;; save_catalog)%eff
            ((fst wd, catalog), snd wd) with
    | (r, ((w1, _), disk1), ev) => (r, (w1, disk1), ev)
    end.

End Pipeline.

(** A scripted network, for running the code on concrete answers: the
    world is the list of the outcomes still to come. *)
Definition scripted (r : Request) (w : list HttpOutcome)
  : HttpOutcome * list HttpOutcome :=
  match w with
  | [] => (RequestRaises, [])
  | o :: w1 => (o, w1)
  end.

End WikidataEnrichment.

(** ** [src/core/lastfm_client.py] *)

Module LastFMClient.

(** The methods of the class [LastFMClient], once it is built (the
    constructor raises [ValueError] when no API key is set).  A JSON
    value the code reads with [.get] is a dictionary when present, the
    list under "tag" a list of dictionaries, a tag name a string. *)

(** The two calls of the API, by method and parameters. *)
Inductive Request : Set :=
| ArtistGetInfo (artist_name : string)             (* method=artist.getinfo *)
| TrackGetInfo (artist_name track_name : string).  (* method=track.getInfo *)

(** The JSON documents, with the keys the code reads. *)
Record TagJson : Set := {
  tag_name : option string                   (* "name" *)
}.

Record TagsJson : Set := {
  tag : option (list TagJson)                (* "tag" *)
}.

Record StatsJson : Set := {
  stats_listeners : option IntArg            (* "listeners" *)
}.

Record ArtistJson : Set := {
  a_tags : option TagsJson;                  (* "tags" *)
  a_stats : option StatsJson                 (* "stats" *)
}.

Record AlbumJson : Set := {
  title : option string                      (* "title" *)
}.

Record TrackJson : Set := {
  album : option AlbumJson                   (* "album" *)
}.

Record JsonBody : Set := {
  artist : option ArtistJson;                (* "artist" *)
  track : option TrackJson                   (* "track" *)
}.

Inductive Body : Set :=
| BadBody                    (* [response.json()] raises *)
| Json (j : JsonBody).

(** What [requests.get(..., timeout=10)] does. *)
Inductive HttpOutcome : Set :=
| RequestRaises
| Response (status_code : Z) (body : Body).

Inductive Event : Set :=
| EvRequest (r : Request).   (* requests.get *)

(** The dictionary [get_artist_info] returns. *)
Record ArtistInfo : Set := {
  tags : list string;
  listeners : Z
}.

(** [{"tags": [], "listeners": 0}] *)
Definition no_info : ArtistInfo := {| tags := []; listeners := 0 |}.

Definition empty_artist : ArtistJson := {| a_tags := None; a_stats := None |}.
Definition empty_tags : TagsJson := {| tag := None |}.
Definition empty_stats : StatsJson := {| stats_listeners := None |}.
Definition empty_track : TrackJson := {| album := None |}.
Definition empty_album : AlbumJson := {| title := None |}.

Section Client.
Context {World : Type}.

(** The network: an arbitrary function of the request and the world. *)
Variable requests_get : Request -> World -> HttpOutcome * World.

Definition http_get (r : Request) : M World Event (Z * Body) :=
  fun w =>
    match requests_get r w with
    | (RequestRaises, w1) => (Raise NetworkError, w1, [EvRequest r])
    | (Response code body, w1) => (Ok (code, body), w1, [EvRequest r])
    end.

(** [response.json()] *)
Definition json (b : Body) : M World Event JsonBody :=
  match b with
  | BadBody => raise ValueError
  | Json j => ret j
  end.

(** [[t["name"].lower() for t in ...]]: a tag without a name raises. *)
Fixpoint tag_names (l : list TagJson) : M World Event (list string) :=
  match l with
  | [] => ret []
  | t :: rest =>
      match tag_name t with
      | Some name =>
          (names <- tag_names rest ;; ret (PyStr.lower name :: names))%eff
      | None => raise KeyError
      end
  end.

Definition get_artist_info (artist_name : string)
  : M World Event ArtistInfo :=
  try_except
    (response <- http_get (ArtistGetInfo artist_name) ;;
     if negb (fst response =? 200) then ret no_info
     else
       doc <- json (snd response) ;;
       let data := default empty_artist (artist doc) in
       tags <- tag_names
                 (default [] (tag (default empty_tags (a_tags data)))) ;;
       listeners <- py_int
                      (default (IntLike 0)
                         (stats_listeners
                            (default empty_stats (a_stats data)))) ;;
       ret {| tags := tags; listeners := listeners |})%eff
    (fun _ => ret no_info).

Definition get_track_year (artist_name track_name : string)
  : M World Event (option string) :=
  try_except
    (response <- http_get (TrackGetInfo artist_name track_name) ;;
     if negb (fst response =? 200) then ret None
     else
       doc <- json (snd response) ;;
       let album_data :=
         default empty_album (album (default empty_track (track doc))) in
       ret (title album_data))%eff
    (fun _ => ret None).

End Client.

(** A scripted network: the world is the list of the outcomes still to
    come. *)
Definition scripted (r : Request) (w : list HttpOutcome)
  : HttpOutcome * list HttpOutcome :=
  match w with
  | [] => (RequestRaises, [])
  | o :: w1 => (o, w1)
  end.

End LastFMClient.

(** ** [src/scripts/enrich_with_lastfm.py] *)

Module LastFMRunner.

Import LastFMClient.

(** [main] from the loading of the cache on, over the list
    [unique_artists] taken from the dataset; the second phase of the script
    is a comment, and the entries under "tracks_metadata" are of a type
    [TrackMeta] the script never looks into. *)

Section Runner.
Context {World TrackMeta : Type}.

(** [client.get_artist_info], the method of the client the script
    builds. *)
Variable get_artist_info : string -> M World LastFMClient.Event ArtistInfo.

(** The content of [OUTPUT_PATH]: [enrichment_data]. *)
Record EnrichmentData : Type := {
  artists : gmap string ArtistInfo;          (* "artists" *)
  tracks_metadata : gmap string TrackMeta    (* "tracks_metadata" *)
}.

(** [{"artists": {}, "tracks_metadata": {}}] *)
Definition no_data : EnrichmentData :=
  {| artists := ∅; tracks_metadata := ∅ |}.

(** The file [OUTPUT_PATH]: [None] while it does not exist. *)
Definition Disk : Type := option EnrichmentData.

Inductive Event : Type :=
| EvClient (e : LastFMClient.Event)   (* what the client did *)
| EvSleep (ms : Z)                    (* time.sleep *)
| EvSave (snapshot : EnrichmentData). (* json.dump(enrichment_data, f) *)

Definition St : Type := World * Disk.

(** A call of the client from the script. *)
Definition call_client (artist : string) : M St Event ArtistInfo :=
  fun st =>
    match get_artist_info artist (fst st) with
    | (r, w1, ev) => (r, (w1, snd st), map EvClient ev)
    end.

(** [with open(OUTPUT_PATH, "w") as f: json.dump(enrichment_data, f)]:
    the whole of [enrichment_data] replaces the file. *)
Definition save (enrichment_data : EnrichmentData) : M St Event unit :=
  fun st => (Ok tt, (fst st, Some enrichment_data), [EvSave enrichment_data]).

(** [enrichment_data], the empty one unless the file exists. *)
Definition load : M St Event EnrichmentData :=
  fun st => (Ok (default no_data (snd st)), st, []).

(** [enrichment_data["artists"][artist] = info] *)
Definition set_artist (artist : string) (info : ArtistInfo)
    (enrichment_data : EnrichmentData) : EnrichmentData :=
  {| artists := <[artist := info]> (artists enrichment_data);
     tracks_metadata := tracks_metadata enrichment_data |}.

(** Phase 1, the [for i, artist in enumerate(unique_artists)] loop. *)
Fixpoint phase1 (unique_artists : list string)
    (enrichment_data : EnrichmentData) (new_reqs : nat)
  : M St Event EnrichmentData :=
  match unique_artists with
  | [] => ret enrichment_data
  | artist :: rest =>
      match artists enrichment_data !! artist with
      | Some _ => phase1 rest enrichment_data new_reqs
      | None =>
          (info <- call_client artist ;;
           let enrichment_data := set_artist artist info enrichment_data in
           let new_reqs := S new_reqs in
           (if (new_reqs mod 50 =? 0)%nat then save enrichment_data
            else ret tt) ;;
           emit (EvSleep 200) ;;
           phase1 rest enrichment_data new_reqs)%eff
      end
  end.

(** [main]: the cache is loaded, the first phase runs, and the result is
    saved. *)
Definition main (unique_artists : list string) : M St Event unit :=
  (enrichment_data <- load ;;
   enrichment_data <- phase1 unique_artists enrichment_data 0%nat ;;
   save enrichment_data)%eff.

End Runner.

End LastFMRunner.

(** ** Concrete inputs used by the examples below *)

Module Samples.

Import MusicBrainzFeatures.

(** A cache holding one track, and a record whose count is zero. *)
Definition one_track_cache : gmap string CachedRecord :=
  {[ "Pink Floyd || Time"%string :=
       {| found := Some true; release_type := Some "Album"%string;
          track_number := Some 4; track_count := Some 10 |} ]}.

Definition first_of_none : CachedRecord :=
  {| found := Some true; release_type := Some "Album"%string;
     track_number := Some 1; track_count := Some 0 |}.

Definition third_of_two : CachedRecord :=
  {| found := Some true; release_type := Some "Single"%string;
     track_number := Some 3; track_count := Some 2 |}.

(** Releases and candidates. *)
Definition release_of (status type title date : string)
    (count : IntArg) : MusicBrainzClient.Release :=
  MusicBrainzClient.Build_Release (Some status)
    (Some (MusicBrainzClient.Build_ReleaseGroup (Some type) None))
    (Some date) (Some title)
    (Some [MusicBrainzClient.Build_Medium
             (Some [MusicBrainzClient.Build_Track (Some "3"%string)])
             (Some count)]).

Definition candidate_of_release (r : MusicBrainzClient.Release)
  : MusicBrainzClient.Candidate :=
  MusicBrainzClient.Build_Candidate r
    (default ""%string (MusicBrainzClient.r_date r))
    (default "unknown"%string
       (MusicBrainzClient.rg_type
          (default MusicBrainzClient.empty_release_group
             (MusicBrainzClient.r_release_group r)))).

(** Two editions of one album, out on the same day. *)
Definition edition_uk : MusicBrainzClient.Release :=
  release_of "Official" "Album" "The Wall (UK)" "1979-11-30" (IntLike 13).
Definition edition_us : MusicBrainzClient.Release :=
  release_of "Official" "Album" "The Wall (US)" "1979-11-30" (IntLike 26).

Definition single_2012 : MusicBrainzClient.Release :=
  release_of "Official" "Single" "Somebody" "2012" (IntLike 2).
Definition album_2012 : MusicBrainzClient.Release :=
  release_of "Official" "Album" "Making Mirrors" "2012-03-01" (IntLike 12).

(** Unofficial releases, the second with a track count that is no number,
    and recordings. *)
Definition bootleg : MusicBrainzClient.Release :=
  release_of "Bootleg" "Album" "Live at Pompeii" "1972" (IntLike 6).
Definition bootleg_bad_count : MusicBrainzClient.Release :=
  release_of "Bootleg" "Album" "Live at Pompeii" "1972" NotIntLike.

(** The same release with the track numbered "1" and a superscript two,
    a character [str.isdigit] accepts and [int] refuses. *)
Definition bootleg_superscript : MusicBrainzClient.Release :=
  MusicBrainzClient.Build_Release (Some "Bootleg"%string)
    (Some (MusicBrainzClient.Build_ReleaseGroup (Some "Album"%string) None))
    (Some "1972"%string) (Some "Live at Pompeii"%string)
    (Some [MusicBrainzClient.Build_Medium
             (Some [MusicBrainzClient.Build_Track
                      (Some (String "1" (String "178" EmptyString)))])
             (Some (IntLike 6))]).

Definition standalone : MusicBrainzClient.Recording :=
  MusicBrainzClient.Build_Recording None.
Definition on_bootleg : MusicBrainzClient.Recording :=
  MusicBrainzClient.Build_Recording (Some [bootleg]).
Definition on_bootleg_bad_count : MusicBrainzClient.Recording :=
  MusicBrainzClient.Build_Recording (Some [bootleg_bad_count]).
Definition on_bootleg_superscript : MusicBrainzClient.Recording :=
  MusicBrainzClient.Build_Recording (Some [bootleg_superscript]).

(** A work list and a cache that holds one of its keys as not found. *)
Definition two_tracks : list (string * string) :=
  [("Pink Floyd", "Echoes"); ("Pink Floyd", "Time")]%string.

Definition echoes_not_found : MusicBrainzRunner.Cache :=
  {[ "Pink Floyd || Echoes"%string := MusicBrainzClient.initial_result ]}.

(** Answers of the network. *)
Definition artist_answer (score : Z) : WikidataEnrichment.HttpOutcome :=
  WikidataEnrichment.Response 200
    (WikidataEnrichment.Json
       (WikidataEnrichment.Build_JsonBody
          (Some [WikidataEnrichment.Build_ArtistJson
                   (Some (IntLike score)) (Some "mbid-1"%string)
                   (Some "Gotye"%string)
                   (Some (WikidataEnrichment.Build_Area
                            (Some "Australia"%string)))])
          None None)).

Definition rels_answer : WikidataEnrichment.HttpOutcome :=
  WikidataEnrichment.Response 200
    (WikidataEnrichment.Json
       (WikidataEnrichment.Build_JsonBody None
          (Some [WikidataEnrichment.Build_RelJson (Some "wikidata"%string)
                   (Some (WikidataEnrichment.Build_UrlJson
                            (Some "https://www.wikidata.org/wiki/Q42"%string)))])
          None)).

Definition countries_answer : WikidataEnrichment.HttpOutcome :=
  WikidataEnrichment.Response 200
    (WikidataEnrichment.Json
       (WikidataEnrichment.Build_JsonBody None None
          (Some [WikidataEnrichment.Build_Binding
                   (Some (WikidataEnrichment.Build_CountryName
                            (Some "Belgium"%string)))
                   false]))).

Definition unavailable : WikidataEnrichment.HttpOutcome :=
  WikidataEnrichment.Response 503 WikidataEnrichment.BadBody.

(** Catalogs: an artist resolved without a Wikidata identifier, and one
    resolved with it next to a failed one. *)
Definition gotye_without_qid : WikidataEnrichment.Catalog :=
  {[ "Gotye"%string :=
       Some (WikidataEnrichment.Build_ArtistRecord "mbid-1" None
               (Some "Australia"%string)) ]}.

Definition gotye_resolved : WikidataEnrichment.Catalog :=
  <[ "Gotye"%string :=
       Some (WikidataEnrichment.Build_ArtistRecord "mbid-1"
               (Some "Q42"%string) (Some "Australia / Belgium"%string)) ]>
    {[ "Kimbra"%string := None ]}.

(** A recording on two official releases, a relation to Wikidata, an
    answer of Wikidata whose binding has a null value, and an empty
    catalog. *)
Definition on_two_releases : MusicBrainzClient.Recording :=
  MusicBrainzClient.Build_Recording (Some [single_2012; album_2012]).

Definition wikidata_relation : WikidataEnrichment.RelJson :=
  WikidataEnrichment.Build_RelJson (Some "wikidata"%string)
    (Some (WikidataEnrichment.Build_UrlJson
             (Some "https://www.wikidata.org/wiki/Q42"%string))).

Definition null_country_answer : WikidataEnrichment.HttpOutcome :=
  WikidataEnrichment.Response 200
    (WikidataEnrichment.Json
       (WikidataEnrichment.Build_JsonBody None None
          (Some [WikidataEnrichment.Build_Binding
                   (Some (WikidataEnrichment.Build_CountryName None))
                   false]))).

Definition no_catalog : WikidataEnrichment.Catalog := ∅.

(** A cache holding a track as not found, and the last track of ten. *)
Definition cached_not_found : gmap string CachedRecord :=
  {[ "Pink Floyd || Echoes"%string :=
       {| found := Some false; release_type := Some "unknown"%string;
          track_number := None; track_count := None |} ]}.

Definition last_of_ten : CachedRecord :=
  {| found := Some true; release_type := Some "Album"%string;
     track_number := Some 10; track_count := Some 10 |}.



Definition clean_table : SchemaDrift.DataFrame :=
  [("artist_name", 1); ("tempo", 3)]%string.

(** A merged column next to a column that bears its unsuffixed name. *)
Definition merged_next_to_plain : SchemaDrift.DataFrame :=
  [("artist_name_x", 1); ("artist_name", 2); ("tempo", 3)]%string.

End Samples.

(** ** Notions used in the statements below *)

Module Notions.

Section Features.
Import MusicBrainzFeatures.

Definition neutral_defaults : Features :=
  {| mb_found := 0; mb_is_single := 1; mb_track_number := 1;
     mb_track_count := 1; mb_prominence_ratio := 0 |}.

(** The flag [data.get("found")] is truthy. *)
Definition found_truthy (data : CachedRecord) : Prop :=
  found data = Some true.
End Features.



(** The label of a column after the renaming. *)
Definition relabel (col : string) : string :=
  if PyStr.endswith col "_x" then PyStr.remove_x col else col.

(** The renamed label survives the two [drop]s. *)
Definition kept (dropped : list string) (col : string) : bool :=
  negb (SchemaDrift.mem_string col dropped)
  && negb (String.eqb col "Unnamed: 0").

(** The table that results: every column relabelled, those kept. *)
Definition cleaned {V} (df : SchemaDrift.DataFrame (V := V))
  : SchemaDrift.DataFrame (V := V) :=
  List.filter (fun cv => kept (SchemaDrift.cols_to_drop df) (fst cv))
    (map (fun cv => (relabel (fst cv), snd cv)) df).

Section Selection.
Import MusicBrainzClient.

(** [c] is a candidate of [l] whose sort key no candidate of [l] is
    below. *)
Definition minimal_in (c : Candidate) (l : list Candidate) : Prop :=
  In c l
  /\ forall d, In d l -> key_compare (sort_key c) (sort_key d) <> Gt.

(** [c] is the first candidate of [l] to have its sort key. *)
Definition first_with_key (c : Candidate) (l : list Candidate) : Prop :=
  exists pre post,
    l = pre ++ c :: post
    /\ forall d, In d pre -> sort_key d <> sort_key c.

(** [int(medium["track-count"])] of the first medium of the release does
    not raise. *)
Definition track_count_converts (rel : Release) : bool :=
  match r_medium_list rel with
  | Some (medium :: _) =>
      match m_track_count medium with
      | Some NotIntLike => false
      | _ => true
      end
  | _ => true
  end.

(** [int(digits)] of the number of the first track of the first medium
    does not raise: the characters [str.isdigit] keeps are decimal digits,
    no more than [int] reads (a number without any is not converted). *)
Definition track_number_converts (rel : Release) : bool :=
  match r_medium_list rel with
  | Some (medium :: _) =>
      match m_track_list medium with
      | Some (track :: _) =>
          let digits := PyStr.digits_of (default ""%string (t_number track)) in
          is_empty_string digits
          || match int_arg_of_digits digits with
             | IntLike _ => true
             | NotIntLike => false
             end
      | _ => true
      end
  | _ => true
  end.
End Selection.

Section Traces.
Import WikidataEnrichment.

(** Every event a computation emits, from any state, satisfies [P]. *)
Definition emits {S E A} (P : E -> Prop) (c : M S E A) : Prop :=
  forall s, Forall P (Eff.events (c s)).

Definition is_request (e : Event) : bool :=
  match e with
  | EvRequest _ => true
  | _ => false
  end.

(** The number of requests of a trace. *)
Definition count_requests (ev : list Event) : nat :=
  length (List.filter is_request ev).

(** A wait of tenacity lasts between 2 and 10 seconds. *)
Definition backoff_bounded (e : Event) : Prop :=
  forall ms, e = EvBackoff ms -> 2000 <= ms <= 10000.

Definition no_sleep (e : Event) : Prop :=
  forall ms, e <> EvSleep ms.

(** The request fails: it times out or cannot connect, or it is answered
    with status 200 and a body that cannot be decoded. *)
Definition request_fails (o : HttpOutcome) : bool :=
  match o with
  | RequestRaises => true
  | Response code BadBody => code =? 200
  | Response _ (Json _) => false
  end.

(** Every request of the trace is followed at once by a pacing sleep. *)
Fixpoint every_request_paced (ev : list Event) : bool :=
  match ev with
  | [] => true
  | EvRequest _ :: rest =>
      match rest with
      | EvSleep _ :: _ => every_request_paced rest
      | _ => false
      end
  | _ :: rest => every_request_paced rest
  end.

(** No two requests of the trace without a pacing sleep between them;
    [pending] tells that a request was issued since the last sleep. *)
Fixpoint requests_separated (pending : bool) (ev : list Event) : bool :=
  match ev with
  | [] => true
  | EvRequest _ :: rest =>
      if pending then false else requests_separated true rest
  | EvSleep _ :: rest => requests_separated false rest
  | _ :: rest => requests_separated pending rest
  end.

(** A key of the catalog that needs no processing: mapped to the null
    marker, or to a record whose qid is set. *)
Definition settled (catalog : Catalog) (key : string) : Prop :=
  catalog !! key = Some None
  \/ exists record q, catalog !! key = Some (Some record) /\ qid record = Some q.

(** The event is not a search for the artist [key]. *)
Definition not_search (key : string) (e : Event) : Prop :=
  e <> EvRequest (MBSearchArtist key).
End Traces.

(** The string has no whitespace; it has nothing else. *)
Fixpoint no_space (s : string) : bool :=
  match s with
  | EmptyString => true
  | String c s' => negb (PyStr.is_space c) && no_space s'
  end.

Fixpoint all_space (s : string) : bool :=
  match s with
  | EmptyString => true
  | String c s' => PyStr.is_space c && all_space s'
  end.

(** The first character is no whitespace. *)
Definition starts_clean (s : string) : bool :=
  match s with
  | EmptyString => true
  | String c _ => negb (PyStr.is_space c)
  end.

(** The last character is no whitespace; [after_space] tells it of the
    character before the string. *)
Fixpoint ends_clean (after_space : bool) (s : string) : bool :=
  match s with
  | EmptyString => negb after_space
  | String c s' => ends_clean (PyStr.is_space c) s'
  end.

(** The string is single-spaced: its whitespace is the space character,
    never twice in a row and never last, nor first after whitespace. *)
Fixpoint tidy_from (after_space : bool) (s : string) : bool :=
  match s with
  | EmptyString => negb after_space
  | String c s' =>
      if PyStr.is_space c
      then negb after_space && Ascii.eqb c " " && tidy_from true s'
      else tidy_from false s'
  end.

Fixpoint all_digits (s : string) : bool :=
  match s with
  | EmptyString => true
  | String c s' => PyStr.is_digit c && all_digits s'
  end.

(** The string is "Q" followed by one decimal digit or more. *)
Definition is_qid (q : string) : bool :=
  match q with
  | String c (String d ds) => Ascii.eqb c "Q" && all_digits (String d ds)
  | _ => false
  end.

(** A computation that issues [n] requests at most, from any state. *)
Definition requests_at_most {S A} (n : nat)
    (c : M S WikidataEnrichment.Event A) : Prop :=
  forall s, (count_requests (Eff.events (c s)) <= n)%nat.

(** A computation whose first event is [e], from any state. *)
Definition starts_with {S E A} (e : E) (c : M S E A) : Prop :=
  forall s, exists ev, Eff.events (c s) = e :: ev.

(** The event is a request that follows the search: for the relations of
    an artist or for the countries. *)
Definition is_lookup (e : WikidataEnrichment.Event) : bool :=
  match e with
  | WikidataEnrichment.EvRequest (WikidataEnrichment.MBSearchArtist _) => false
  | WikidataEnrichment.EvRequest _ => true
  | _ => false
  end.

(** The catalog file exists and holds the key. *)
Definition file_has_key (disk : WikidataEnrichment.Disk) (key : string) : Prop :=
  exists c : WikidataEnrichment.Catalog, disk = Some c /\ is_Some (c !! key).

(** No more than [limit] calls of the client are begun (a call begins
    with its sleep) without a save of the cache after them; [n] is the
    number of calls begun since the last save. *)
Fixpoint unsaved_within (limit n : nat) (ev : list MusicBrainzRunner.Event)
  : bool :=
  match ev with
  | [] => true
  | MusicBrainzRunner.EvSave _ :: rest => unsaved_within limit 0 rest
  | MusicBrainzRunner.EvClient (MusicBrainzClient.EvSleep _) :: rest =>
      (S n <=? limit)%nat && unsaved_within limit (S n) rest
  | _ :: rest => unsaved_within limit n rest
  end.

(** The label is none that the cleanup touches. *)
Definition settled_label (col : string) : bool :=
  negb (PyStr.endswith col "_x") && negb (PyStr.endswith col "_y")
  && negb (String.eqb col "Unnamed: 0").

(** No request of the Last.fm runner is issued while an earlier one has
    not been followed by a sleep; [pending] tells that a request was
    issued since the last sleep. *)
Fixpoint fetches_paced {T} (pending : bool)
    (ev : list (LastFMRunner.Event (TrackMeta := T))) : bool :=
  match ev with
  | [] => true
  | LastFMRunner.EvClient (LastFMClient.EvRequest _) :: rest =>
      if pending then false else fetches_paced true rest
  | LastFMRunner.EvSleep _ :: rest => fetches_paced false rest
  | LastFMRunner.EvSave _ :: rest => fetches_paced pending rest
  end.

End Notions.

Import Notions.

(** * Properties *)

(** ** The merge step: [extract_logic] *)

Section FeaturesFacts.

Import MusicBrainzFeatures.

Lemma or_one_nonzero (x : option Z) : or_one x <> 0.
Proof.
  destruct x as [v|]; simpl; [|lia].
  destruct (Z.eqb_spec v 0); lia.
Qed.

Lemma or_one_positive (x : option Z) :
  (forall v, x = Some v -> 0 <= v) -> 1 <= or_one x.
Proof.
  intros Hx. destruct x as [v|]; simpl; [|lia].
  specialize (Hx v eq_refl). destruct (Z.eqb_spec v 0); lia.
Qed.

Lemma round4_between (a b : Z) :
  0 <= a -> 0 < b -> a * 10000 / b <= round4 a b <= a * 10000 / b + 1.
Proof.
  intros Ha Hb. unfold round4, round4_nonneg.
  destruct (Z.leb_spec 0 a); [|lia].
  repeat match goal with
         | |- context [if ?c then _ else _] => destruct c
         | |- context [match ?c with Eq => _ | Lt => _ | Gt => _ end] =>
             destruct c
         end; lia.
Qed.

Lemma round4_at_least_one (a b : Z) :
  0 < b -> b <= a -> 10000 <= round4 a b.
Proof.
  intros Hb Hab.
  pose proof (round4_between a b ltac:(lia) Hb) as [Hlo _].
  assert (10000 <= a * 10000 / b); [|lia].
  apply Z.div_le_lower_bound; lia.
Qed.

Lemma round4_above_one (a b : Z) :
  0 < b -> b < 20000 * (a - b) -> 10000 < round4 a b.
Proof.
  intros Hb Hab. unfold round4, round4_nonneg.
  destruct (Z.leb_spec 0 a); [|lia].
  pose proof (Z.div_mod (a * 10000) b ltac:(lia)) as Hdm.
  pose proof (Z.mod_pos_bound (a * 10000) b Hb) as Hr.
  assert (10000 <= a * 10000 / b) as Hq
    by (apply Z.div_le_lower_bound; lia).
  set (q := a * 10000 / b) in *. set (r := a * 10000 mod b) in *.
  assert (q <= 10000 -> 2 * r <= b -> False) as Hne.
  { intros Hle Hrb. assert (q = 10000) as Hq' by lia.
    rewrite Hq' in Hdm. lia. }
  destruct (Z.ltb_spec (2 * r) b) as [H1|H1]; [lia|].
  destruct (Z.ltb_spec b (2 * r)) as [H2|H2]; [lia|].
  destruct (double_vs_quotient a b); [destruct (Z.even q)| |]; lia.
Qed.

(** C7.  A row whose composite key "{artist_name} || {song_name}" is
    absent from the MusicBrainz cache receives exactly mb_found=0,
    mb_is_single=1, mb_track_number=1, mb_track_count=1 and
    mb_prominence_ratio=0.0: every derived column holds a number. *)
Theorem extract_logic_absent_key
    (mb_data : gmap string CachedRecord) (artist_name song_name : string) :
  mb_data !! mb_key artist_name song_name = None ->
  extract_logic mb_data artist_name song_name = neutral_defaults.
Proof.
  intros Habsent. unfold extract_logic. rewrite Habsent. reflexivity.
Qed.

Lemma extract_logic_absent_key_witness :
  Samples.one_track_cache !! mb_key "Pink Floyd" "Money" = None
  /\ extract_logic Samples.one_track_cache "Pink Floyd" "Money"
     = neutral_defaults.
Proof.
  split; [reflexivity|].
  apply (extract_logic_absent_key Samples.one_track_cache
           "Pink Floyd" "Money").
  reflexivity.
Defined.

(** C10, as the code has it.  For a cached record with a truthy found
    flag, a missing, null or zero track_number and track_count become 1,
    and mb_track_count is never zero.  When the recorded count is not
    negative, mb_track_count is at least 1 and mb_prominence_ratio is
    round(mb_track_number / mb_track_count, 4); the ratio is not clamped:
    it is at least 1.0 when mb_track_number >= mb_track_count and above
    1.0 when mb_track_number / mb_track_count > 1.00005. *)
Theorem found_record_features (data : CachedRecord) :
  found_truthy data ->
  let res := features_of data in
  mb_found res = 1
  /\ mb_track_number res = or_one (track_number data)
  /\ mb_track_count res = or_one (track_count data)
  /\ (track_number data = None \/ track_number data = Some 0 ->
      mb_track_number res = 1)
  /\ (track_count data = None \/ track_count data = Some 0 ->
      mb_track_count res = 1)
  /\ mb_track_count res <> 0
  /\ ((forall c, track_count data = Some c -> 0 <= c) ->
      1 <= mb_track_count res
      /\ mb_prominence_ratio res
         = round4 (mb_track_number res) (mb_track_count res)
      /\ (mb_track_count res <= mb_track_number res ->
          10000 <= mb_prominence_ratio res)
      /\ (mb_track_count res
            < 20000 * (mb_track_number res - mb_track_count res) ->
          10000 < mb_prominence_ratio res)).
Proof.
  intros Hfound. unfold found_truthy in Hfound.
  unfold features_of. rewrite Hfound. simpl.
  split; [reflexivity|]. split; [reflexivity|]. split; [reflexivity|].
  split; [intros [H|H]; rewrite H; reflexivity|].
  split; [intros [H|H]; rewrite H; reflexivity|].
  split; [apply or_one_nonzero|].
  intros Hcount.
  pose proof (or_one_positive (track_count data) Hcount) as Hpos.
  destruct (Z.ltb_spec 0 (or_one (track_count data))) as [Hlt|Hlt]; [|lia].
  split; [exact Hpos|]. split; [reflexivity|]. split.
  - intros H. apply round4_at_least_one; lia.
  - intros H. apply round4_above_one; lia.
Qed.

Lemma found_record_features_witness :
  mb_track_count (features_of Samples.third_of_two) = 2
  /\ mb_prominence_ratio (features_of Samples.third_of_two) = 15000
  /\ 10000 < mb_prominence_ratio (features_of Samples.third_of_two).
Proof.
  assert (found_truthy Samples.third_of_two) as Hf by reflexivity.
  assert (forall c, track_count Samples.third_of_two = Some c -> 0 <= c)
    as Hc by (intros c H; cbn in H; injection H as <-; lia).
  pose proof (found_record_features Samples.third_of_two Hf) as H.
  cbv zeta in H. destruct H as (_ & _ & H3 & _ & _ & _ & H7).
  destruct (H7 Hc) as (_ & Hratio & _ & Habove).
  split; [exact H3|]. split; [exact Hratio|].
  apply Habove. rewrite H3. vm_compute. reflexivity.
Defined.

(** C10 as stated fails: the recorded track_number 1 is greater than the
    recorded track_count 0, and the ratio is 1.0, not more. *)
Lemma ratio_not_above_one_counterexample :
  found_truthy Samples.first_of_none
  /\ track_number Samples.first_of_none = Some 1
  /\ track_count Samples.first_of_none = Some 0
  /\ 0 < 1
  /\ mb_prominence_ratio (features_of Samples.first_of_none) = 10000
  /\ ~ 10000 < mb_prominence_ratio (features_of Samples.first_of_none).
Proof.
  repeat (split; [reflexivity|]).
  vm_compute. intros H. discriminate H.
Qed.

End FeaturesFacts.

(** ** The schema repair: [clean_redundant_columns] *)

Section SchemaDriftFacts.

Import SchemaDrift.

Lemma endswith_intro (base suffix : string) :
  PyStr.endswith (base +:+ suffix) suffix = true.
Proof.
  induction base as [|a base IH].
  - change (EmptyString +:+ suffix)%string with suffix.
    destruct suffix; cbn [PyStr.endswith]; now rewrite String.eqb_refl.
  - change (String a base +:+ suffix)%string
      with (String a (base +:+ suffix))%string.
    cbn [PyStr.endswith].
    destruct (String.eqb (String a (base +:+ suffix)) suffix);
      [reflexivity | exact IH].
Qed.








Lemma endswith_y_not_x (s : string) :
  PyStr.endswith s "_y" = true -> PyStr.endswith s "_x" = false.
Proof.
  induction s as [|a s IH]; [discriminate|].
  cbn [PyStr.endswith].
  destruct (String.eqb_spec (String a s) "_y") as [Heq|Hy].
  { injection Heq as -> ->. reflexivity. }
  intros H. specialize (IH H).
  destruct (String.eqb_spec (String a s) "_x") as [Heq|Hx]; [|exact IH].
  injection Heq as -> ->. discriminate.
Qed.

Lemma mem_string_In (x : string) (l : list string) :
  mem_string x l = true <-> In x l.
Proof.
  unfold mem_string. rewrite existsb_exists. split.
  - intros (y & Hy & Heq). apply String.eqb_eq in Heq. now subst.
  - intros H. exists x. split; [exact H | apply String.eqb_refl].
Qed.

Lemma filter_twice {A} (f g : A -> bool) (l : list A) :
  List.filter g (List.filter f l) = List.filter (fun x => f x && g x) l.
Proof.
  induction l as [|x l IH]; [reflexivity|]. simpl.
  destruct (f x); simpl; [destruct (g x)|]; now rewrite IH.
Qed.

Lemma filter_nothing {A} (f : A -> bool) (l : list A) :
  (forall x, In x l -> f x = true) -> List.filter f l = l.
Proof.
  induction l as [|x l IH]; [reflexivity|]. intros H. simpl.
  rewrite (H x (or_introl eq_refl)). f_equal. apply IH.
  intros y Hy. apply H. now right.
Qed.

Section Tables.
Context {V : Type}.
Implicit Type df : DataFrame (V := V).

Lemma rename_map_lookup df (col : string) :
  In col (columns df) ->
  rename_map df !! col
  = if PyStr.endswith col "_x" then Some (PyStr.remove_x col) else None.
Proof.
  intros Hcol. unfold rename_map.
  destruct (PyStr.endswith col "_x") eqn:Hx.
  - apply elem_of_list_to_map_1'.
    + intros y Hy. apply list_elem_of_In, in_map_iff in Hy.
      destruct Hy as (c & Heq & _). now injection Heq as -> <-.
    + apply list_elem_of_In, in_map_iff. exists col.
      split; [reflexivity|]. apply filter_In. now split.
  - apply not_elem_of_list_to_map_1. intros Hin.
    apply list_elem_of_fmap in Hin as ([c y] & Heq & Hin).
    simpl in Heq. subst c.
    apply list_elem_of_In, in_map_iff in Hin as (c & Heq & Hf).
    injection Heq as -> _. apply filter_In in Hf as [_ Hx'].
    congruence.
Qed.

Lemma rename_relabel df :
  rename (rename_map df) df = map (fun cv => (relabel (fst cv), snd cv)) df.
Proof.
  unfold rename. apply map_ext_in. intros [c v] Hin. simpl.
  rewrite rename_map_lookup by (apply in_map_iff; now exists (c, v)).
  unfold relabel. now destruct (PyStr.endswith c "_x").
Qed.

Lemma drop_present (labels : list string) df :
  (forall l, In l labels -> In l (columns df)) ->
  drop labels df
  = Some (List.filter (fun cv => negb (mem_string (fst cv) labels)) df).
Proof.
  intros H. unfold drop.
  replace (forallb (fun l => mem_string l (columns df)) labels) with true;
    [reflexivity|].
  symmetry. apply forallb_forall. intros l Hl.
  apply mem_string_In. now apply H.
Qed.

Lemma relabel_y (col : string) :
  PyStr.endswith col "_y" = true -> relabel col = col.
Proof.
  intros H. unfold relabel. now rewrite (endswith_y_not_x col H).
Qed.

Lemma clean_redundant_columns_cleaned df :
  clean_redundant_columns df = Some (cleaned df).
Proof.
  unfold clean_redundant_columns. rewrite rename_relabel.
  rewrite drop_present.
  2:{ intros l Hl. apply filter_In in Hl as [Hl Hy].
      unfold columns in *. rewrite map_map. simpl.
      apply in_map_iff in Hl as (cv & <- & Hcv).
      apply in_map_iff. exists cv. split; [|exact Hcv].
      now apply relabel_y. }
  set (df1 := List.filter _ _).
  assert (cleaned df
          = List.filter
              (fun cv => negb (String.eqb (fst cv) "Unnamed: 0")) df1)
    as ->.
  { unfold cleaned, df1. rewrite filter_twice. reflexivity. }
  destruct (mem_string "Unnamed: 0" (columns df1)) eqn:Hu.
  - rewrite drop_present.
    2:{ intros l [<-|[]]. now apply mem_string_In. }
    f_equal. apply filter_ext. intros cv. unfold mem_string. simpl.
    now rewrite orb_false_r, String.eqb_sym.
  - f_equal. symmetry. apply filter_nothing. intros cv Hcv.
    destruct (String.eqb_spec (fst cv) "Unnamed: 0") as [Heq|];
      [|reflexivity].
    exfalso. assert (mem_string "Unnamed: 0" (columns df1) = true);
      [|congruence].
    apply mem_string_In, in_map_iff. now exists cv.
Qed.

Lemma cleaned_columns df (col : string) :
  In col (columns (cleaned df)) ->
  kept (cols_to_drop df) col = true
  /\ exists old, In old (columns df) /\ col = relabel old.
Proof.
  unfold columns, cleaned. intros H.
  apply in_map_iff in H as (cv & <- & Hcv).
  apply filter_In in Hcv as [Hcv Hk]. split; [exact Hk|].
  apply in_map_iff in Hcv as (cv0 & <- & Hcv0).
  exists (fst cv0). split; [|reflexivity].
  apply in_map_iff. now exists cv0.
Qed.

End Tables.





End SchemaDriftFacts.

(** ** The prominence extractor: the choice of the release *)

Section SelectionFacts.

Import MusicBrainzClient.

Lemma ascii_compare_refl (a : ascii) : Ascii.compare a a = Eq.
Proof. unfold Ascii.compare. apply N.compare_refl. Qed.

Lemma ascii_compare_lt_trans (a b c : ascii) :
  Ascii.compare a b = Lt -> Ascii.compare b c = Lt -> Ascii.compare a c = Lt.
Proof.
  unfold Ascii.compare. rewrite !N.compare_lt_iff. apply N.lt_trans.
Qed.

Lemma string_compare_refl (s : string) : String.compare s s = Eq.
Proof.
  induction s as [|a s IH]; [reflexivity|]. simpl.
  now rewrite ascii_compare_refl.
Qed.

Lemma string_compare_lt_trans (s1 s2 s3 : string) :
  String.compare s1 s2 = Lt -> String.compare s2 s3 = Lt ->
  String.compare s1 s3 = Lt.
Proof.
  revert s2 s3. induction s1 as [|a s1 IH]; intros [|b s2] [|c s3];
    simpl; try discriminate; try reflexivity.
  destruct (Ascii.compare a b) eqn:Hab; try discriminate;
    destruct (Ascii.compare b c) eqn:Hbc; try discriminate; intros H1 H2.
  - apply Ascii.compare_eq_iff in Hab, Hbc. subst.
    rewrite ascii_compare_refl. now apply IH with s2.
  - apply Ascii.compare_eq_iff in Hab. subst. now rewrite Hbc.
  - apply Ascii.compare_eq_iff in Hbc. subst. now rewrite Hab.
  - now rewrite (ascii_compare_lt_trans a b c Hab Hbc).
Qed.

Lemma key_compare_refl (a : string * Z * string) : key_compare a a = Eq.
Proof.
  unfold key_compare.
  now rewrite string_compare_refl, Z.compare_refl, string_compare_refl.
Qed.

Lemma key_compare_eq (a b : string * Z * string) :
  key_compare a b = Eq -> a = b.
Proof.
  destruct a as [[a1 a2] a3], b as [[b1 b2] b3]. unfold key_compare. simpl.
  destruct (String.compare a1 b1) eqn:H1; try discriminate.
  destruct (Z.compare a2 b2) eqn:H2; try discriminate.
  intros H3. apply String.compare_eq_iff in H1, H3.
  apply Z.compare_eq in H2. now subst.
Qed.

Lemma key_compare_antisym (a b : string * Z * string) :
  key_compare a b = CompOpp (key_compare b a).
Proof.
  unfold key_compare.
  rewrite (String.compare_antisym (fst (fst b)) (fst (fst a))).
  destruct (String.compare (fst (fst a)) (fst (fst b))); simpl; trivial.
  rewrite (Z.compare_antisym (snd (fst a)) (snd (fst b))).
  destruct (Z.compare (snd (fst a)) (snd (fst b))); simpl; trivial.
  rewrite (String.compare_antisym (snd b) (snd a)).
  now destruct (String.compare (snd a) (snd b)).
Qed.

Lemma key_compare_lt_trans (a b c : string * Z * string) :
  key_compare a b = Lt -> key_compare b c = Lt -> key_compare a c = Lt.
Proof.
  destruct a as [[a1 a2] a3], b as [[b1 b2] b3], c as [[c1 c2] c3].
  unfold key_compare. simpl.
  destruct (String.compare a1 b1) eqn:H1; try discriminate;
    destruct (String.compare b1 c1) eqn:H2; try discriminate.
  - apply String.compare_eq_iff in H1, H2. subst.
    rewrite string_compare_refl.
    destruct (Z.compare b2 c2) eqn:H4;
      destruct (Z.compare a2 b2) eqn:H3; try discriminate.
    + apply Z.compare_eq in H3, H4. subst. rewrite Z.compare_refl.
      apply string_compare_lt_trans.
    + apply Z.compare_eq in H4. subst. now rewrite H3.
    + apply Z.compare_eq in H3. subst. now rewrite H4.
    + intros _ _. rewrite Z.compare_lt_iff in *.
      assert (a2 < c2) as H by lia.
      apply Z.compare_lt_iff in H. now rewrite H.
  - apply String.compare_eq_iff in H1. subst. now rewrite H2.
  - apply String.compare_eq_iff in H2. subst. now rewrite H1.
  - now rewrite (string_compare_lt_trans a1 b1 c1 H1 H2).
Qed.

(** What is not above and is below something is below it. *)
Lemma key_compare_le_lt_trans (a b c : string * Z * string) :
  key_compare a b <> Gt -> key_compare b c = Lt -> key_compare a c = Lt.
Proof.
  intros Hab Hbc. destruct (key_compare a b) eqn:H; [| |congruence].
  - apply key_compare_eq in H. now subst.
  - now apply key_compare_lt_trans with b.
Qed.

Lemma key_ltb_lt (a b : string * Z * string) :
  key_ltb a b = true <-> key_compare a b = Lt.
Proof.
  unfold key_ltb. destruct (key_compare a b); split; congruence.
Qed.

Lemma insert_by_key_head (x : Candidate) (l : list Candidate) :
  exists rest,
    insert_by_key x l
    = match l with
      | [] => x
      | y :: _ => if key_ltb (sort_key y) (sort_key x) then y else x
      end :: rest.
Proof.
  destruct l as [|y l]; simpl; [now exists []|].
  destruct (key_ltb (sort_key y) (sort_key x)); eauto.
Qed.

Lemma sort_by_key_nil (l : list Candidate) : sort_by_key l = [] -> l = [].
Proof.
  destruct l as [|x l]; [reflexivity|]. simpl.
  destruct (insert_by_key_head x (sort_by_key l)) as [rest ->]. discriminate.
Qed.

(** The head of the sorted list: minimal, and the first of its key. *)
Lemma sort_by_key_head (l : list Candidate) (c : Candidate)
    (rest : list Candidate) :
  sort_by_key l = c :: rest -> minimal_in c l /\ first_with_key c l.
Proof.
  revert c rest. induction l as [|x l IH]; [discriminate|].
  intros c rest. simpl.
  destruct (insert_by_key_head x (sort_by_key l)) as [rest' ->].
  destruct (sort_by_key l) as [|y tl] eqn:Hsort.
  - apply sort_by_key_nil in Hsort. subst l. intros [= <- _]. split.
    + split; [now left|]. intros d [<-|[]]. now rewrite key_compare_refl.
    + exists [], []. split; [reflexivity | intros d []].
  - destruct (IH y tl eq_refl) as [[Hin Hmin] (pre & post & Hl & Hpre)].
    destruct (key_ltb (sort_key y) (sort_key x)) eqn:Hlt; intros [= <- _].
    + apply key_ltb_lt in Hlt. split.
      * split; [now right|]. intros d [<-|Hd]; [|now apply Hmin].
        now rewrite Hlt.
      * exists (x :: pre), post. split; [now rewrite Hl|].
        intros d [<-|Hd]; [|now apply Hpre].
        intros Heq. rewrite Heq, key_compare_refl in Hlt. discriminate.
    + split.
      * split; [now left|]. intros d [<-|Hd].
        { now rewrite key_compare_refl. }
        intros Hgt. rewrite key_compare_antisym in Hgt.
        destruct (key_compare (sort_key d) (sort_key x)) eqn:Hdx;
          try discriminate.
        assert (key_compare (sort_key y) (sort_key x) = Lt) as Hyx
          by (apply key_compare_le_lt_trans with (sort_key d);
              [now apply Hmin | exact Hdx]).
        apply key_ltb_lt in Hyx. congruence.
      * exists [], l. split; [reflexivity | intros d []].
Qed.

Lemma best_of_valid_head (valid : list Candidate) :
  valid <> [] ->
  exists c, best_of_valid valid = Some (c_release c)
            /\ minimal_in c valid /\ first_with_key c valid.
Proof.
  intros Hne. unfold best_of_valid.
  destruct (sort_by_key valid) as [|c rest] eqn:Hsort.
  - now apply sort_by_key_nil in Hsort.
  - exists c. split; [reflexivity|]. now apply sort_by_key_head with rest.
Qed.

(** Two minimal candidates of lists with the same elements have the same
    key. *)
Lemma minimal_in_same_key (c c' : Candidate) (l l' : list Candidate) :
  Permutation l l' -> minimal_in c l -> minimal_in c' l' ->
  sort_key c' = sort_key c.
Proof.
  intros Hperm [Hc Hmin] [Hc' Hmin'].
  assert (In c' l) as Hc'l
    by (apply Permutation_in with l'; [now symmetry | exact Hc']).
  assert (In c l') as Hcl' by now apply Permutation_in with l.
  specialize (Hmin c' Hc'l). specialize (Hmin' c Hcl').
  rewrite key_compare_antisym in Hmin.
  destruct (key_compare (sort_key c') (sort_key c)) eqn:H.
  - now apply key_compare_eq.
  - now simpl in Hmin.
  - congruence.
Qed.

(** C4, as the code has it.  From a non-empty list of surviving
    candidates the release chosen is that of a candidate whose key
    (first four characters of the date, type priority, full date) is
    minimal, the first of that key in the list.  The key chosen does not
    depend on the order of the candidates, and neither does the
    candidate when no other one has the minimal key.  For a Single dated
    "2012" and an Album dated "2012-03-01" the Album is chosen. *)
Theorem best_of_valid_minimum :
  (forall valid : list Candidate,
      valid <> [] ->
      exists c,
        best_of_valid valid = Some (c_release c)
        /\ minimal_in c valid
        /\ first_with_key c valid
        /\ forall valid',
             Permutation valid valid' ->
             exists c',
               best_of_valid valid' = Some (c_release c')
               /\ minimal_in c' valid'
               /\ sort_key c' = sort_key c
               /\ ((forall d, In d valid -> sort_key d = sort_key c -> d = c)
                   -> c' = c))
  /\ (forall single album : Release,
        best_of_valid
          [ {| c_release := single; c_date := "2012"; c_type := "Single" |};
            {| c_release := album; c_date := "2012-03-01";
               c_type := "Album" |} ]
        = Some album).
Proof.
  split; [|reflexivity].
  intros valid Hne.
  destruct (best_of_valid_head valid Hne) as (c & Hbest & Hmin & Hfirst).
  exists c. repeat (split; [assumption|]).
  intros valid' Hperm.
  assert (valid' <> []) as Hne'
    by (intros ->; apply Permutation_sym, Permutation_nil in Hperm;
        contradiction).
  destruct (best_of_valid_head valid' Hne') as (c' & Hbest' & Hmin' & _).
  exists c'. repeat (split; [assumption|]).
  assert (sort_key c' = sort_key c) as Hkey
    by now apply minimal_in_same_key with valid valid'.
  split; [exact Hkey|]. intros Huniq. apply Huniq; [|exact Hkey].
  apply Permutation_in with valid'; [now symmetry | apply Hmin'].
Qed.

Lemma best_of_valid_minimum_witness :
  [Samples.candidate_of_release Samples.single_2012;
   Samples.candidate_of_release Samples.album_2012] <> []
  /\ exists c,
       best_of_valid
         [Samples.candidate_of_release Samples.single_2012;
          Samples.candidate_of_release Samples.album_2012]
       = Some (c_release c)
       /\ minimal_in c
            [Samples.candidate_of_release Samples.single_2012;
             Samples.candidate_of_release Samples.album_2012].
Proof.
  split; [discriminate|].
  destruct (proj1 best_of_valid_minimum
              [Samples.candidate_of_release Samples.single_2012;
               Samples.candidate_of_release Samples.album_2012])
    as (c & Hbest & Hmin & _); [discriminate|].
  exists c. split; assumption.
Defined.

(** C4 as stated fails: two editions of an album with the same date and
    type survive the filters with the same key, and the one listed first
    is chosen. *)
Lemma choice_depends_on_order_counterexample :
  candidate_of Samples.edition_uk
  = Some (Samples.candidate_of_release Samples.edition_uk)
  /\ candidate_of Samples.edition_us
     = Some (Samples.candidate_of_release Samples.edition_us)
  /\ Permutation
    [Samples.candidate_of_release Samples.edition_uk;
     Samples.candidate_of_release Samples.edition_us]
    [Samples.candidate_of_release Samples.edition_us;
     Samples.candidate_of_release Samples.edition_uk]
  /\ best_of_valid
       [Samples.candidate_of_release Samples.edition_uk;
        Samples.candidate_of_release Samples.edition_us]
     = Some Samples.edition_uk
  /\ best_of_valid
       [Samples.candidate_of_release Samples.edition_us;
        Samples.candidate_of_release Samples.edition_uk]
     = Some Samples.edition_us
  /\ Samples.edition_uk <> Samples.edition_us.
Proof.
  split; [reflexivity|]. split; [reflexivity|].
  split; [apply perm_swap|]. split; [reflexivity|].
  split; [reflexivity|]. discriminate.
Qed.

End SelectionFacts.

(** ** The prominence extractor: [get_track_prominence] *)

Section ClientFacts.

Import MusicBrainzClient.

Context {World : Type}.
Variable search_recordings : string -> World -> SearchOutcome * World.

Lemma call_search_frame (q : string) (w : World) (r : ProminenceRecord) :
  exists res w1,
    call_search search_recordings q (w, r) = (res, (w1, r), [EvSearch q]).
Proof.
  unfold call_search. simpl.
  destruct (search_recordings q w) as [[|l] w1]; eauto.
Qed.

(** The searches leave [result] alone and emit nothing but searches. *)
Lemma search_phase_frame (a t : string) (w : World) (r : ProminenceRecord) :
  exists res w1 ev,
    search_phase search_recordings a t (w, r) = (res, (w1, r), ev)
    /\ ~ In EvWarning ev.
Proof.
  unfold search_phase, bind.
  destruct (call_search_frame (strict_query a t) w r) as (res & w1 & ->).
  destruct res as [recordings|e].
  - destruct (is_nil recordings).
    + destruct (call_search_frame (loose_query a t) w1 r) as (res & w2 & ->).
      do 3 eexists. split; [reflexivity|]. simpl. intuition discriminate.
    + do 3 eexists. split; [reflexivity|]. simpl. intuition discriminate.
  - do 3 eexists. split; [reflexivity|]. simpl. intuition discriminate.
Qed.

(** Step 4 touches neither the world nor the flag, and raises only on a
    track number or a track count that [int] rejects. *)
Lemma extract_metrics_frame (rel : Release) (w : World) (r : ProminenceRecord) :
  exists res r',
    extract_metrics rel (w, r) = (res, (w, r'), [])
    /\ found r' = found r
    /\ release_title r' = Some (default "unknown"%string (r_title rel))
    /\ release_date r' = Some (default "unknown"%string (r_date rel))
    /\ (track_number_converts rel = true ->
        track_count_converts rel = true -> res = Ok tt)
    /\ (track_count_converts rel = false -> res = Raise ValueError)
    /\ (track_number_converts rel = false -> res = Raise ValueError).
Proof.
  unfold extract_metrics, track_count_converts, track_number_converts, bind,
    update_result, modify, ret, py_int, raise.
  simpl.
  destruct (mem_string "Compilation" _); simpl;
    (destruct (r_medium_list rel) as [[|medium ?]|]; simpl;
     [do 2 eexists; repeat split; (reflexivity || discriminate)
     | | do 2 eexists; repeat split; (reflexivity || discriminate)]);
    (destruct (m_track_list medium) as [[|track ?]|]; simpl;
     try destruct (is_empty_string _); simpl;
     try destruct (int_arg_of_digits _) as [zn|]; simpl;
     destruct (m_track_count medium) as [[zc|]|]; simpl;
     do 2 eexists; repeat split; (reflexivity || discriminate)).
Qed.

Lemma select_and_extract_frame (recordings : list Recording) (w : World)
    (r : ProminenceRecord) :
  found r = false ->
  exists res r',
    select_and_extract recordings (w, r) = (res, (w, r'), [])
    /\ (forall e, res = Raise e -> found r' = false)
    /\ match recordings, choose_release recordings with
       | _ :: _, Some rel =>
           release_title r' = Some (default "unknown"%string (r_title rel))
           /\ release_date r' = Some (default "unknown"%string (r_date rel))
           /\ (track_number_converts rel = true ->
               track_count_converts rel = true ->
               res = Ok tt /\ found r' = true)
           /\ (track_count_converts rel = false -> res = Raise ValueError)
           /\ (track_number_converts rel = false -> res = Raise ValueError)
       | _, _ => res = Ok tt /\ r' = r
       end.
Proof.
  intros Hfound. unfold select_and_extract.
  destruct recordings as [|rec0 rest]; simpl.
  { exists (Ok tt), r. repeat split. intros e [=]. }
  destruct (choose_release (rec0 :: rest)) as [rel|].
  2:{ exists (Ok tt), r. repeat split. intros e [=]. }
  unfold bind.
  destruct (extract_metrics_frame rel w r)
    as (res & r' & -> & Hf & Ht & Hd & Hok & Hraise & Hnumber).
  destruct res as [[]|e]; simpl.
  - exists (Ok tt), (set_found true r'). split; [reflexivity|].
    split; [intros e [=]|]. split; [exact Ht|]. split; [exact Hd|].
    split; [intros _ _; split; reflexivity|].
    split; intros H; [now specialize (Hraise H) | now specialize (Hnumber H)].
  - exists (Raise e), r'. split; [reflexivity|].
    split; [intros _ _; congruence|]. split; [exact Ht|].
    split; [exact Hd|]. split; [|split].
    + intros Hn Hc. specialize (Hok Hn Hc). discriminate.
    + intros H. exact (Hraise H).
    + intros H. exact (Hnumber H).
Qed.

(** The function in terms of its two phases. *)
Lemma get_track_prominence_phases (a t : string) (w : World) :
  exists res w1 ev,
    search_phase search_recordings a t (w, initial_result)
    = (res, (w1, initial_result), ev)
    /\ ~ In EvWarning ev
    /\ match res with
       | Raise _ =>
           get_track_prominence search_recordings a t w
           = (Ok initial_result, w1, EvSleep 1000 :: ev ++ [EvWarning])
       | Ok recordings =>
           exists res' r',
             select_and_extract recordings (w1, initial_result)
             = (res', (w1, r'), [])
             /\ get_track_prominence search_recordings a t w
                = (Ok r', w1,
                   EvSleep 1000
                     :: ev ++ match res' with
                              | Ok _ => []
                              | Raise _ => [EvWarning]
                              end)
       end.
Proof.
  destruct (search_phase_frame a t w initial_result)
    as (res & w1 & ev & Hsearch & Hev).
  exists res, w1, ev. split; [exact Hsearch|]. split; [exact Hev|].
  unfold get_track_prominence, with_local, try_except, try_body, bind, emit,
    get_result.
  rewrite Hsearch. destruct res as [recordings|e]; simpl.
  - destruct (select_and_extract_frame recordings w1 initial_result eq_refl)
      as (res' & r' & Hsel & _).
    exists res', r'. split; [exact Hsel|]. rewrite Hsel.
    destruct res' as [[]|e]; simpl; now rewrite ?app_nil_r.
  - now rewrite app_nil_r.
Qed.

(** C6, as the code has it.  [get_track_prominence] never raises: it
    returns a record whatever the catalog does.  Every exception of the
    search or of the field extraction is caught and logged, and the record
    returned then has found=False; when the exception comes from the search
    the record is the initial one, every other field at its default. *)
Theorem get_track_prominence_never_raises (a t : string) (w : World) :
  exists r w1 ev,
    get_track_prominence search_recordings a t w = (Ok r, w1, ev)
    /\ (In EvWarning ev -> found r = false)
    /\ (forall e fr ev',
          search_phase search_recordings a t (w, initial_result)
          = (Raise e, fr, ev') ->
          r = initial_result /\ ev = EvSleep 1000 :: ev' ++ [EvWarning])
    /\ (forall rec0 rest fr ev' rel,
          search_phase search_recordings a t (w, initial_result)
          = (Ok (rec0 :: rest), fr, ev') ->
          choose_release (rec0 :: rest) = Some rel ->
          track_count_converts rel = false ->
          found r = false /\ ev = EvSleep 1000 :: ev' ++ [EvWarning]).
Proof.
  destruct (get_track_prominence_phases a t w)
    as (res & w1 & ev & Hsearch & Hev & Hres).
  destruct res as [recordings|e].
  - destruct Hres as (res' & r' & Hsel & ->).
    destruct (select_and_extract_frame recordings w1 initial_result eq_refl)
      as (res2 & r2 & Hsel2 & Hraise & Hshape).
    rewrite Hsel in Hsel2. injection Hsel2 as <- <-.
    exists r', w1. eexists. split; [reflexivity|]. split; [|split].
    + destruct res' as [[]|e].
      * rewrite app_nil_r. intros [H|H]; [discriminate | contradiction].
      * intros _. now apply (Hraise e).
    + intros e fr ev' H. rewrite Hsearch in H. discriminate.
    + intros rec0 rest fr ev' rel H Hchoose Hbad.
      rewrite Hsearch in H. injection H as -> _ <-.
      rewrite Hchoose in Hshape. destruct Hshape as (_ & _ & _ & Hr & _).
      specialize (Hr Hbad). subst res'. split; [|reflexivity].
      now apply (Hraise ValueError).
  - rewrite Hres. exists initial_result, w1. eexists.
    split; [reflexivity|]. split; [reflexivity|]. split.
    + intros e' fr ev' H. rewrite Hsearch in H. injection H as _ _ <-.
      now split.
    + intros rec0 rest fr ev' rel H. rewrite Hsearch in H. discriminate.
Qed.

(** C2, as the code has it.  When the first recording returned has at
    least one release and no release of any recording survives the four
    filters, the release chosen is the first release of the first
    recording, unfiltered: title and date are read from it, and the record
    has found=True exactly when the extraction does not raise.  It raises
    on a track number whose digits [int] refuses (a superscript digit that
    [str.isdigit] lets through) and on a track count that is not a number;
    the record then has found=False. *)
Theorem fallback_first_release (a t : string) (w : World)
    (rec0 : Recording) (rest : list Recording) (rel : Release)
    (rels : list Release) (fr : Frame) (ev : list Event) :
  search_phase search_recordings a t (w, initial_result)
  = (Ok (rec0 :: rest), fr, ev) ->
  release_list rec0 = Some (rel :: rels) ->
  valid_releases (rec0 :: rest) = [] ->
  choose_release (rec0 :: rest) = Some rel
  /\ exists r w1 ev1,
       get_track_prominence search_recordings a t w = (Ok r, w1, ev1)
       /\ release_title r = Some (default "unknown"%string (r_title rel))
       /\ release_date r = Some (default "unknown"%string (r_date rel))
       /\ (track_number_converts rel = true ->
           track_count_converts rel = true -> found r = true)
       /\ (track_number_converts rel = false
           \/ track_count_converts rel = false -> found r = false).
Proof.
  intros Hsearch Hrel Hvalid.
  assert (choose_release (rec0 :: rest) = Some rel) as Hchoose.
  { unfold choose_release. rewrite Hvalid. simpl. now rewrite Hrel. }
  split; [exact Hchoose|].
  destruct (get_track_prominence_phases a t w)
    as (res & w1 & ev' & Hsearch' & _ & Hres).
  rewrite Hsearch in Hsearch'. injection Hsearch' as <- -> <-.
  destruct Hres as (res' & r' & Hsel & ->).
  exists r', w1. eexists. split; [reflexivity|].
  destruct (select_and_extract_frame (rec0 :: rest) w1 initial_result eq_refl)
    as (res2 & r2 & Hsel2 & Hfalse & Hshape).
  rewrite Hsel in Hsel2. injection Hsel2 as <- <-.
  rewrite Hchoose in Hshape.
  destruct Hshape as (Ht & Hd & Hok & Hcount & Hnumber).
  split; [exact Ht|]. split; [exact Hd|]. split.
  - intros Hn Hc. now apply Hok.
  - intros [H|H]; apply (Hfalse ValueError); auto.
Qed.

End ClientFacts.

Section ClientExamples.

Import MusicBrainzClient.

Lemma get_track_prominence_never_raises_witness :
  exists r w1 ev,
    get_track_prominence scripted "Pink Floyd" "Echoes" [SearchRaises]
    = (Ok r, w1, ev)
    /\ r = initial_result /\ In EvWarning ev.
Proof.
  destruct (get_track_prominence_never_raises scripted
              "Pink Floyd" "Echoes" [SearchRaises])
    as (r & w1 & ev & Hrun & _ & Hsearch & _).
  exists r, w1, ev. split; [exact Hrun|].
  destruct (Hsearch NetworkError ([], initial_result)
              [EvSearch (strict_query "Pink Floyd" "Echoes")] eq_refl)
    as [-> ->].
  split; [reflexivity|]. simpl. auto.
Defined.

(** C6 as stated fails: the extraction raises on the track count after
    the title, the date and the type have been written, and the record
    returned is not the initial one. *)
Lemma partial_record_counterexample :
  get_track_prominence scripted "Pink Floyd" "Echoes"
    [SearchReturns (Some [Samples.on_bootleg_bad_count])]
  = (Ok {| release_title := Some "Live at Pompeii"%string;
           release_date := Some "1972"%string;
           release_type := "Album";
           track_count := None;
           track_number := Some 3;
           found := false |},
     [],
     [EvSleep 1000; EvSearch (strict_query "Pink Floyd" "Echoes"); EvWarning])
  /\ release_title initial_result = None.
Proof. split; reflexivity. Qed.

Lemma fallback_first_release_witness :
  choose_release [Samples.on_bootleg] = Some Samples.bootleg
  /\ exists r w1 ev1,
       get_track_prominence scripted "Pink Floyd" "Echoes"
         [SearchReturns (Some [Samples.on_bootleg])]
       = (Ok r, w1, ev1)
       /\ release_title r = Some "Live at Pompeii"%string
       /\ release_date r = Some "1972"%string
       /\ (track_number_converts Samples.bootleg = true ->
           track_count_converts Samples.bootleg = true -> found r = true)
       /\ (track_number_converts Samples.bootleg = false
           \/ track_count_converts Samples.bootleg = false ->
           found r = false).
Proof.
  apply (fallback_first_release scripted "Pink Floyd" "Echoes"
           [SearchReturns (Some [Samples.on_bootleg])]
           Samples.on_bootleg [] Samples.bootleg []
           ([], initial_result)
           [EvSearch (strict_query "Pink Floyd" "Echoes")]);
    reflexivity.
Defined.

(** The fallback release is used and the conversion of its track number
    raises: the title, the date and the type are written, the track number
    and the track count are not, and found stays False. *)
Lemma superscript_track_number_example :
  track_number_converts Samples.bootleg_superscript = false
  /\ track_count_converts Samples.bootleg_superscript = true
  /\ get_track_prominence scripted "Pink Floyd" "Echoes"
       [SearchReturns (Some [Samples.on_bootleg_superscript])]
     = (Ok {| release_title := Some "Live at Pompeii"%string;
              release_date := Some "1972"%string;
              release_type := "Album";
              track_count := None;
              track_number := None;
              found := false |},
        [],
        [EvSleep 1000; EvSearch (strict_query "Pink Floyd" "Echoes");
         EvWarning]).
Proof. repeat split; reflexivity. Qed.

(** C2 as stated fails: a recording with a release is returned and no
    release survives the filters, but the first recording has no release,
    and the record returned is the initial one, with found=False. *)
Lemma fallback_skipped_counterexample :
  In Samples.on_bootleg [Samples.standalone; Samples.on_bootleg]
  /\ release_list Samples.on_bootleg = Some [Samples.bootleg]
  /\ valid_releases [Samples.standalone; Samples.on_bootleg] = []
  /\ get_track_prominence scripted "Pink Floyd" "Echoes"
       [SearchReturns (Some [Samples.standalone; Samples.on_bootleg])]
     = (Ok initial_result, [],
        [EvSleep 1000; EvSearch (strict_query "Pink Floyd" "Echoes")])
  /\ found initial_result = false.
Proof.
  split; [right; left; reflexivity|]. repeat split; reflexivity.
Qed.

End ClientExamples.

(** ** The checkpointed runner: [main] of enrich_with_musicbrainz *)

Section RunnerFacts.

Import MusicBrainzClient MusicBrainzRunner.

Context {World : Type}.
Variable search_recordings : string -> World -> SearchOutcome * World.

Lemma call_client_returns (artist track : string) (st : St) :
  exists r w1 ev,
    call_client search_recordings artist track st = (Ok r, (w1, snd st), ev).
Proof.
  unfold call_client.
  destruct (get_track_prominence_phases search_recordings artist track (fst st))
    as (res & w1 & ev & _ & _ & Hres).
  destruct res as [recordings|e].
  - destruct Hres as (res' & r' & _ & ->). eauto.
  - rewrite Hres. eauto.
Qed.

(** Keys that are all in the cache are all skipped. *)
Lemma loop_all_present (tasks : list (string * string)) (results : Cache)
    (processed : nat) (st : St) :
  (forall a t, In (a, t) tasks -> is_Some (results !! dict_key a t)) ->
  loop search_recordings tasks results processed st = (Ok results, st, []).
Proof.
  induction tasks as [|[a t] tasks IH]; intros Hall; [reflexivity|].
  cbn [loop]. destruct (Hall a t (or_introl eq_refl)) as [r ->].
  apply IH. intros a' t' H. apply Hall. now right.
Qed.

(** The loop returns, keeps what was cached and covers the work list. *)
Lemma loop_covers (tasks : list (string * string)) :
  forall (results : Cache) (processed : nat) (st : St),
  exists results' st' ev,
    loop search_recordings tasks results processed st = (Ok results', st', ev)
    /\ results ⊆ results'
    /\ (forall a t, In (a, t) tasks -> is_Some (results' !! dict_key a t)).
Proof.
  induction tasks as [|[a t] tasks IH]; intros results processed st.
  - exists results, st, []. split; [reflexivity|]. split; [done|]. intros a t [].
  - cbn [loop]. destruct (results !! dict_key a t) as [r|] eqn:Hkey.
    + destruct (IH results processed st) as (results' & st' & ev & Hrun & Hsub & Hcov).
      exists results', st', ev. split; [exact Hrun|]. split; [exact Hsub|].
      intros a' t' [[= <- <-]|Hin]; [|now apply Hcov].
      exists r. eapply lookup_weaken; eassumption.
    + unfold bind.
      destruct (call_client_returns a t st) as (r & w1 & ev1 & ->).
      set (results1 := <[dict_key a t := r]> results).
      assert (results ⊆ results1) as Hsub1 by now apply insert_subseteq.
      assert (forall results' : Cache, results1 ⊆ results' ->
              is_Some (results' !! dict_key a t)) as Hhead.
      { intros results' Hsub. exists r. eapply lookup_weaken; [|exact Hsub].
        apply lookup_insert_eq. }
      destruct (save_interval <=? S processed)%nat.
      * unfold save at 1, bind. cbn [fst snd].
        destruct (IH results1 0%nat (w1, Some results1))
          as (results' & st' & ev & -> & Hsub & Hcov).
        exists results', st'. eexists. split; [reflexivity|].
        split; [now transitivity results1|].
        intros a' t' [[= <- <-]|Hin]; [now apply Hhead | now apply Hcov].
      * destruct (IH results1 (S processed) (w1, snd st))
          as (results' & st' & ev & -> & Hsub & Hcov).
        exists results', st'. eexists. split; [reflexivity|].
        split; [now transitivity results1|].
        intros a' t' [[= <- <-]|Hin]; [now apply Hhead | now apply Hcov].
Qed.

(** C5.  A work key that is in the results mapping is skipped, whatever
    record it holds; so a run over a work list whose keys are all cached
    calls the client for none of them and writes the cache back as it was.
    A first run always ends, with every key of the work list cached and
    saved; a second run over the same work list from that cache therefore
    issues no request and leaves the same cache. *)
Theorem rerun_is_idempotent (tasks : list (string * string)) :
  (forall (w : World) (results : Cache),
      (forall a t, In (a, t) tasks -> is_Some (results !! dict_key a t)) ->
      main search_recordings tasks (w, Some results)
      = (Ok tt, (w, Some results), [EvSave results]))
  /\ (forall (w : World) (disk : Disk),
        exists cache w1 ev1,
          main search_recordings tasks (w, disk)
          = (Ok tt, (w1, Some cache), ev1)
          /\ (forall a t, In (a, t) tasks -> is_Some (cache !! dict_key a t))
          /\ main search_recordings tasks (w1, Some cache)
             = (Ok tt, (w1, Some cache), [EvSave cache])).
Proof.
  assert (forall (w : World) (results : Cache),
      (forall a t, In (a, t) tasks -> is_Some (results !! dict_key a t)) ->
      main search_recordings tasks (w, Some results)
      = (Ok tt, (w, Some results), [EvSave results])) as Hskip.
  { intros w results Hall. unfold main, bind, load. simpl.
    now rewrite loop_all_present. }
  split; [exact Hskip|].
  intros w disk. unfold main at 1, bind, load. simpl.
  destruct (loop_covers tasks (default ∅ disk) 0%nat (w, disk))
    as (cache & [w1 d1] & ev & -> & _ & Hcov).
  unfold save. simpl. exists cache, w1. eexists.
  split; [reflexivity|]. split; [exact Hcov|]. now apply Hskip.
Qed.

End RunnerFacts.

Lemma rerun_is_idempotent_witness :
  MusicBrainzRunner.main MusicBrainzClient.scripted
    [("Pink Floyd", "Echoes")]%string
    ([MusicBrainzClient.SearchRaises], Some Samples.echoes_not_found)
  = (Ok tt,
     ([MusicBrainzClient.SearchRaises], Some Samples.echoes_not_found),
     [MusicBrainzRunner.EvSave Samples.echoes_not_found])
  /\ exists cache w1 ev1,
       MusicBrainzRunner.main MusicBrainzClient.scripted Samples.two_tracks
         ([MusicBrainzClient.SearchReturns (Some [Samples.on_bootleg])], None)
       = (Ok tt, (w1, Some cache), ev1)
       /\ MusicBrainzRunner.main MusicBrainzClient.scripted Samples.two_tracks
            (w1, Some cache)
          = (Ok tt, (w1, Some cache), [MusicBrainzRunner.EvSave cache]).
Proof.
  split.
  - apply (proj1 (rerun_is_idempotent MusicBrainzClient.scripted
                    [("Pink Floyd", "Echoes")]%string)).
    intros a t [[= <- <-]|[]]. exists MusicBrainzClient.initial_result.
    reflexivity.
  - destruct (proj2 (rerun_is_idempotent MusicBrainzClient.scripted
                       Samples.two_tracks)
                [MusicBrainzClient.SearchReturns (Some [Samples.on_bootleg])]
                None)
      as (cache & w1 & ev1 & Hfirst & _ & Hsecond).
    exists cache, w1, ev1. split; assumption.
Defined.

(** ** Traces of computations *)

Section EffFacts.

Context {S E : Type}.
Implicit Type P : E -> Prop.

Lemma emits_ret {A} P (a : A) : emits P (ret (S := S) a).
Proof. intros s. constructor. Qed.

Lemma emits_raise {A} P (e : exn) : emits P (raise (S := S) (A := A) e).
Proof. intros s. constructor. Qed.

Lemma emits_modify P (f : S -> S) : emits P (modify f).
Proof. intros s. constructor. Qed.

Lemma emits_emit P (e : E) : P e -> emits P (emit (S := S) e).
Proof. intros H s. repeat constructor. exact H. Qed.

Lemma emits_bind {A B} P (c : M S E A) (k : A -> M S E B) :
  emits P c -> (forall a, emits P (k a)) -> emits P (bind c k).
Proof.
  intros Hc Hk s. specialize (Hc s). unfold bind, events in *.
  destruct (c s) as [[[a|e] s1] ev1]; simpl in *; [|exact Hc].
  specialize (Hk a s1). unfold events in Hk.
  destruct (k a s1) as [[r s2] ev2]. simpl in *.
  apply Forall_app. now split.
Qed.

Lemma emits_try_except {A} P (c : M S E A) (h : exn -> M S E A) :
  emits P c -> (forall e, emits P (h e)) -> emits P (try_except c h).
Proof.
  intros Hc Hh s. specialize (Hc s). unfold try_except, events in *.
  destruct (c s) as [[[a|e] s1] ev1]; simpl in *; [exact Hc|].
  specialize (Hh e s1). unfold events in Hh.
  destruct (h e s1) as [[r s2] ev2]. simpl in *.
  apply Forall_app. now split.
Qed.

Lemma emits_py_int P (v : IntArg) : emits P (py_int (S := S) (E := E) v).
Proof. destruct v; [apply emits_ret | apply emits_raise]. Qed.

End EffFacts.

(** ** The entity resolution pass and its clients *)

Section WikidataFacts.

Import WikidataEnrichment.

Context {World : Type}.
Variable requests_get : Request -> World -> HttpOutcome * World.

Lemma emits_http_get (P : Event -> Prop) (r : Request) :
  P (EvRequest r) -> emits P (http_get requests_get r).
Proof.
  intros H w. unfold http_get, events.
  destruct (requests_get r w) as [[|code body] w1]; simpl;
    repeat constructor; exact H.
Qed.

Lemma emits_json (P : Event -> Prop) (b : Body) :
  emits P (json (World := World) b).
Proof. destruct b; [apply emits_raise | apply emits_ret]. Qed.

Lemma emits_item {A} (P : Event -> Prop) (field : option A) :
  emits P (item (World := World) field).
Proof. destruct field; [apply emits_ret | apply emits_raise]. Qed.

Lemma emits_retry_loop {A} (P : Event -> Prop) (f : M World Event A)
    (retries_left attempt_number : nat) :
  emits P f -> (forall k, P (EvBackoff (backoff_ms k))) ->
  emits P (retry_loop retries_left attempt_number f).
Proof.
  intros Hf Hb. revert attempt_number.
  induction retries_left as [|k IH]; intros attempt_number; simpl;
    apply emits_try_except; try exact Hf; intros _.
  - apply emits_raise.
  - apply emits_bind; [now apply emits_emit | intros _; apply IH].
Qed.

Ltac emits_auto :=
  repeat first
    [ apply emits_ret | apply emits_raise | apply emits_modify
    | apply emits_py_int | apply emits_json | apply emits_item
    | apply emits_retry_loop
    | apply emits_bind; [|intros ?]
    | apply emits_try_except; [|intros ?]
    | apply emits_emit
    | apply emits_http_get
    | match goal with
      | |- emits _ (if ?b then _ else _) => destruct b
      | |- emits _ (match ?x with _ => _ end) => destruct x
      end ].

Lemma emits_search_musicbrainz (P : Event -> Prop) (name : string) :
  P (EvRequest (MBSearchArtist name)) ->
  P (EvSleep 1200) -> P EvWarning ->
  (forall k, P (EvBackoff (backoff_ms k))) ->
  emits P (search_musicbrainz requests_get name).
Proof.
  intros Hreq Hsleep Hwarn Hwait. unfold search_musicbrainz, retry,
    search_musicbrainz_attempt.
  emits_auto; assumption.
Qed.

Lemma emits_get_wikidata_qid_from_mb (P : Event -> Prop) (mbid : string) :
  P (EvRequest (MBArtistRels mbid)) ->
  P (EvSleep 1200) -> P EvWarning ->
  (forall k, P (EvBackoff (backoff_ms k))) ->
  emits P (get_wikidata_qid_from_mb requests_get mbid).
Proof.
  intros Hreq Hsleep Hwarn Hwait. unfold get_wikidata_qid_from_mb, retry,
    get_wikidata_qid_from_mb_attempt.
  emits_auto; assumption.
Qed.

Lemma emits_enrich_from_wikidata (P : Event -> Prop) (q : string) :
  P (EvRequest (WDCountries q)) -> P EvWarning ->
  (forall k, P (EvBackoff (backoff_ms k))) ->
  emits P (enrich_from_wikidata requests_get q).
Proof.
  intros Hreq Hwarn Hwait. unfold enrich_from_wikidata, retry,
    enrich_from_wikidata_attempt.
  emits_auto; assumption.
Qed.

Lemma emits_strip_all (P : Event -> Prop) (l : list (option string)) :
  emits P (strip_all (World := World) l).
Proof.
  induction l as [|[c|] l IH]; simpl; emits_auto. exact IH.
Qed.

Lemma emits_fetch_and_build_record (P : Event -> Prop) (name : string) :
  P (EvRequest (MBSearchArtist name)) ->
  (forall m, P (EvRequest (MBArtistRels m))) ->
  (forall q, P (EvRequest (WDCountries q))) ->
  P (EvSleep 1200) -> P EvWarning ->
  (forall k, P (EvBackoff (backoff_ms k))) ->
  emits P (fetch_and_build_record requests_get name).
Proof.
  intros Hs Hm Hq Hsleep Hwarn Hwait. unfold fetch_and_build_record.
  apply emits_bind.
  { apply emits_try_except; [|intros _; apply emits_ret].
    now apply emits_search_musicbrainz. }
  intros [hit|]; [|apply emits_ret].
  apply emits_bind.
  { apply emits_try_except; [|intros _; apply emits_ret].
    now apply emits_get_wikidata_qid_from_mb. }
  intros qid. apply emits_bind.
  { destruct qid as [q|]; [|apply emits_ret].
    destruct (is_empty_string q); [apply emits_ret|].
    apply emits_try_except; [|intros _; apply emits_ret].
    now apply emits_enrich_from_wikidata. }
  intros wd. apply emits_bind; [|intros ?; apply emits_ret].
  destruct (_ ++ wd); [apply emits_ret|].
  apply emits_bind; [apply emits_strip_all | intros ?; apply emits_ret].
Qed.

Lemma settled_needs_processing (catalog : Catalog) (key : string) :
  settled catalog key <-> needs_processing catalog key = false.
Proof.
  unfold settled, needs_processing. split.
  - intros [->|(record & q & -> & ->)]; reflexivity.
  - destruct (catalog !! key) as [[record|]|]; [|now left|discriminate].
    destruct (qid record) as [q|] eqn:Hq; [|discriminate].
    intros _. right. now exists record, q.
Qed.

Lemma process_tokens_cons (token : string) (rest : list string)
    (w : World) (catalog : Catalog) :
  process_tokens requests_get (token :: rest) (w, catalog)
  = if needs_processing catalog token then
      match fetch_and_build_record requests_get token w with
      | (Ok record, w1, ev1) =>
          let out := process_tokens requests_get rest
                       (w1, <[token := record]> catalog) in
          (result out, state out, ev1 ++ events out)
      | (Raise e, w1, ev1) => (Raise e, (w1, catalog), ev1)
      end
    else process_tokens requests_get rest (w, catalog).
Proof.
  cbn [process_tokens]. unfold bind at 1. unfold get_catalog at 1.
  cbn [snd]. unfold bind at 1.
  destruct (needs_processing catalog token).
  - unfold bind at 1, call at 1. cbn [fst snd].
    destruct (fetch_and_build_record requests_get token w)
      as [[[record|e] w1] ev1]; [|reflexivity].
    unfold store, modify. cbn [fst snd].
    unfold result, state, events.
    destruct (process_tokens requests_get rest _) as [[r s2] ev2].
    cbn. now rewrite app_nil_r.
  - unfold ret at 1.
    destruct (process_tokens requests_get rest _) as [[r s2] ev2].
    reflexivity.
Qed.

Lemma process_raw_entry_unfold (raw_string : string) (w : World)
    (catalog : Catalog) :
  process_raw_entry requests_get raw_string (w, catalog)
  = let raw_clean := normalize raw_string in
    if needs_processing catalog raw_clean then
      match fetch_and_build_record requests_get raw_clean w with
      | (Ok (Some record), w1, ev1) =>
          (Ok tt, (w1, <[raw_clean := Some record]> catalog), ev1)
      | (Ok None, w1, ev1) =>
          let out := process_tokens requests_get
                       (split_collaborations raw_clean)
                       (w1, <[raw_clean := None]> catalog) in
          (result out, state out, ev1 ++ events out)
      | (Raise e, w1, ev1) => (Raise e, (w1, catalog), ev1)
      end
    else
      match catalog !! raw_clean with
      | Some (Some _) => (Ok tt, (w, catalog), [])
      | _ => process_tokens requests_get (split_collaborations raw_clean)
               (w, catalog)
      end.
Proof.
  unfold process_raw_entry. cbv zeta.
  unfold bind at 1. unfold get_catalog at 1. cbn [snd].
  unfold bind at 1.
  destruct (needs_processing catalog (normalize raw_string)).
  - unfold bind at 1, call at 1. cbn [fst snd].
    destruct (fetch_and_build_record requests_get (normalize raw_string) w)
      as [[[[record|]|e] w1] ev1]; [| |reflexivity].
    + unfold bind, store, modify, ret. cbn. now rewrite !app_nil_r.
    + unfold bind at 1, store at 1, modify at 1, ret at 1. cbn [fst snd].
      unfold bind at 1, get_catalog at 1. cbn [snd].
      unfold Catalog in *. rewrite lookup_insert_eq.
      unfold result, state, events.
      destruct (process_tokens requests_get _ _) as [[r s2] ev2].
      cbn. now rewrite !app_nil_r.
  - unfold ret at 1. unfold bind at 1, get_catalog at 1. cbn [snd].
    destruct (catalog !! normalize raw_string) as [[record|]|].
    + reflexivity.
    + destruct (process_tokens requests_get _ _) as [[r s2] ev2].
      reflexivity.
    + destruct (process_tokens requests_get _ _) as [[r s2] ev2].
      reflexivity.
Qed.

Lemma events_triple {S' E' A'} (r : res A') (s : S') (ev : list E') :
  events (r, s, ev) = ev.
Proof. reflexivity. Qed.

Lemma state_triple {S' E' A'} (r : res A') (s : S') (ev : list E') :
  state (r, s, ev) = s.
Proof. reflexivity. Qed.

Lemma fetch_other_name (name key : string) (w : World) :
  name <> key ->
  Forall (not_search key)
    (events (fetch_and_build_record requests_get name w)).
Proof.
  intros Hne. apply emits_fetch_and_build_record; unfold not_search;
    try discriminate.
  intros [= H]. contradiction.
Qed.

Lemma settled_insert_other (catalog : Catalog) (key other : string)
    (v : option ArtistRecord) :
  other <> key -> settled catalog key -> settled (<[other := v]> catalog) key.
Proof.
  intros Hne. unfold settled, Catalog in *. now rewrite lookup_insert_ne.
Qed.

Lemma needs_processing_other (catalog : Catalog) (key name : string) :
  settled catalog key -> needs_processing catalog name = true -> name <> key.
Proof.
  intros Hs Hn ->. apply settled_needs_processing in Hs. congruence.
Qed.

(** The loop over the tokens never asks for a settled key, and leaves it
    as it is. *)
Lemma process_tokens_settled (tokens : list string) :
  forall (w : World) (catalog : Catalog) (key : string),
    settled catalog key ->
    let out := process_tokens requests_get tokens (w, catalog) in
    Forall (not_search key) (events out)
    /\ snd (state out) !! key = catalog !! key.
Proof.
  induction tokens as [|token rest IH]; intros w catalog key Hs.
  - split; [constructor | reflexivity].
  - cbv zeta. rewrite process_tokens_cons.
    destruct (needs_processing catalog token) eqn:Hn; [|now apply IH].
    pose proof (needs_processing_other catalog key token Hs Hn) as Hne.
    pose proof (fetch_other_name token key w Hne) as Hev.
    destruct (fetch_and_build_record requests_get token w)
      as [[[record|e] w1] ev1]; unfold events in Hev; simpl in Hev.
    + destruct (IH w1 (<[token := record]> catalog) key
                  (settled_insert_other catalog key token record Hne Hs))
        as [Hev2 Hk].
      cbv zeta. rewrite events_triple, state_triple. split.
      * apply Forall_app. now split.
      * rewrite Hk. unfold Catalog in *. now rewrite lookup_insert_ne.
    + split; [exact Hev | reflexivity].
Qed.

Lemma process_raw_entry_settled (raw_string : string) (w : World)
    (catalog : Catalog) (key : string) :
  settled catalog key ->
  let out := process_raw_entry requests_get raw_string (w, catalog) in
  Forall (not_search key) (events out)
  /\ snd (state out) !! key = catalog !! key.
Proof.
  intros Hs. cbv zeta. rewrite process_raw_entry_unfold. cbv zeta.
  destruct (needs_processing catalog (normalize raw_string)) eqn:Hn.
  - pose proof (needs_processing_other catalog key _ Hs Hn) as Hne.
    pose proof (fetch_other_name _ key w Hne) as Hev.
    destruct (fetch_and_build_record requests_get (normalize raw_string) w)
      as [[[[record|]|e] w1] ev1]; unfold events in Hev; simpl in Hev.
    + split; [exact Hev|]. cbn. unfold Catalog in *.
      now rewrite lookup_insert_ne.
    + destruct (process_tokens_settled
                  (split_collaborations (normalize raw_string)) w1
                  (<[normalize raw_string := None]> catalog) key
                  (settled_insert_other catalog key _ None Hne Hs))
        as [Hev2 Hk].
      rewrite events_triple, state_triple. split.
      * apply Forall_app. now split.
      * rewrite Hk. unfold Catalog in *. now rewrite lookup_insert_ne.
    + split; [exact Hev | reflexivity].
  - destruct (catalog !! normalize raw_string) as [[record|]|] eqn:Hl.
    + split; [constructor | reflexivity].
    + now apply process_tokens_settled.
    + now apply process_tokens_settled.
Qed.

Lemma settled_same_entry (c0 c1 : Catalog) (key : string) :
  c1 !! key = c0 !! key -> settled c0 key -> settled c1 key.
Proof. unfold settled. now intros ->. Qed.

Lemma main_loop_cons (raw : string) (rest : list string) (i : nat)
    (w : World) (catalog : Catalog) (disk : Disk) :
  main_loop requests_get (raw :: rest) i ((w, catalog), disk)
  = match process_raw_entry requests_get raw (w, catalog) with
    | (Ok _, (w1, catalog1), ev1) =>
        let out :=
          main_loop requests_get rest (S i)
            ((w1, catalog1),
             if ((i + 1) mod 50 =? 0)%nat then Some catalog1 else disk) in
        (result out, state out, ev1 ++ events out)
    | (Raise e, s1, ev1) => (Raise e, (s1, disk), ev1)
    end.
Proof.
  cbn [main_loop]. unfold bind at 1, run_entry at 1. cbn [fst snd].
  destruct (process_raw_entry requests_get raw (w, catalog))
    as [[[[]|e] [w1 catalog1]] ev1]; [|reflexivity].
  unfold bind at 1.
  destruct ((i + 1) mod 50 =? 0)%nat.
  - unfold save_catalog at 1, modify at 1. cbn [fst snd].
    destruct (main_loop requests_get rest (S i) _) as [[r s2] ev2].
    reflexivity.
  - unfold ret at 1.
    destruct (main_loop requests_get rest (S i) _) as [[r s2] ev2].
    reflexivity.
Qed.

(** Through the loop of [main] a settled key is never searched, and its
    entry stays the same in memory and in the file. *)
Lemma main_loop_settled (entries : list string) :
  forall (i : nat) (w : World) (catalog : Catalog) (disk : Disk)
         (key : string) (v : option (option ArtistRecord)),
    settled catalog key ->
    catalog !! key = v ->
    (forall c, disk = Some c -> c !! key = v) ->
    let out := main_loop requests_get entries i ((w, catalog), disk) in
    Forall (not_search key) (events out)
    /\ snd (fst (state out)) !! key = v
    /\ (forall c, snd (state out) = Some c -> c !! key = v).
Proof.
  induction entries as [|raw rest IH]; intros i w catalog disk key v Hs Hv Hd.
  - cbn. split; [constructor|]. split; assumption.
  - cbv zeta. rewrite main_loop_cons.
    destruct (process_raw_entry_settled raw w catalog key Hs) as [Hev Hk].
    destruct (process_raw_entry requests_get raw (w, catalog))
      as [[[[]|e] [w1 catalog1]] ev1];
      rewrite events_triple in Hev; rewrite state_triple in Hk;
      cbn [snd] in Hk.
    2:{ rewrite events_triple, state_triple. cbn [fst snd].
        split; [exact Hev|]. split; [congruence | exact Hd]. }
    assert (settled catalog1 key) as Hs1
      by (apply settled_same_entry with catalog; assumption).
    assert (catalog1 !! key = v) as Hv1 by congruence.
    cbv zeta. rewrite events_triple, state_triple.
    destruct (IH (S i) w1 catalog1
                (if ((i + 1) mod 50 =? 0)%nat then Some catalog1 else disk)
                key v Hs1 Hv1)
      as (Hev2 & Hm & Hf).
    { destruct ((i + 1) mod 50 =? 0)%nat; [|exact Hd].
      intros c [= <-]. exact Hv1. }
    split; [|split; assumption].
    apply Forall_app. split; [exact Hev|exact Hev2].
Qed.

(** A whole run from a file in which the key is settled. *)
Lemma main_settled (INPUT_SONGS : list string) (w : World)
    (catalog : Catalog) (key : string) :
  settled catalog key ->
  let out := main requests_get INPUT_SONGS (w, Some catalog) in
  Forall (not_search key) (events out)
  /\ (forall saved, snd (state out) = Some saved ->
        saved !! key = catalog !! key).
Proof.
  intros Hs. cbv zeta. unfold main. cbn [fst snd default].
  unfold bind.
  destruct (main_loop_settled (unique_in_order INPUT_SONGS ∅) 0 w catalog
              (Some catalog) key (catalog !! key) Hs eq_refl)
    as (Hev & Hm & Hf).
  { now intros c [= <-]. }
  destruct (main_loop requests_get _ 0%nat _)
    as [[[[]|e] [[w1 catalog1] disk1]] ev1];
    rewrite events_triple in Hev; rewrite state_triple in Hm, Hf;
    cbn [fst snd] in *.
  - unfold save_catalog, modify. cbn.
    rewrite app_nil_r.
    split; [exact Hev|]. now intros saved [= <-].
  - cbn. split; [exact Hev | exact Hf].
Qed.

(** C1, as the code has it.  A key is settled when the catalog maps it to
    the null marker or to a record whose qid is set.  If the normalized
    key of the raw string is mapped to a record whose qid is set,
    [process_raw_entry] issues no request at all and leaves the catalog as
    it is.  Whatever the raw string, no search is issued for a settled
    key, be it the full string or one of its tokens, and its entry is left
    as it is: a null marker is never looked up again.  The same holds of a
    whole run of [main] from a file in which the key is settled, and the
    file written keeps the entry, so that it holds of every later run. *)
Theorem settled_key_not_requeried (raw_string : string) (w : World)
    (catalog : Catalog) :
  (forall record q,
      catalog !! normalize raw_string = Some (Some record) ->
      qid record = Some q ->
      process_raw_entry requests_get raw_string (w, catalog)
      = (Ok tt, (w, catalog), []))
  /\ (forall key,
        settled catalog key ->
        let out := process_raw_entry requests_get raw_string (w, catalog) in
        ~ In (EvRequest (MBSearchArtist key)) (events out)
        /\ snd (state out) !! key = catalog !! key)
  /\ (forall INPUT_SONGS key,
        settled catalog key ->
        let out := main requests_get INPUT_SONGS (w, Some catalog) in
        ~ In (EvRequest (MBSearchArtist key)) (events out)
        /\ (forall saved, snd (state out) = Some saved ->
              saved !! key = catalog !! key)).
Proof.
  split; [|split].
  - intros record q Hkey Hq. rewrite process_raw_entry_unfold. cbv zeta.
    unfold needs_processing. now rewrite Hkey, Hq.
  - intros key Hs.
    destruct (process_raw_entry_settled raw_string w catalog key Hs)
      as [Hev Hk].
    cbv zeta. split; [|exact Hk].
    intros Hin. rewrite List.Forall_forall in Hev. now apply (Hev _ Hin).
  - intros INPUT_SONGS key Hs.
    destruct (main_settled INPUT_SONGS w catalog key Hs) as [Hev Hk].
    cbv zeta. split; [|exact Hk].
    intros Hin. rewrite List.Forall_forall in Hev. now apply (Hev _ Hin).
Qed.

Lemma count_requests_app (ev1 ev2 : list Event) :
  count_requests (ev1 ++ ev2)
  = (count_requests ev1 + count_requests ev2)%nat.
Proof. unfold count_requests. now rewrite List.filter_app, length_app. Qed.

Lemma backoff_ms_bounds (k : nat) : 2000 <= backoff_ms k <= 10000.
Proof. unfold backoff_ms, wait_exponential. lia. Qed.

(** What one attempt of [search_musicbrainz] does, by the outcome of its
    request. *)
Lemma search_musicbrainz_attempt_outcome (name : string) (w : World) :
  match requests_get (MBSearchArtist name) w with
  | (RequestRaises, w1) =>
      search_musicbrainz_attempt requests_get name w
      = (Raise NetworkError, w1,
         [EvRequest (MBSearchArtist name); EvWarning])
  | (Response code body, w1) =>
      exists res,
        search_musicbrainz_attempt requests_get name w
        = (res, w1,
           EvRequest (MBSearchArtist name) :: EvSleep 1200
             :: match res with Ok _ => [] | Raise _ => [EvWarning] end)
        /\ (code <> 200 -> res = Ok None)
        /\ (code = 200 -> body = BadBody -> res = Raise ValueError)
  end.
Proof.
  unfold search_musicbrainz_attempt, try_except, bind, http_get, emit.
  destruct (requests_get (MBSearchArtist name) w) as [[|code body] w1];
    [reflexivity|].
  cbn [fst snd]. destruct (Z.eqb_spec code 200) as [->|Hcode].
  2:{ exists (Ok None). cbn. split; [reflexivity|]. split; [reflexivity|].
      contradiction. }
  destruct body as [|data]; cbn.
  { exists (Raise ValueError). repeat split. intros H. now contradiction H. }
  destruct (artists data) as [[|artist rest]|]; cbn;
    try (exists (Ok None); repeat split;
         try (intros H; now contradiction H); discriminate).
  destruct (default (IntLike 0) (a_score artist)) as [score|]; cbn.
  2:{ exists (Raise ValueError). repeat split;
        try (intros H; now contradiction H); discriminate. }
  destruct (85 <? score); cbn.
  2:{ exists (Ok None). repeat split;
        try (intros H; now contradiction H); discriminate. }
  destruct (a_id artist) as [id|]; cbn.
  2:{ exists (Raise KeyError). repeat split;
        try (intros H; now contradiction H); discriminate. }
  destruct (a_name artist) as [nm|]; cbn.
  2:{ exists (Raise KeyError). repeat split;
        try (intros H; now contradiction H); discriminate. }
  eexists (Ok (Some _)). repeat split;
    try (intros H; now contradiction H); discriminate.
Qed.

Lemma search_musicbrainz_attempt_one_request (name : string) (w : World) :
  count_requests (events (search_musicbrainz_attempt requests_get name w))
  = 1%nat.
Proof.
  pose proof (search_musicbrainz_attempt_outcome name w) as H.
  destruct (requests_get (MBSearchArtist name) w) as [[|code body] w1].
  - now rewrite H.
  - destruct H as (res & -> & _). now destruct res.
Qed.

Section Retry.
Context {A : Type} (f : M World Event A).
Hypothesis one_request : forall w, count_requests (events (f w)) = 1%nat.

Lemma retry_loop_requests (retries_left attempt_number : nat) (w : World) :
  let out := retry_loop retries_left attempt_number f w in
  (1 <= count_requests (events out) <= S retries_left)%nat
  /\ (forall e, result out = Raise e ->
        e = RetryError
        /\ count_requests (events out) = S retries_left).
Proof.
  revert attempt_number w.
  induction retries_left as [|k IH]; intros attempt_number w;
    cbn [retry_loop]; unfold try_except; pose proof (one_request w) as H1;
    destruct (f w) as [[[a|e] w1] ev1]; rewrite events_triple in H1;
    cbv zeta.
  - rewrite events_triple. split; [lia|]. intros e [=].
  - cbn. rewrite app_nil_r. fold (count_requests ev1). split; [lia|].
    intros e' [= <-]. split; [reflexivity | lia].
  - rewrite events_triple. split; [lia|]. intros e [=].
  - unfold bind, emit. specialize (IH (S attempt_number) w1).
    cbv zeta in IH.
    destruct (retry_loop k (S attempt_number) f w1) as [[r s2] ev2].
    rewrite events_triple in *. unfold result in *. cbn [fst snd] in *.
    rewrite !count_requests_app.
    change (count_requests [EvBackoff (backoff_ms attempt_number)])
      with 0%nat.
    destruct IH as [IH1 IH2]. split; [lia|].
    intros e' He. destruct (IH2 e' He) as [-> Hc]. split; [reflexivity|lia].
Qed.

(** A first attempt that raises is followed by a wait and a second one. *)
Lemma retry_after_raise (w w1 : World) (e : exn) (ev1 : list Event) :
  f w = (Raise e, w1, ev1) ->
  retry f w
  = let out := retry_loop 1 2 f w1 in
    (result out, state out, ev1 ++ EvBackoff 2000 :: events out).
Proof.
  intros Hf. unfold retry, max_attempts. cbn [Nat.pred retry_loop].
  unfold try_except at 1. rewrite Hf. unfold bind, emit.
  destruct (try_except f _ w1) as [[r s2] ev2]. reflexivity.
Qed.

Lemma retry_after_return (w w1 : World) (a : A) (ev1 : list Event) :
  f w = (Ok a, w1, ev1) -> retry f w = (Ok a, w1, ev1).
Proof.
  intros Hf. unfold retry, max_attempts. cbn [Nat.pred retry_loop].
  unfold try_except at 1. now rewrite Hf.
Qed.

(** The three attempts, one after the other. *)
Lemma retry_attempts (w : World) :
  retry f w
  = match f w with
    | (Ok a, w1, ev1) => (Ok a, w1, ev1)
    | (Raise _, w1, ev1) =>
        match f w1 with
        | (Ok a, w2, ev2) => (Ok a, w2, ev1 ++ EvBackoff 2000 :: ev2)
        | (Raise _, w2, ev2) =>
            match f w2 with
            | (Ok a, w3, ev3) =>
                (Ok a, w3,
                 ev1 ++ EvBackoff 2000 :: ev2 ++ EvBackoff 2000 :: ev3)
            | (Raise _, w3, ev3) =>
                (Raise RetryError, w3,
                 ev1 ++ EvBackoff 2000 :: ev2 ++ EvBackoff 2000 :: ev3)
            end
        end
    end.
Proof.
  unfold retry, max_attempts. cbn [Nat.pred retry_loop].
  unfold try_except, bind, emit, raise.
  destruct (f w) as [[[a|e1] w1] ev1]; [reflexivity|].
  destruct (f w1) as [[[a|e2] w2] ev2]; [reflexivity|].
  destruct (f w2) as [[[a|e3] w3] ev3]; cbn [app];
    rewrite ?app_nil_r; reflexivity.
Qed.

End Retry.

(** An attempt whose request fails raises, after that one request. *)
Lemma search_musicbrainz_attempt_raises (name : string) (w w1 : World)
    (o : HttpOutcome) :
  requests_get (MBSearchArtist name) w = (o, w1) ->
  request_fails o = true ->
  exists e ev,
    search_musicbrainz_attempt requests_get name w = (Raise e, w1, ev)
    /\ count_requests ev = 1%nat.
Proof.
  intros Hout Hfails.
  pose proof (search_musicbrainz_attempt_outcome name w) as Hatt.
  pose proof (search_musicbrainz_attempt_one_request name w) as H1.
  rewrite Hout in Hatt. destruct o as [|code [|j]]; cbn in Hfails.
  - rewrite Hatt in H1 |- *. eauto.
  - apply Z.eqb_eq in Hfails as ->.
    destruct Hatt as (res & Hrun & _ & Hbad).
    rewrite (Hbad eq_refl eq_refl) in Hrun. rewrite Hrun in H1 |- *. eauto.
  - discriminate.
Qed.

Lemma fetch_after_search_raises (name : string) (w w1 : World) (e : exn)
    (ev : list Event) :
  search_musicbrainz requests_get name w = (Raise e, w1, ev) ->
  fetch_and_build_record requests_get name w = (Ok None, w1, ev).
Proof.
  intros H. unfold fetch_and_build_record, bind, try_except. rewrite H.
  cbn. now rewrite !app_nil_r.
Qed.

(** C3, as the code has it.  A call of [search_musicbrainz] issues between
    one and three requests, and every wait between attempts lasts between
    2 and 10 seconds.  An attempt whose request raises (a timeout) or whose
    body cannot be decoded is followed by a wait of 2 seconds and a new
    attempt.  A response whose status is not 200 is not retried: the call
    returns None after that one request.  When the third attempt raises,
    the call raises RetryError, and [fetch_and_build_record] turns it into
    the result None.  Attempt by attempt: an attempt that returns ends the
    call with its result; a first attempt that raises is followed, after a
    wait of 2 seconds, by a second one, and a second that raises, after
    another wait of 2 seconds, by a third; when the third raises too the
    call raises RetryError and there is no fourth attempt.  An attempt
    raises whenever its request fails, so that three failing requests in a
    row end in RetryError after exactly three requests. *)
Theorem search_musicbrainz_retries (name : string) (w : World) :
  let out := search_musicbrainz requests_get name w in
  (1 <= count_requests (events out) <= 3)%nat
  /\ Forall backoff_bounded (events out)
  /\ (forall e,
        result out = Raise e ->
        e = RetryError
        /\ count_requests (events out) = 3%nat
        /\ fetch_and_build_record requests_get name w
           = (Ok None, state out, events out))
  /\ (forall w1,
        requests_get (MBSearchArtist name) w = (RequestRaises, w1)
        \/ requests_get (MBSearchArtist name) w = (Response 200 BadBody, w1) ->
        (2 <= count_requests (events out))%nat
        /\ In (EvBackoff 2000) (events out))
  /\ (forall code body w1,
        requests_get (MBSearchArtist name) w = (Response code body, w1) ->
        code <> 200 ->
        out = (Ok None, w1, [EvRequest (MBSearchArtist name); EvSleep 1200]))
  /\ (forall a w1 ev1,
        search_musicbrainz_attempt requests_get name w = (Ok a, w1, ev1) ->
        out = (Ok a, w1, ev1))
  /\ (forall e1 w1 ev1,
        search_musicbrainz_attempt requests_get name w = (Raise e1, w1, ev1) ->
        (forall a w2 ev2,
           search_musicbrainz_attempt requests_get name w1 = (Ok a, w2, ev2) ->
           out = (Ok a, w2, ev1 ++ EvBackoff 2000 :: ev2))
        /\ (forall e2 w2 ev2,
              search_musicbrainz_attempt requests_get name w1
              = (Raise e2, w2, ev2) ->
              (forall a w3 ev3,
                 search_musicbrainz_attempt requests_get name w2
                 = (Ok a, w3, ev3) ->
                 out = (Ok a, w3,
                        ev1 ++ EvBackoff 2000 :: ev2 ++ EvBackoff 2000 :: ev3))
              /\ (forall e3 w3 ev3,
                    search_musicbrainz_attempt requests_get name w2
                    = (Raise e3, w3, ev3) ->
                    out = (Raise RetryError, w3,
                           ev1 ++ EvBackoff 2000 :: ev2
                               ++ EvBackoff 2000 :: ev3))))
  /\ (forall w0 w1 o,
        requests_get (MBSearchArtist name) w0 = (o, w1) ->
        request_fails o = true ->
        exists e ev,
          search_musicbrainz_attempt requests_get name w0 = (Raise e, w1, ev)
          /\ count_requests ev = 1%nat)
  /\ (forall o1 o2 o3 w1 w2 w3,
        requests_get (MBSearchArtist name) w = (o1, w1) ->
        requests_get (MBSearchArtist name) w1 = (o2, w2) ->
        requests_get (MBSearchArtist name) w2 = (o3, w3) ->
        request_fails o1 = true ->
        request_fails o2 = true ->
        request_fails o3 = true ->
        result out = Raise RetryError
        /\ state out = w3
        /\ count_requests (events out) = 3%nat
        /\ fetch_and_build_record requests_get name w
           = (Ok None, w3, events out)).
Proof.
  cbv zeta.
  pose proof (retry_loop_requests
                (search_musicbrainz_attempt requests_get name)
                (search_musicbrainz_attempt_one_request name) 2 1 w)
    as [Hcount Hraise].
  cbv zeta in Hcount, Hraise.
  fold (retry (search_musicbrainz_attempt requests_get name)) in *.
  fold (search_musicbrainz requests_get name) in *.
  split; [exact Hcount|].
  split; [|split; [|split; [|split; [|split; [|split; [|split]]]]]].
  - apply emits_search_musicbrainz; unfold backoff_bounded; try discriminate.
    intros k ms [= <-]. apply backoff_ms_bounds.
  - intros e He. destruct (Hraise e He) as [-> Hc].
    split; [reflexivity|]. split; [exact Hc|].
    apply fetch_after_search_raises with RetryError.
    destruct (search_musicbrainz requests_get name w) as [[r s1] ev].
    unfold result in He. cbn in He. now subst r.
  - intros w1 Hout.
    pose proof (search_musicbrainz_attempt_outcome name w) as Hatt.
    assert (exists e ev1,
               search_musicbrainz_attempt requests_get name w
               = (Raise e, w1, ev1)) as (e & ev1 & Hf).
    { destruct Hout as [Hout|Hout]; rewrite Hout in Hatt.
      - eauto.
      - destruct Hatt as (res & Hrun & _ & Hbad).
        rewrite (Hbad eq_refl eq_refl) in Hrun. eauto. }
    unfold search_musicbrainz.
    rewrite (retry_after_raise _ w w1 e ev1 Hf). cbv zeta.
    rewrite events_triple, count_requests_app.
    pose proof (search_musicbrainz_attempt_one_request name w) as H1.
    rewrite Hf, events_triple in H1.
    pose proof (retry_loop_requests
                  (search_musicbrainz_attempt requests_get name)
                  (search_musicbrainz_attempt_one_request name) 1 2 w1)
      as [Hc2 _].
    cbv zeta in Hc2.
    change (count_requests (EvBackoff 2000 :: ?l)) with (count_requests l).
    split; [lia|]. apply in_or_app. right. now left.
  - intros code body w1 Hout Hcode.
    pose proof (search_musicbrainz_attempt_outcome name w) as Hatt.
    rewrite Hout in Hatt. destruct Hatt as (res & Hrun & Hnot & _).
    rewrite (Hnot Hcode) in Hrun. unfold search_musicbrainz.
    now apply retry_after_return.
  - intros a w1 ev1 H1. unfold search_musicbrainz.
    now apply retry_after_return.
  - intros e1 w1 ev1 H1. unfold search_musicbrainz.
    rewrite retry_attempts, H1. split.
    + intros a w2 ev2 H2. now rewrite H2.
    + intros e2 w2 ev2 H2. rewrite H2. split.
      * intros a w3 ev3 H3. now rewrite H3.
      * intros e3 w3 ev3 H3. now rewrite H3.
  - intros w0 w1 o. apply search_musicbrainz_attempt_raises.
  - intros o1 o2 o3 w1 w2 w3 Hr1 Hr2 Hr3 Hf1 Hf2 Hf3.
    destruct (search_musicbrainz_attempt_raises name _ _ _ Hr1 Hf1)
      as (e1 & ev1 & H1 & Hc1).
    destruct (search_musicbrainz_attempt_raises name _ _ _ Hr2 Hf2)
      as (e2 & ev2 & H2 & Hc2).
    destruct (search_musicbrainz_attempt_raises name _ _ _ Hr3 Hf3)
      as (e3 & ev3 & H3 & Hc3).
    assert (search_musicbrainz requests_get name w
            = (Raise RetryError, w3,
               ev1 ++ EvBackoff 2000 :: ev2 ++ EvBackoff 2000 :: ev3))
      as Hrun.
    { unfold search_musicbrainz. now rewrite retry_attempts, H1, H2, H3. }
    rewrite (fetch_after_search_raises name w w3 RetryError _ Hrun).
    rewrite Hrun. unfold result. rewrite state_triple, events_triple.
    cbn [fst]. split; [reflexivity|]. split; [reflexivity|].
    split; [|reflexivity].
    rewrite count_requests_app.
    change (count_requests (EvBackoff 2000 :: ?l)) with (count_requests l).
    rewrite count_requests_app.
    change (count_requests (EvBackoff 2000 :: ?l)) with (count_requests l).
    lia.
Qed.

End WikidataFacts.

Section WikidataExamples.

Import WikidataEnrichment.

Lemma settled_key_not_requeried_witness :
  process_raw_entry scripted "  Gotye "
    ([Samples.unavailable], Samples.gotye_resolved)
  = (Ok tt, ([Samples.unavailable], Samples.gotye_resolved), [])
  /\ ~ In (EvRequest (MBSearchArtist "Kimbra"))
       (events (process_raw_entry scripted "Gotye & Kimbra"
                  ([Samples.unavailable], Samples.gotye_resolved))).
Proof.
  split.
  - apply (proj1 (settled_key_not_requeried scripted "  Gotye "
                    [Samples.unavailable] Samples.gotye_resolved)
             (Build_ArtistRecord "mbid-1" (Some "Q42"%string)
                (Some "Australia / Belgium"%string))
             "Q42"%string); reflexivity.
  - apply (proj1 (proj2 (settled_key_not_requeried scripted "Gotye & Kimbra"
                           [Samples.unavailable] Samples.gotye_resolved))
             "Kimbra"%string).
    left. reflexivity.
Defined.

(** C1 as stated fails: the key is in the catalog with a resolved record,
    whose qid is null, and the artist is searched again. *)
Lemma record_without_qid_counterexample :
  Samples.gotye_without_qid !! normalize "Gotye"
  = Some (Some (Build_ArtistRecord "mbid-1" None (Some "Australia"%string)))
  /\ events (process_raw_entry scripted "Gotye"
               ([Samples.artist_answer 100; Samples.rels_answer;
                 Samples.countries_answer],
                Samples.gotye_without_qid))
     = [EvRequest (MBSearchArtist "Gotye"); EvSleep 1200;
        EvRequest (MBArtistRels "mbid-1"); EvSleep 1200;
        EvRequest (WDCountries "Q42")].
Proof. split; reflexivity. Qed.

Lemma search_musicbrainz_retries_witness :
  result (search_musicbrainz scripted "Gotye" []) = Raise RetryError
  /\ count_requests (events (search_musicbrainz scripted "Gotye" [])) = 3%nat
  /\ fetch_and_build_record scripted "Gotye" []
     = (Ok None, [],
        [EvRequest (MBSearchArtist "Gotye"); EvWarning; EvBackoff 2000;
         EvRequest (MBSearchArtist "Gotye"); EvWarning; EvBackoff 2000;
         EvRequest (MBSearchArtist "Gotye"); EvWarning]).
Proof.
  split; [reflexivity|].
  destruct (search_musicbrainz_retries scripted "Gotye" [])
    as (_ & _ & Hraise & _).
  destruct (Hraise RetryError eq_refl) as (_ & Hcount & Hfetch).
  split; [exact Hcount | exact Hfetch].
Defined.

(** C3 as stated fails: the status 503 is not retried; the call returns
    None after one request, although the next attempt would have found the
    artist. *)
Lemma error_status_not_retried_counterexample :
  search_musicbrainz scripted "Gotye"
    [Samples.unavailable; Samples.artist_answer 100]
  = (Ok None, [Samples.artist_answer 100],
     [EvRequest (MBSearchArtist "Gotye"); EvSleep 1200])
  /\ count_requests
       (events (search_musicbrainz scripted "Gotye"
                  [Samples.unavailable; Samples.artist_answer 100]))
     = 1%nat.
Proof. split; reflexivity. Qed.

(** C9 as stated fails: the request to Wikidata is followed by no sleep,
    and the search for the next artist comes right after it. *)
Lemma unpaced_requests_counterexample :
  events (process_raw_entry scripted "Gotye & Kimbra"
            ([Samples.artist_answer 40; Samples.artist_answer 100;
              Samples.rels_answer; Samples.countries_answer;
              Samples.unavailable], ∅))
  = [EvRequest (MBSearchArtist "Gotye & Kimbra"); EvSleep 1200;
     EvRequest (MBSearchArtist "Gotye"); EvSleep 1200;
     EvRequest (MBArtistRels "mbid-1"); EvSleep 1200;
     EvRequest (WDCountries "Q42");
     EvRequest (MBSearchArtist "Kimbra"); EvSleep 1200]
  /\ every_request_paced
       (events (process_raw_entry scripted "Gotye & Kimbra"
                  ([Samples.artist_answer 40; Samples.artist_answer 100;
                    Samples.rels_answer; Samples.countries_answer;
                    Samples.unavailable], ∅)))
     = false
  /\ requests_separated false
       (events (process_raw_entry scripted "Gotye & Kimbra"
                  ([Samples.artist_answer 40; Samples.artist_answer 100;
                    Samples.rels_answer; Samples.countries_answer;
                    Samples.unavailable], ∅)))
     = false.
Proof. repeat split; reflexivity. Qed.

End WikidataExamples.

Section PacingFacts.

Lemma search_phase_searches {World : Type}
    (search_recordings :
       string -> World -> MusicBrainzClient.SearchOutcome * World)
    (a t : string) (fr : MusicBrainzClient.Frame) :
  Forall (fun e => forall ms, e <> MusicBrainzClient.EvSleep ms)
    (events (MusicBrainzClient.search_phase search_recordings a t fr)).
Proof.
  destruct fr as [w r].
  unfold MusicBrainzClient.search_phase, bind.
  destruct (call_search_frame search_recordings
              (MusicBrainzClient.strict_query a t) w r) as (res & w1 & ->).
  destruct res as [recordings|e].
  - destruct (MusicBrainzClient.is_nil recordings).
    + destruct (call_search_frame search_recordings
                  (MusicBrainzClient.loose_query a t) w1 r)
        as (res & w2 & ->).
      repeat constructor; discriminate.
    + repeat constructor; discriminate.
  - repeat constructor; discriminate.
Qed.

Lemma get_wikidata_qid_from_mb_attempt_outcome {World : Type}
    (requests_get :
       WikidataEnrichment.Request ->
       World -> WikidataEnrichment.HttpOutcome * World)
    (mbid : string) (w : World) :
  match requests_get (WikidataEnrichment.MBArtistRels mbid) w with
  | (WikidataEnrichment.RequestRaises, w1) =>
      WikidataEnrichment.get_wikidata_qid_from_mb_attempt requests_get mbid w
      = (Raise NetworkError, w1,
         [WikidataEnrichment.EvRequest (WikidataEnrichment.MBArtistRels mbid);
          WikidataEnrichment.EvWarning])
  | (WikidataEnrichment.Response code body, w1) =>
      exists res,
        WikidataEnrichment.get_wikidata_qid_from_mb_attempt requests_get mbid w
        = (res, w1,
           WikidataEnrichment.EvRequest (WikidataEnrichment.MBArtistRels mbid)
             :: WikidataEnrichment.EvSleep 1200
             :: match res with
                | Ok _ => []
                | Raise _ => [WikidataEnrichment.EvWarning]
                end)
  end.
Proof.
  unfold WikidataEnrichment.get_wikidata_qid_from_mb_attempt, try_except,
    bind, WikidataEnrichment.http_get, emit.
  destruct (requests_get (WikidataEnrichment.MBArtistRels mbid) w)
    as [[|code body] w1]; [reflexivity|].
  cbn [fst snd]. destruct (code =? 200).
  - destruct body as [|data]; cbn.
    + now exists (Raise ValueError).
    + now eexists (Ok _).
  - now exists (Ok None).
Qed.

(** C9, as the code has it.  [get_track_prominence] sleeps once, for one
    second, before its first search, and not again.  An attempt of
    [search_musicbrainz] or of [get_wikidata_qid_from_mb] sleeps 1.2
    seconds right after a request that returns a response, whatever its
    status and body, and does not sleep after a request that raises.
    [enrich_from_wikidata] never sleeps. *)
Theorem pacing_sleeps :
  (forall (World : Type)
          (search_recordings :
             string -> World -> MusicBrainzClient.SearchOutcome * World)
          (a t : string) (w : World),
      exists ev,
        events (MusicBrainzClient.get_track_prominence search_recordings a t w)
        = MusicBrainzClient.EvSleep 1000 :: ev
        /\ Forall (fun e => forall ms, e <> MusicBrainzClient.EvSleep ms) ev)
  /\ (forall (World : Type)
             (requests_get :
                WikidataEnrichment.Request ->
                World -> WikidataEnrichment.HttpOutcome * World)
             (name : string) (w : World),
        let r := WikidataEnrichment.MBSearchArtist name in
        let ev := events (WikidataEnrichment.search_musicbrainz_attempt
                            requests_get name w) in
        match requests_get r w with
        | (WikidataEnrichment.RequestRaises, _) =>
            ev = [WikidataEnrichment.EvRequest r; WikidataEnrichment.EvWarning]
        | (WikidataEnrichment.Response _ _, _) =>
            ev = [WikidataEnrichment.EvRequest r;
                  WikidataEnrichment.EvSleep 1200]
            \/ ev = [WikidataEnrichment.EvRequest r;
                     WikidataEnrichment.EvSleep 1200;
                     WikidataEnrichment.EvWarning]
        end)
  /\ (forall (World : Type)
             (requests_get :
                WikidataEnrichment.Request ->
                World -> WikidataEnrichment.HttpOutcome * World)
             (mbid : string) (w : World),
        let r := WikidataEnrichment.MBArtistRels mbid in
        let ev := events (WikidataEnrichment.get_wikidata_qid_from_mb_attempt
                            requests_get mbid w) in
        match requests_get r w with
        | (WikidataEnrichment.RequestRaises, _) =>
            ev = [WikidataEnrichment.EvRequest r; WikidataEnrichment.EvWarning]
        | (WikidataEnrichment.Response _ _, _) =>
            ev = [WikidataEnrichment.EvRequest r;
                  WikidataEnrichment.EvSleep 1200]
            \/ ev = [WikidataEnrichment.EvRequest r;
                     WikidataEnrichment.EvSleep 1200;
                     WikidataEnrichment.EvWarning]
        end)
  /\ (forall (World : Type)
             (requests_get :
                WikidataEnrichment.Request ->
                World -> WikidataEnrichment.HttpOutcome * World)
             (q : string) (w : World),
        Forall no_sleep
          (events (WikidataEnrichment.enrich_from_wikidata requests_get q w))).
Proof.
  split; [|split; [|split]].
  - intros World search_recordings a t w.
    destruct (get_track_prominence_phases search_recordings a t w)
      as (res & w1 & ev & Hsearch & _ & Hres).
    pose proof (search_phase_searches search_recordings a t
                  (w, MusicBrainzClient.initial_result)) as Hev.
    rewrite Hsearch, events_triple in Hev.
    destruct res as [recordings|e].
    + destruct Hres as (res' & r' & _ & ->). rewrite events_triple.
      eexists. split; [reflexivity|]. apply Forall_app. split; [exact Hev|].
      destruct res'; repeat constructor; discriminate.
    + rewrite Hres, events_triple. eexists. split; [reflexivity|].
      apply Forall_app. split; [exact Hev|]. repeat constructor; discriminate.
  - intros World requests_get name w. cbv zeta.
    pose proof (search_musicbrainz_attempt_outcome requests_get name w) as H.
    destruct (requests_get (WikidataEnrichment.MBSearchArtist name) w)
      as [[|code body] w1].
    + now rewrite H.
    + destruct H as (res & -> & _). rewrite events_triple.
      destruct res; [now left | now right].
  - intros World requests_get mbid w. cbv zeta.
    pose proof (get_wikidata_qid_from_mb_attempt_outcome requests_get mbid w)
      as H.
    destruct (requests_get (WikidataEnrichment.MBArtistRels mbid) w)
      as [[|code body] w1].
    + now rewrite H.
    + destruct H as (res & ->). rewrite events_triple.
      destruct res; [now left | now right].
  - intros World requests_get q w.
    apply emits_enrich_from_wikidata; unfold no_sleep; discriminate.
Qed.

End PacingFacts.

(** ** The prominence extractor: searches, filter and record *)

Section ClientMoreFacts.
Import MusicBrainzClient.
Context {World : Type}.
Variable search_recordings : string -> World -> SearchOutcome * World.

Lemma call_search_outcome (q : string) (w : World) (r : ProminenceRecord) :
  call_search search_recordings q (w, r)
  = match search_recordings q w with
    | (SearchRaises, w1) => (Raise NetworkError, (w1, r), [EvSearch q])
    | (SearchReturns l, w1) => (Ok (default [] l), (w1, r), [EvSearch q])
    end.
Proof. reflexivity. Qed.

Lemma search_phase_outcome (a t : string) (w : World) (r : ProminenceRecord) :
  match search_recordings (strict_query a t) w with
  | (SearchRaises, w1) =>
      search_phase search_recordings a t (w, r)
      = (Raise NetworkError, (w1, r), [EvSearch (strict_query a t)])
  | (SearchReturns l, w1) =>
      if is_nil (default [] l)
      then exists res w2,
             search_phase search_recordings a t (w, r)
             = (res, (w2, r),
                [EvSearch (strict_query a t); EvSearch (loose_query a t)])
      else search_phase search_recordings a t (w, r)
           = (Ok (default [] l), (w1, r), [EvSearch (strict_query a t)])
  end.
Proof.
  unfold search_phase, bind. rewrite (call_search_outcome (strict_query a t)).
  destruct (search_recordings (strict_query a t) w) as [[|l] w1];
    [reflexivity|].
  destruct (is_nil (default [] l)).
  - destruct (call_search_frame search_recordings (loose_query a t) w1 r)
      as (res & w2 & ->). eauto.
  - reflexivity.
Qed.

(** X1.  A call of [get_track_prominence] issues one search or two: after
    its sleep it sends the strict query; when that search raises, nothing
    follows but the warning; when it returns recordings, no second search
    is sent; only when it returns none is the loose query sent, once.  A
    warning, if any, ends the trace. *)
Theorem get_track_prominence_searches (a t : string) (w : World) :
  exists rest,
    events (get_track_prominence search_recordings a t w)
    = EvSleep 1000 :: EvSearch (strict_query a t) :: rest
    /\ match search_recordings (strict_query a t) w with
       | (SearchRaises, _) => rest = [EvWarning]
       | (SearchReturns l, _) =>
           if is_nil (default [] l)
           then rest = [EvSearch (loose_query a t)]
                \/ rest = [EvSearch (loose_query a t); EvWarning]
           else rest = [] \/ rest = [EvWarning]
       end.
Proof.
  destruct (get_track_prominence_phases search_recordings a t w)
    as (res & w1 & ev & Hsearch & _ & Hres).
  pose proof (search_phase_outcome a t w initial_result) as Hout.
  assert (exists tail,
             events (get_track_prominence search_recordings a t w)
             = EvSleep 1000 :: ev ++ tail
             /\ (tail = [] \/ tail = [EvWarning])
             /\ (forall e, res = Raise e -> tail = [EvWarning]))
    as (tail & -> & Htail & Hraise).
  { destruct res as [recordings|e].
    - destruct Hres as (res' & r' & _ & ->). rewrite events_triple.
      eexists. split; [reflexivity|]. split; [|discriminate].
      destruct res'; [now left | now right].
    - rewrite Hres, events_triple. eexists. split; [reflexivity|].
      split; [now right | reflexivity]. }
  destruct (search_recordings (strict_query a t) w) as [[|l] w0].
  - rewrite Hsearch in Hout. injection Hout as -> _ ->.
    exists [EvWarning]. rewrite (Hraise NetworkError eq_refl).
    split; reflexivity.
  - destruct (is_nil (default [] l)).
    + destruct Hout as (res0 & w2 & Hout). rewrite Hsearch in Hout.
      injection Hout as _ _ ->. eexists. split; [reflexivity|].
      destruct Htail as [->| ->]; [now left | now right].
    + rewrite Hsearch in Hout. injection Hout as _ _ ->.
      exists tail. split; [reflexivity | exact Htail].
Qed.

(** *** The filter and the choice *)

Lemma candidate_of_sound (rel : Release) (c : Candidate) :
  candidate_of rel = Some c ->
  c_release c = rel
  /\ r_status rel = Some "Official"%string
  /\ (exists rg t,
         r_release_group rel = Some rg /\ rg_type rg = Some t
         /\ c_type c = t
         /\ mem_string t ["Album"; "Single"; "EP"]%string = true
         /\ existsb (fun s => mem_string s bad_types)
              (default [] (rg_secondary_type_list rg)) = false)
  /\ (exists d, r_date rel = Some d /\ c_date c = d
                /\ (4 <= String.length d)%nat).
Proof.
  unfold candidate_of, default, from_option, id.
  destruct (r_status rel) as [status|].
  2:{ destruct (String.eqb_spec "" "Official") as [H|_]; discriminate. }
  destruct (String.eqb_spec status "Official") as [->|_]; [|discriminate].
  cbn [negb].
  destruct (r_release_group rel) as [rg|].
  2:{ cbn. discriminate. }
  destruct (existsb _ _) eqn:Hbad; [discriminate|].
  destruct (rg_type rg) as [t|] eqn:Hrg.
  2:{ cbn. discriminate. }
  destruct (mem_string t _) eqn:Ht; [|discriminate]. cbn [negb].
  destruct (r_date rel) as [d|].
  2:{ cbn. discriminate. }
  destruct (4 <=? String.length d)%nat eqn:Hd; [|discriminate].
  intros [= <-]. cbn [c_release c_type c_date].
  split; [reflexivity|]. split; [reflexivity|]. split.
  - exists rg, t. repeat split; first [reflexivity | exact Hrg | exact Ht | exact Hbad].
  - exists d. repeat split. now apply Nat.leb_le.
Qed.

Lemma valid_releases_origin (recordings : list Recording) (c : Candidate) :
  In c (valid_releases recordings) ->
  exists rec,
    In rec recordings
    /\ In (c_release c) (default [] (release_list rec))
    /\ candidate_of (c_release c) = Some c.
Proof.
  unfold valid_releases. rewrite in_flat_map. intros (rec & Hrec & Hc).
  apply list_elem_of_In, list_elem_of_omap in Hc as (rel & Hrel & Hcand).
  apply list_elem_of_In in Hrel.
  destruct (candidate_of_sound rel c Hcand) as [<- _].
  exists rec. now repeat split.
Qed.

Lemma existsb_false {A} (f : A -> bool) (l : list A) :
  existsb f l = false -> forall x, In x l -> f x = false.
Proof.
  induction l as [|y l IH]; simpl; [intros _ x []|].
  intros H x [<-|Hx]; apply orb_false_elim in H as [Hy Hl]; auto.
Qed.

Lemma type_listed (x : string) (l : list string) :
  mem_string x l = true <-> In x l.
Proof. exact (mem_string_In x l). Qed.

Lemma choose_release_of_valid (recordings : list Recording) :
  valid_releases recordings <> [] ->
  exists c,
    choose_release recordings = Some (c_release c)
    /\ In c (valid_releases recordings).
Proof.
  intros Hne. unfold choose_release.
  destruct (best_of_valid_head (valid_releases recordings) Hne)
    as (c & Hbest & [Hin _] & _).
  exists c. split; [|exact Hin].
  destruct (valid_releases recordings); [contradiction | exact Hbest].
Qed.

(** X2.  When some release survives the filter, the release chosen is one
    of the releases returned that the filter accepts: its status is
    "Official", its primary type is Album, Single or EP, none of its
    secondary types is excluded, and its date has four characters or
    more. *)
Theorem chosen_release_is_vetted (recordings : list Recording)
    (rel : Release) :
  valid_releases recordings <> [] ->
  choose_release recordings = Some rel ->
  (exists rec, In rec recordings /\ In rel (default [] (release_list rec)))
  /\ r_status rel = Some "Official"%string
  /\ (exists rg t,
         r_release_group rel = Some rg /\ rg_type rg = Some t
         /\ In t ["Album"; "Single"; "EP"]%string
         /\ forall s, In s (default [] (rg_secondary_type_list rg)) ->
                      ~ In s bad_types)
  /\ (exists d, r_date rel = Some d /\ (4 <= String.length d)%nat).
Proof.
  intros Hne Hchoose.
  destruct (choose_release_of_valid recordings Hne) as (c & Hc & Hin).
  rewrite Hchoose in Hc. injection Hc as ->.
  destruct (valid_releases_origin recordings c Hin) as (rec & Hrec & Hrel & Hcand).
  destruct (candidate_of_sound _ c Hcand)
    as (_ & Hstatus & (rg & t & Hrg & Ht & _ & Hmem & Hbad) & (d & Hd & _ & Hlen)).
  split; [now exists rec|]. split; [exact Hstatus|]. split.
  - exists rg, t. split; [exact Hrg|]. split; [exact Ht|]. split.
    + now apply type_listed.
    + intros s Hs Hbad'. apply type_listed in Hbad'.
      pose proof (existsb_false _ _ Hbad s Hs) as Hs'. cbv beta in Hs'.
      congruence.
  - now exists d.
Qed.

(** *** The record returned *)

Lemma int_of_digits_from_nonneg (s : string) :
  forall acc, 0 <= acc -> PyStr.all_decimal s = true ->
              0 <= PyStr.int_of_digits_from acc s.
Proof.
  induction s as [|c s IH]; intros acc Hacc H; simpl in *; [exact Hacc|].
  apply andb_prop in H as [Hc Hs]. apply IH; [|exact Hs].
  unfold PyStr.is_digit in Hc. apply andb_prop in Hc as [Hlo _].
  apply Nat.leb_le in Hlo. lia.
Qed.

(** What [int] reads from the digits kept is not negative. *)
Lemma int_arg_of_digits_nonneg (digits : string) (z : Z) :
  int_arg_of_digits digits = IntLike z -> 0 <= z.
Proof.
  unfold int_arg_of_digits.
  destruct (PyStr.all_decimal digits) eqn:Hd; [|discriminate].
  destruct (_ <=? _); [|discriminate]. cbn [andb]. intros [= <-].
  now apply int_of_digits_from_nonneg.
Qed.

Lemma extract_metrics_record (rel : Release) (w : World)
    (r : ProminenceRecord) :
  let rg := default empty_release_group (r_release_group rel) in
  exists res r',
    extract_metrics rel (w, r) = (res, (w, r'), [])
    /\ release_type r'
       = (if mem_string "Compilation" (default [] (rg_secondary_type_list rg))
          then "Compilation"%string
          else default "unknown"%string (rg_type rg))
    /\ (track_number r' = track_number r
        \/ exists n, track_number r' = Some n /\ 0 <= n).
Proof.
  cbv zeta.
  unfold extract_metrics, bind, update_result, modify, ret, py_int, raise.
  simpl.
  destruct (mem_string "Compilation" _); simpl;
    (destruct (r_medium_list rel) as [[|medium ?]|]; simpl;
     [do 2 eexists; repeat split; now left
     | | do 2 eexists; repeat split; now left]);
    (destruct (m_track_list medium) as [[|track ?]|]; simpl;
     try destruct (is_empty_string _); simpl;
     try destruct (int_arg_of_digits _) as [zn|] eqn:Hzn; simpl;
     destruct (m_track_count medium) as [[zc|]|]; simpl;
     do 2 eexists; repeat split;
     first [ now left
           | right; eexists; split;
             [reflexivity | now apply int_arg_of_digits_nonneg in Hzn] ]).
Qed.

Lemma select_and_extract_record (recordings : list Recording) (w : World) :
  let r' := snd (state (select_and_extract recordings (w, initial_result))) in
  (forall n, track_number r' = Some n -> 0 <= n)
  /\ (found r' = true ->
      is_Some (release_title r') /\ is_Some (release_date r'))
  /\ (valid_releases recordings <> [] ->
      In (release_type r') ["Album"; "Single"; "EP"]%string).
Proof.
  cbv zeta. unfold select_and_extract.
  destruct recordings as [|rec0 rest].
  { cbn. split; [discriminate|]. split; [discriminate | contradiction]. }
  cbn [is_nil].
  destruct (choose_release (rec0 :: rest)) as [rel|] eqn:Hchoose.
  2:{ unfold ret. rewrite state_triple. cbn [snd].
      split; [discriminate|]. split; [discriminate|]. intros Hne.
      destruct (choose_release_of_valid _ Hne) as (c & Hc & _). congruence. }
  unfold bind.
  destruct (extract_metrics_record rel w initial_result)
    as (res0 & r0 & Hrun0 & Htype & Hnum).
  destruct (extract_metrics_frame rel w initial_result)
    as (res & r' & Hrun & Hf & Ht & Hd & _).
  rewrite Hrun in Hrun0. injection Hrun0 as <- <-. rewrite Hrun.
  assert (forall n, track_number r' = Some n -> 0 <= n) as Hn.
  { intros n Hn. destruct Hnum as [H|(n' & H & Hpos)];
      rewrite H in Hn; [discriminate | now injection Hn as <-]. }
  assert (valid_releases (rec0 :: rest) <> [] ->
          In (release_type r') ["Album"; "Single"; "EP"]%string) as Hv.
  { intros Hne.
    destruct (choose_release_of_valid _ Hne) as (c & Hc & Hin).
    rewrite Hchoose in Hc. injection Hc as ->.
    destruct (valid_releases_origin _ c Hin) as (_ & _ & _ & Hcand).
    destruct (candidate_of_sound _ c Hcand)
      as (_ & _ & (rg & t & Hrg & Hrt & _ & Hmem & Hbad) & _).
    rewrite Hrg in Htype. unfold default, from_option, id in Htype, Hbad.
    rewrite Hrt in Htype.
    destruct (mem_string "Compilation"
                match rg_secondary_type_list rg with
                | Some x => x
                | None => []
                end) eqn:Hm.
    - apply type_listed in Hm.
      pose proof (existsb_false _ _ Hbad _ Hm) as Hs'. discriminate Hs'.
    - rewrite Htype. now apply type_listed. }
  destruct res as [[]|e].
  - change (state (let (p, ev2) := update_result (set_found true) (w, r') in
                   let (r, s2) := p in (r, s2, [] ++ ev2)))
      with (w, set_found true r').
    cbn [snd set_found found release_title release_date release_type
         track_number].
    split; [exact Hn|]. split; [|exact Hv].
    intros _. rewrite Ht, Hd. split; eauto.
  - rewrite state_triple. cbn [snd].
    split; [exact Hn|]. split; [|exact Hv].
    intros _. rewrite Ht, Hd. split; eauto.
Qed.

(** X3.  The record [get_track_prominence] returns: a track number, when
    set, is not negative; a record with found=True carries a title and a
    date; and when some release of the recordings found survives the
    filter, the release type of the record is Album, Single or EP, also
    when the extraction is interrupted. *)
Theorem get_track_prominence_record (a t : string) (w : World) :
  exists r w1 ev,
    get_track_prominence search_recordings a t w = (Ok r, w1, ev)
    /\ (forall n, track_number r = Some n -> 0 <= n)
    /\ (found r = true ->
        is_Some (release_title r) /\ is_Some (release_date r))
    /\ (forall recordings fr ev',
          search_phase search_recordings a t (w, initial_result)
          = (Ok recordings, fr, ev') ->
          valid_releases recordings <> [] ->
          In (release_type r) ["Album"; "Single"; "EP"]%string).
Proof.
  destruct (get_track_prominence_phases search_recordings a t w)
    as (res & w1 & ev & Hsearch & _ & Hres).
  destruct res as [recordings|e].
  - destruct Hres as (res' & r' & Hsel & ->).
    pose proof (select_and_extract_record recordings w1) as Hrec.
    cbv zeta in Hrec. rewrite Hsel, state_triple in Hrec. cbn [snd] in Hrec.
    destruct Hrec as (Hn & Hf & Hv).
    exists r', w1. eexists. split; [reflexivity|].
    split; [exact Hn|]. split; [exact Hf|].
    intros recs fr ev' H. rewrite Hsearch in H. injection H as <- _ _.
    exact Hv.
  - rewrite Hres. exists initial_result, w1. eexists.
    split; [reflexivity|]. split; [discriminate|]. split; [discriminate|].
    intros recs fr ev' H. rewrite Hsearch in H. discriminate.
Qed.

End ClientMoreFacts.

Lemma chosen_release_is_vetted_witness :
  (exists rec,
      In rec [Samples.on_two_releases]
      /\ In Samples.album_2012
           (default [] (MusicBrainzClient.release_list rec)))
  /\ MusicBrainzClient.r_status Samples.album_2012 = Some "Official"%string
  /\ (exists rg t,
         MusicBrainzClient.r_release_group Samples.album_2012 = Some rg
         /\ MusicBrainzClient.rg_type rg = Some t
         /\ In t ["Album"; "Single"; "EP"]%string
         /\ forall s,
              In s (default [] (MusicBrainzClient.rg_secondary_type_list rg)) ->
              ~ In s MusicBrainzClient.bad_types)
  /\ (exists d,
         MusicBrainzClient.r_date Samples.album_2012 = Some d
         /\ (4 <= String.length d)%nat).
Proof.
  apply (chosen_release_is_vetted [Samples.on_two_releases]
           Samples.album_2012).
  - intros H. vm_compute in H. discriminate H.
  - reflexivity.
Defined.

(** ** The checkpointed runner: what is kept and when it is saved *)

Section RunnerMoreFacts.
Import MusicBrainzClient MusicBrainzRunner.
Context {World : Type}.
Variable search_recordings : string -> World -> SearchOutcome * World.

(** The loop adds no key but those of the work list. *)
Lemma loop_domain (tasks : list (string * string)) :
  forall (results : Cache) (processed : nat) (st : St),
    let out := loop search_recordings tasks results processed st in
    forall results',
      result out = Ok results' ->
      forall key,
        is_Some (results' !! key) ->
        is_Some (results !! key)
        \/ exists a t, In (a, t) tasks /\ key = dict_key a t.
Proof.
  induction tasks as [|[a t] tasks IH]; intros results processed st; cbv zeta.
  - intros results' [= <-] key Hkey. now left.
  - cbn [loop]. destruct (results !! dict_key a t) as [r|] eqn:Hkey.
    + intros results' Hrun key Hk.
      destruct (IH results processed st results' Hrun key Hk)
        as [H|(a' & t' & Hin & ->)]; [now left|].
      right. exists a', t'. split; [now right | reflexivity].
    + unfold bind.
      destruct (call_client_returns search_recordings a t st)
        as (r & w1 & ev1 & ->).
      assert (forall (processed' : nat) (st' : St) (results' : Cache),
                 result (loop search_recordings tasks
                           (<[dict_key a t := r]> results) processed' st')
                 = Ok results' ->
                 forall key,
                   is_Some (results' !! key) ->
                   is_Some (results !! key)
                   \/ exists a' t', In (a', t') ((a, t) :: tasks)
                                    /\ key = dict_key a' t') as Hrest.
      { intros processed' st' results' Hrun key Hk.
        destruct (IH _ processed' st' results' Hrun key Hk)
          as [H|(a' & t' & Hin & ->)].
        - destruct (decide (dict_key a t = key)) as [<-|Hne].
          + right. exists a, t. split; [now left | reflexivity].
          + left. unfold Cache in *. now rewrite lookup_insert_ne in H.
        - right. exists a', t'. split; [now right | reflexivity]. }
      destruct (save_interval <=? S processed)%nat.
      * unfold save at 1, bind. cbn [fst snd].
        specialize (Hrest 0%nat (w1, Some (<[dict_key a t := r]> results))).
        destruct (loop search_recordings tasks _ 0%nat _) as [[r2 s2] ev2].
        unfold result in *. cbn [fst] in *. exact Hrest.
      * specialize (Hrest (S processed) (w1, snd st)).
        destruct (loop search_recordings tasks _ (S processed) _)
          as [[r2 s2] ev2].
        unfold result in *. cbn [fst] in *. exact Hrest.
Qed.

(** X4.  A run of [main] of enrich_with_musicbrainz always ends, with a
    save of the cache as its last event; the cache written holds every
    entry of the file it started from, unchanged, and no key besides
    those and the composite keys of the work list. *)
Theorem main_extends_cache (tasks : list (string * string)) (w : World)
    (disk : Disk) :
  exists cache w1 ev,
    main search_recordings tasks (w, disk)
    = (Ok tt, (w1, Some cache), ev ++ [EvSave cache])
    /\ default ∅ disk ⊆ cache
    /\ (forall key,
          is_Some (cache !! key) ->
          is_Some (default ∅ disk !! key)
          \/ exists a t, In (a, t) tasks /\ key = dict_key a t).
Proof.
  unfold main, bind, load. cbn [fst snd].
  pose proof (loop_domain tasks (default ∅ disk) 0%nat (w, disk)) as Hdom.
  cbv zeta in Hdom.
  destruct (loop_covers search_recordings tasks (default ∅ disk) 0%nat (w, disk))
    as (cache & [w1 d1] & ev & Hrun & Hsub & _).
  rewrite Hrun in *. unfold save. cbn [fst snd app].
  exists cache, w1, ev. split; [reflexivity|]. split; [exact Hsub|].
  now apply Hdom.
Qed.

(** *** Checkpoints *)

Lemma unsaved_within_client (limit n : nat)
    (ev : list MusicBrainzClient.Event) (rest : list Event) :
  Forall (fun e => forall ms, e <> EvSleep ms) ev ->
  unsaved_within limit n (map EvClient ev ++ rest)
  = unsaved_within limit n rest.
Proof.
  induction 1 as [|e ev He _ IH]; [reflexivity|]. simpl.
  destruct e as [ms| |]; [now contradiction (He ms) | exact IH | exact IH].
Qed.

Lemma unsaved_within_save (limit : nat) (snapshot : Cache)
    (ev : list Event) :
  forall n, unsaved_within limit n ev = true ->
            unsaved_within limit n (ev ++ [EvSave snapshot]) = true.
Proof.
  induction ev as [|e ev IH]; intros n H; [reflexivity|].
  destruct e as [[ms| |]|s]; simpl in *; auto.
  apply andb_prop in H as [H1 H2]. rewrite H1. now apply IH.
Qed.

Lemma call_client_events (artist track : string) (st : St) :
  exists ev,
    events (call_client search_recordings artist track st)
    = EvClient (EvSleep 1000) :: map EvClient ev
    /\ Forall (fun e => forall ms, e <> EvSleep ms) ev.
Proof.
  unfold call_client.
  destruct (get_track_prominence_phases search_recordings artist track (fst st))
    as (res & w1 & ev & Hsearch & _ & Hres).
  pose proof (search_phase_searches search_recordings artist track
                (fst st, initial_result)) as Hev.
  rewrite Hsearch, events_triple in Hev.
  destruct res as [recordings|e].
  - destruct Hres as (res' & r' & _ & ->). rewrite events_triple.
    eexists. split; [reflexivity|]. apply Forall_app. split; [exact Hev|].
    destruct res'; repeat constructor; discriminate.
  - rewrite Hres, events_triple. eexists. split; [reflexivity|].
    apply Forall_app. split; [exact Hev|]. repeat constructor; discriminate.
Qed.

Lemma loop_checkpoints (tasks : list (string * string)) :
  forall (results : Cache) (processed : nat) (st : St),
    (processed < save_interval)%nat ->
    unsaved_within save_interval processed
      (events (loop search_recordings tasks results processed st)) = true.
Proof.
  induction tasks as [|[a t] tasks IH]; intros results processed st Hlt;
    [reflexivity|].
  cbn [loop]. destruct (results !! dict_key a t) as [r|]; [now apply IH|].
  unfold bind.
  destruct (call_client_events a t st) as (ev & Hev & Hquiet).
  destruct (call_client_returns search_recordings a t st)
    as (r & w1 & ev1 & Hcall).
  rewrite Hcall in *. rewrite events_triple in Hev. subst ev1.
  destruct (save_interval <=? S processed)%nat eqn:Hfull.
  - unfold save at 1, bind. cbn [fst snd].
    specialize (IH (<[dict_key a t := r]> results) 0%nat
                  (w1, Some (<[dict_key a t := r]> results))
                  ltac:(unfold save_interval; lia)).
    destruct (loop search_recordings tasks _ 0%nat _) as [[r2 s2] ev2].
    rewrite events_triple in *.
    cbn [app unsaved_within].
    replace (S processed <=? save_interval)%nat with true
      by (symmetry; apply Nat.leb_le; lia).
    cbn [andb]. rewrite unsaved_within_client by exact Hquiet.
    exact IH.
  - apply Nat.leb_gt in Hfull.
    specialize (IH (<[dict_key a t := r]> results) (S processed)
                  (w1, snd st) Hfull).
    destruct (loop search_recordings tasks _ (S processed) _)
      as [[r2 s2] ev2].
    rewrite events_triple in *.
    cbn [app unsaved_within].
    replace (S processed <=? save_interval)%nat with true
      by (symmetry; apply Nat.leb_le; lia).
    cbn [andb]. rewrite unsaved_within_client by exact Hquiet.
    exact IH.
Qed.

(** X5.  Throughout a run of [main] of enrich_with_musicbrainz, no more
    than [save_interval] (50) calls of the client are begun without the
    cache being written to the file after them. *)
Theorem main_checkpoints (tasks : list (string * string)) (w : World)
    (disk : Disk) :
  unsaved_within save_interval 0
    (events (main search_recordings tasks (w, disk))) = true.
Proof.
  unfold main, bind, load. cbn [fst snd].
  pose proof (loop_checkpoints tasks (default ∅ disk) 0%nat (w, disk)
                ltac:(unfold save_interval; lia)) as H.
  destruct (loop_covers search_recordings tasks (default ∅ disk) 0%nat (w, disk))
    as (cache & [w1 d1] & ev & Hrun & _).
  rewrite Hrun in *. rewrite events_triple in H. unfold save.
  rewrite events_triple. cbn [app]. now apply unsaved_within_save.
Qed.

End RunnerMoreFacts.

(** ** The collaboration splitter *)

Section StringFacts.
Import WikidataEnrichment.

Lemma string_of_list_ascii_app (l1 l2 : list ascii) :
  string_of_list_ascii (l1 ++ l2)
  = (string_of_list_ascii l1 ++ string_of_list_ascii l2)%string.
Proof. induction l1 as [|c l1 IH]; simpl; [reflexivity | now rewrite IH]. Qed.

Lemma list_ascii_of_string_app (s1 s2 : string) :
  list_ascii_of_string (s1 ++ s2)
  = list_ascii_of_string s1 ++ list_ascii_of_string s2.
Proof. induction s1 as [|c s1 IH]; simpl; [reflexivity | now rewrite IH]. Qed.

Lemma rev_cons (c : ascii) (s : string) :
  PyStr.rev (String c s) = (PyStr.rev s ++ String c "")%string.
Proof.
  unfold PyStr.rev. simpl. now rewrite string_of_list_ascii_app.
Qed.

Lemma rev_snoc (c : ascii) (s : string) :
  PyStr.rev (s ++ String c "") = String c (PyStr.rev s).
Proof.
  unfold PyStr.rev. rewrite list_ascii_of_string_app. simpl.
  now rewrite rev_app_distr.
Qed.

Lemma lstrip_snoc (c : ascii) (a : string) :
  PyStr.lstrip (a ++ String c "")
  = match PyStr.lstrip a with
    | EmptyString => if PyStr.is_space c then EmptyString else String c ""
    | r => (r ++ String c "")%string
    end.
Proof.
  induction a as [|d a IH]; simpl.
  - now destruct (PyStr.is_space c).
  - destruct (PyStr.is_space d); [exact IH | reflexivity].
Qed.

Lemma rstrip_cons (c : ascii) (s : string) :
  PyStr.rstrip (String c s)
  = match PyStr.rstrip s with
    | EmptyString => if PyStr.is_space c then EmptyString else String c ""
    | r => String c r
    end.
Proof.
  unfold PyStr.rstrip. rewrite rev_cons, lstrip_snoc.
  destruct (PyStr.lstrip (PyStr.rev s)) as [|d x].
  - now destruct (PyStr.is_space c).
  - change (String d x ++ String c "")%string with (String d x ++ String c "")%string.
    rewrite rev_snoc. rewrite rev_cons.
    destruct (PyStr.rev x); reflexivity.
Qed.

Lemma rstrip_empty : PyStr.rstrip "" = ""%string.
Proof. reflexivity. Qed.

Lemma lstrip_starts_clean (s : string) :
  starts_clean s = true -> PyStr.lstrip s = s.
Proof. destruct s as [|c s]; simpl; [reflexivity|]. now destruct (PyStr.is_space c). Qed.

Lemma starts_clean_lstrip (s : string) : starts_clean (PyStr.lstrip s) = true.
Proof.
  induction s as [|c s IH]; simpl; [reflexivity|].
  destruct (PyStr.is_space c) eqn:Hc; [exact IH|]. simpl. now rewrite Hc.
Qed.

Lemma starts_clean_rstrip (s : string) :
  starts_clean s = true -> starts_clean (PyStr.rstrip s) = true.
Proof.
  destruct s as [|c s]; [reflexivity|]. simpl. intros Hc.
  rewrite rstrip_cons. destruct (PyStr.rstrip s); simpl; [|exact Hc].
  destruct (PyStr.is_space c) eqn:E; [reflexivity|]. simpl. now rewrite E.
Qed.

Lemma ends_clean_rstrip (s : string) :
  forall b, PyStr.rstrip s = ""%string \/ ends_clean b (PyStr.rstrip s) = true.
Proof.
  induction s as [|c s IH]; intros b; [now left|].
  rewrite rstrip_cons. destruct (PyStr.rstrip s) as [|d r] eqn:Hr.
  - destruct (PyStr.is_space c) eqn:Hc; [now left|]. right. simpl. now rewrite Hc.
  - right. change (ends_clean b (String c (String d r)))
      with (ends_clean (PyStr.is_space c) (String d r)).
    destruct (IH (PyStr.is_space c)) as [H|H]; [discriminate | exact H].
Qed.

Lemma tidy_from_weaken (s : string) :
  tidy_from true s = true -> tidy_from false s = true.
Proof.
  destruct s as [|c s]; simpl; [discriminate|].
  destruct (PyStr.is_space c); [discriminate | auto].
Qed.

Lemma collapse_from_tidy (s : string) :
  forall b, tidy_from b s = true -> PyStr.collapse_from b s = s.
Proof.
  induction s as [|c s IH]; intros b H; simpl in *; [reflexivity|].
  destruct (PyStr.is_space c).
  - apply andb_prop in H as [H Hs]. apply andb_prop in H as [Hb Hc].
    destruct b; [discriminate|]. apply Ascii.eqb_eq in Hc. subst c.
    now rewrite (IH true Hs).
  - now rewrite (IH false H).
Qed.

Lemma rstrip_tidy (s : string) :
  forall b, tidy_from b s = true -> PyStr.rstrip s = s.
Proof.
  induction s as [|c s IH]; intros b H; [reflexivity|].
  rewrite rstrip_cons. simpl in H.
  destruct (PyStr.is_space c) eqn:Hc.
  - apply andb_prop in H as [_ Hs]. rewrite (IH true Hs).
    destruct s; [discriminate | reflexivity].
  - rewrite (IH false H). now destruct s.
Qed.

Lemma strip_tidy (s : string) :
  tidy_from true s = true -> PyStr.strip s = s.
Proof.
  intros H. unfold PyStr.strip.
  rewrite lstrip_starts_clean.
  - now apply rstrip_tidy with true.
  - destruct s as [|c s]; [reflexivity|]. simpl in *.
    now destruct (PyStr.is_space c).
Qed.

Lemma tidy_collapse_from (s : string) :
  forall b, ends_clean b s = true ->
            tidy_from b (PyStr.collapse_from b s) = true.
Proof.
  induction s as [|c s IH]; intros b H; simpl in *; [exact H|].
  destruct (PyStr.is_space c) eqn:Hc.
  - destruct b; [now apply IH|].
    simpl. now rewrite (IH true H).
  - simpl. rewrite Hc. now apply IH.
Qed.

Lemma collapse_from_starts_clean (s : string) :
  starts_clean s = true ->
  PyStr.collapse_from false s = PyStr.collapse_from true s.
Proof.
  destruct s as [|c s]; [reflexivity|]. simpl.
  now destruct (PyStr.is_space c).
Qed.

(** The normal form: empty, or single-spaced with no space at either end. *)
Lemma normalize_tidy (s : string) :
  normalize s = ""%string \/ tidy_from true (normalize s) = true.
Proof.
  unfold normalize, PyStr.collapse_ws, PyStr.strip.
  pose proof (starts_clean_rstrip _ (starts_clean_lstrip s)) as Hstart.
  destruct (ends_clean_rstrip (PyStr.lstrip s) true) as [->|Hend];
    [now left|].
  right. rewrite (collapse_from_starts_clean _ Hstart).
  now apply tidy_collapse_from.
Qed.

Lemma normalize_of_tidy (s : string) :
  tidy_from true s = true -> normalize s = s.
Proof.
  intros H. unfold normalize, PyStr.collapse_ws. rewrite (strip_tidy s H).
  apply collapse_from_tidy. now apply tidy_from_weaken.
Qed.

Lemma normalize_idempotent (s : string) :
  normalize (normalize s) = normalize s.
Proof.
  destruct (normalize_tidy s) as [->|H]; [reflexivity|].
  now apply normalize_of_tidy.
Qed.

End StringFacts.

Section SplitFacts.
Import WikidataEnrichment.

Lemma clean_parts_fresh (parts : list string) :
  forall (seen : gset string) (t : string),
    In t (clean_parts parts seen) -> PyStr.lower t ∉ seen.
Proof.
  induction parts as [|p rest IH]; intros seen t; simpl; [contradiction|].
  destruct (is_empty_string p); [apply IH|].
  destruct (bool_decide_reflect (PyStr.lower (normalize p) ∈ seen)) as [Hin|Hout];
    [apply IH|].
  intros [<-|Ht]; [exact Hout|].
  specialize (IH _ _ Ht). set_solver.
Qed.

Lemma clean_parts_distinct (parts : list string) :
  forall seen : gset string,
    List.NoDup (map PyStr.lower (clean_parts parts seen)).
Proof.
  induction parts as [|p rest IH]; intros seen; simpl; [constructor|].
  destruct (is_empty_string p); [apply IH|].
  destruct (bool_decide_reflect (PyStr.lower (normalize p) ∈ seen)) as [Hin|Hout];
    [apply IH|].
  simpl. constructor; [|apply IH].
  intros Hdup. apply in_map_iff in Hdup as (t & Heq & Ht).
  apply clean_parts_fresh in Ht. rewrite Heq in Ht. set_solver.
Qed.

Lemma clean_parts_normal (parts : list string) :
  forall seen : gset string,
    Forall (fun t => normalize t = t) (clean_parts parts seen).
Proof.
  induction parts as [|p rest IH]; intros seen; simpl; [constructor|].
  destruct (is_empty_string p); [apply IH|].
  destruct (bool_decide (PyStr.lower (normalize p) ∈ seen)); [apply IH|].
  constructor; [apply normalize_idempotent | apply IH].
Qed.

(** X6.  The tokens [split_collaborations] returns are pairwise distinct,
    also when letter case is ignored. *)
Theorem split_collaborations_distinct (raw_string : string) :
  List.NoDup (map PyStr.lower (split_collaborations raw_string)).
Proof.
  unfold split_collaborations.
  destruct (is_empty_string (PyStr.strip raw_string)); [constructor|].
  apply clean_parts_distinct.
Qed.

(** X7.  Every token [split_collaborations] returns is in the normal form
    of a catalog key: stripping it and collapsing its whitespace again
    leaves it as it is. *)
Theorem split_collaborations_normal_form (raw_string : string) :
  Forall (fun token => normalize token = token)
    (split_collaborations raw_string).
Proof.
  unfold split_collaborations.
  destruct (is_empty_string (PyStr.strip raw_string)); [constructor|].
  apply clean_parts_normal.
Qed.

Lemma tidy_no_space (s : string) :
  no_space s = true -> tidy_from false s = true.
Proof.
  induction s as [|c s IH]; simpl; [reflexivity|].
  destruct (PyStr.is_space c); [discriminate | exact IH].
Qed.

Lemma tidy_no_space_nonempty (s : string) :
  s <> ""%string -> no_space s = true -> tidy_from true s = true.
Proof.
  destruct s as [|c s]; [contradiction|]. intros _. simpl.
  destruct (PyStr.is_space c); [discriminate | apply tidy_no_space].
Qed.

Lemma contains_needs_space (s : string) :
  no_space s = true -> PyStr.contains " / " s = false.
Proof.
  induction s as [|c s IH]; [reflexivity|].
  simpl no_space. intros H. apply andb_prop in H as [Hc Hs].
  cbn [PyStr.contains PyStr.strip_prefix].
  destruct (Ascii.eqb_spec " " c) as [<-|Hne]; [discriminate|].
  now apply IH.
Qed.

Lemma first_match_needs_space (c : ascii) (t : string) :
  PyStr.is_space c = false -> first_match separators (String c t) = None.
Proof.
  intros Hc. unfold separators, first_match, match_alternative.
  cbn [span_spaces]. now rewrite Hc.
Qed.

Lemma split_go_no_space (s : string) :
  forall cur : list ascii,
    no_space s = true ->
    PyStr.split_go (first_match separators) s 0 cur
    = [string_of_list_ascii (List.rev cur ++ list_ascii_of_string s)].
Proof.
  induction s as [|c s IH]; intros cur H.
  - simpl. now rewrite app_nil_r.
  - simpl no_space in H. apply andb_prop in H as [Hc Hs].
    apply negb_true_iff in Hc.
    cbn [PyStr.split_go]. rewrite (first_match_needs_space c s Hc).
    rewrite (IH _ Hs). simpl. now rewrite <- app_assoc.
Qed.

Lemma re_split_no_space (s : string) :
  no_space s = true -> re_split s = [s].
Proof.
  intros H. unfold re_split, PyStr.split_with.
  rewrite (split_go_no_space s [] H). simpl.
  now rewrite string_of_list_ascii_of_string.
Qed.

(** X8.  A non-empty name without whitespace is never split, whatever
    slashes, ampersands or separator words it holds: "AC/DC" is one
    token. *)
Theorem split_collaborations_unspaced (name : string) :
  name <> ""%string -> no_space name = true ->
  split_collaborations name = [name].
Proof.
  intros Hne Hns. pose proof (tidy_no_space_nonempty name Hne Hns) as Ht.
  unfold split_collaborations.
  rewrite (strip_tidy name Ht), (contains_needs_space name Hns),
    (re_split_no_space name Hns).
  destruct name as [|c s]; [contradiction|].
  cbn [is_empty_string clean_parts].
  rewrite (normalize_of_tidy _ Ht).
  now rewrite bool_decide_eq_false_2 by set_solver.
Qed.

Lemma split_collaborations_unspaced_witness :
  split_collaborations "AC/DC" = ["AC/DC"%string].
Proof.
  apply (split_collaborations_unspaced "AC/DC"); [discriminate | reflexivity].
Defined.

Lemma lstrip_all_space (s : string) :
  all_space s = true -> PyStr.lstrip s = ""%string.
Proof.
  induction s as [|c s IH]; simpl; [reflexivity|].
  destruct (PyStr.is_space c); [exact IH | discriminate].
Qed.

(** X9.  A string of whitespace only, the empty string included, has no
    token. *)
Theorem split_collaborations_blank (raw_string : string) :
  all_space raw_string = true -> split_collaborations raw_string = [].
Proof.
  intros H. unfold split_collaborations, PyStr.strip.
  now rewrite (lstrip_all_space _ H).
Qed.

Lemma split_collaborations_blank_witness :
  split_collaborations "   " = [].
Proof. apply (split_collaborations_blank "   "). reflexivity. Defined.

End SplitFacts.

(** ** The Wikidata pipeline: clients, records and catalog *)

Section MoreEffFacts.
Context {S E : Type}.

Lemma starts_with_bind {A B} (e : E) (c : M S E A) (k : A -> M S E B) :
  starts_with e c -> starts_with e (bind c k).
Proof.
  intros Hc s. destruct (Hc s) as [ev Hev]. unfold bind, events in *.
  destruct (c s) as [[[a|e1] s1] ev1]; cbn in *; subst ev1.
  - destruct (k a s1) as [[r s2] ev2]. cbn. eauto.
  - eauto.
Qed.

Lemma starts_with_try_except {A} (e : E) (c : M S E A)
    (h : exn -> M S E A) :
  starts_with e c -> starts_with e (try_except c h).
Proof.
  intros Hc s. destruct (Hc s) as [ev Hev]. unfold try_except, events in *.
  destruct (c s) as [[[a|e1] s1] ev1]; cbn in *; subst ev1.
  - eauto.
  - destruct (h e1 s1) as [[r s2] ev2]. cbn. eauto.
Qed.

End MoreEffFacts.

Section WikidataClientFacts.
Import WikidataEnrichment.
Context {World : Type}.
Variable requests_get : Request -> World -> HttpOutcome * World.

Lemma at_most_ret {S A} (a : A) : requests_at_most (S := S) 0 (ret a).
Proof. intros s. reflexivity. Qed.

Lemma at_most_weaken {S A} (n m : nat) (c : M S Event A) :
  (n <= m)%nat -> requests_at_most n c -> requests_at_most m c.
Proof. intros Hle Hc s. specialize (Hc s). lia. Qed.

Lemma at_most_bind {S A B} (n m : nat) (c : M S Event A)
    (k : A -> M S Event B) :
  requests_at_most n c -> (forall a, requests_at_most m (k a)) ->
  requests_at_most (n + m) (bind c k).
Proof.
  intros Hc Hk s. specialize (Hc s). unfold bind.
  destruct (c s) as [[[a|e1] s1] ev1]; rewrite events_triple in Hc.
  - specialize (Hk a s1). destruct (k a s1) as [[r s2] ev2].
    rewrite events_triple in *. rewrite count_requests_app. lia.
  - rewrite events_triple. lia.
Qed.

Lemma at_most_caught {S A} (n : nat) (c : M S Event A) (a0 : A) :
  requests_at_most n c -> requests_at_most n (try_except c (fun _ => ret a0)).
Proof.
  intros Hc s. specialize (Hc s). unfold try_except, ret.
  destruct (c s) as [[[a|e1] s1] ev1]; rewrite events_triple in *;
    [exact Hc|].
  now rewrite app_nil_r.
Qed.

Lemma take_digits_all_digits (s : string) :
  all_digits (take_digits s) = true.
Proof.
  induction s as [|c s IH]; simpl; [reflexivity|].
  destruct (PyStr.is_digit c) eqn:Hc; [|reflexivity]. simpl. now rewrite Hc.
Qed.

Lemma take_digits_prefix (s : string) :
  exists rest, PyStr.strip_prefix (take_digits s) s = Some rest.
Proof.
  induction s as [|c s IH]; simpl; [eauto|].
  destruct (PyStr.is_digit c); simpl; [|eauto].
  now rewrite Ascii.eqb_refl.
Qed.

Lemma contains_tail (sub : string) (c : ascii) (s : string) :
  PyStr.contains sub s = true -> PyStr.contains sub (String c s) = true.
Proof.
  intros H. cbn [PyStr.contains].
  destruct (PyStr.strip_prefix sub (String c s)); [reflexivity | exact H].
Qed.

Lemma contains_head (sub s rest : string) :
  PyStr.strip_prefix sub s = Some rest -> PyStr.contains sub s = true.
Proof. intros H. destruct s; cbn [PyStr.contains]; now rewrite H. Qed.

Lemma strip_prefix_same_head (a : ascii) (p s : string) :
  PyStr.strip_prefix (String a p) (String a s) = PyStr.strip_prefix p s.
Proof. simpl. now rewrite Ascii.eqb_refl. Qed.

(** A match of [Q\d+] is "Q" and digits, and a piece of the text. *)
Lemma search_qid_is_qid (url q : string) :
  search_qid url = Some q ->
  is_qid q = true /\ PyStr.contains q url = true.
Proof.
  induction url as [|c s IH]; [discriminate|]. cbn [search_qid].
  destruct (Ascii.eqb_spec c "Q") as [->|Hc].
  - pose proof (take_digits_all_digits s) as Hd.
    destruct (take_digits_prefix s) as [rest Hp].
    destruct (take_digits s) as [|d ds].
    + intros H. destruct (IH H) as [Hq Hin].
      split; [exact Hq | now apply contains_tail].
    + intros [= <-]. split; [exact Hd|].
      apply contains_head with rest. now rewrite strip_prefix_same_head.
  - intros H. destruct (IH H) as [Hq Hin].
    split; [exact Hq | now apply contains_tail].
Qed.

Lemma find_wikidata_qid_is_qid (rels : list RelJson) (q : string) :
  find_wikidata_qid rels = Some q -> is_qid q = true.
Proof.
  induction rels as [|rel rest IH]; [discriminate|]. cbn [find_wikidata_qid].
  destruct (rel_type rel) as [t|]; [|exact IH].
  destruct (String.eqb t "wikidata"); [|exact IH].
  destruct (search_qid _) as [q'|] eqn:Hs; [|exact IH].
  intros [= ->]. now apply search_qid_is_qid in Hs.
Qed.

(** X10.  The identifier the loop over the relations returns, if any, is
    "Q" followed by digits, and it is a piece of the URL of a relation of
    the list whose type is "wikidata". *)
Theorem find_wikidata_qid_sound (rels : list RelJson) (q : string) :
  find_wikidata_qid rels = Some q ->
  is_qid q = true
  /\ exists rel u url,
       In rel rels
       /\ rel_type rel = Some "wikidata"%string
       /\ rel_url rel = Some u /\ resource u = Some url
       /\ PyStr.contains q url = true.
Proof.
  induction rels as [|rel rest IH]; [discriminate|]. cbn [find_wikidata_qid].
  assert (find_wikidata_qid rest = Some q ->
          is_qid q = true
          /\ exists rel0 u url,
               In rel0 (rel :: rest)
               /\ rel_type rel0 = Some "wikidata"%string
               /\ rel_url rel0 = Some u /\ resource u = Some url
               /\ PyStr.contains q url = true) as Hrest.
  { intros H. destruct (IH H) as (Hq & rel0 & u & url & Hin & Hrel).
    split; [exact Hq|]. exists rel0, u, url. split; [now right | exact Hrel]. }
  destruct (rel_type rel) as [t|] eqn:Ht; [|exact Hrest].
  destruct (String.eqb_spec t "wikidata") as [->|Hne]; [|exact Hrest].
  destruct (rel_url rel) as [u|] eqn:Hu.
  - destruct (resource u) as [url|] eqn:Hr; unfold default, from_option, id.
    + destruct (search_qid url) as [q'|] eqn:Hs; [|exact Hrest].
      intros [= ->]. destruct (search_qid_is_qid url q Hs) as [Hq Hin].
      split; [exact Hq|]. exists rel, u, url. repeat split; auto. now left.
    + cbn [search_qid]. exact Hrest.
  - cbn [search_qid]. exact Hrest.
Qed.

End WikidataClientFacts.

Section WikidataRetryFacts.
Import WikidataEnrichment.
Context {World : Type}.
Variable requests_get : Request -> World -> HttpOutcome * World.

Lemma retry_loop_result {A} (P : A -> Prop) (f : M World Event A) :
  (forall w a, result (f w) = Ok a -> P a) ->
  forall (retries_left attempt_number : nat) (w : World) (a : A),
    result (retry_loop retries_left attempt_number f w) = Ok a -> P a.
Proof.
  intros Hf. induction retries_left as [|k IH]; intros n w a;
    cbn [retry_loop]; unfold try_except; specialize (Hf w);
    destruct (f w) as [[[a1|e] w1] ev1]; unfold result in *; cbn [fst] in *.
  - apply Hf.
  - discriminate.
  - apply Hf.
  - unfold bind, emit. specialize (IH (S n) w1 a).
    destruct (retry_loop k (S n) f w1) as [[r s2] ev2]. exact IH.
Qed.

Lemma starts_with_retry_loop {A} (e : Event) (f : M World Event A)
    (retries_left attempt_number : nat) :
  starts_with e f -> starts_with e (retry_loop retries_left attempt_number f).
Proof.
  intros Hf. destruct retries_left; cbn [retry_loop];
    now apply starts_with_try_except.
Qed.

(** *** [get_wikidata_qid_from_mb] *)

Lemma get_wikidata_qid_from_mb_attempt_one_request (mbid : string) (w : World) :
  count_requests (events (get_wikidata_qid_from_mb_attempt requests_get mbid w))
  = 1%nat.
Proof.
  pose proof (get_wikidata_qid_from_mb_attempt_outcome requests_get mbid w) as H.
  destruct (requests_get (MBArtistRels mbid) w) as [[|code body] w1].
  - now rewrite H.
  - destruct H as (res & ->). now destruct res.
Qed.

Lemma get_wikidata_qid_from_mb_attempt_result (mbid : string) (w : World)
    (q : option string) :
  result (get_wikidata_qid_from_mb_attempt requests_get mbid w) = Ok q ->
  forall q', q = Some q' -> is_qid q' = true.
Proof.
  unfold get_wikidata_qid_from_mb_attempt, try_except, bind, http_get, emit.
  destruct (requests_get (MBArtistRels mbid) w) as [[|code body] w1];
    [discriminate|].
  cbn [fst snd]. destruct (code =? 200).
  - destruct body as [|data]; cbn; [discriminate|].
    intros [= <-] q' Hq. now apply find_wikidata_qid_is_qid in Hq.
  - cbn. intros [= <-] q' [=].
Qed.

Lemma get_wikidata_qid_from_mb_attempt_status (mbid : string) (w w1 : World)
    (code : Z) (body : Body) :
  requests_get (MBArtistRels mbid) w = (Response code body, w1) ->
  code <> 200 ->
  get_wikidata_qid_from_mb_attempt requests_get mbid w
  = (Ok None, w1, [EvRequest (MBArtistRels mbid); EvSleep 1200]).
Proof.
  intros Hget Hcode.
  unfold get_wikidata_qid_from_mb_attempt, try_except, bind, http_get, emit.
  rewrite Hget. cbn [fst snd].
  destruct (Z.eqb_spec code 200) as [->|_]; [contradiction | reflexivity].
Qed.

Lemma get_wikidata_qid_from_mb_is_qid (mbid : string) (w : World)
    (q : string) :
  result (get_wikidata_qid_from_mb requests_get mbid w) = Ok (Some q) ->
  is_qid q = true.
Proof.
  intros Hq.
  apply (retry_loop_result
           (fun r => forall q', r = Some q' -> is_qid q' = true)
           (get_wikidata_qid_from_mb_attempt requests_get mbid)
           (get_wikidata_qid_from_mb_attempt_result mbid)
           2%nat 1%nat w (Some q) Hq q eq_refl).
Qed.

(** X11.  A call of [get_wikidata_qid_from_mb] issues between one and
    three requests; it raises only RetryError, after the third; an
    identifier it returns is "Q" followed by digits; and a response whose
    status is not 200 is not retried: the call returns None after that
    one request and its sleep. *)
Theorem get_wikidata_qid_from_mb_retries (mbid : string) (w : World) :
  let out := get_wikidata_qid_from_mb requests_get mbid w in
  (1 <= count_requests (events out) <= 3)%nat
  /\ (forall e,
        result out = Raise e ->
        e = RetryError /\ count_requests (events out) = 3%nat)
  /\ (forall q, result out = Ok (Some q) -> is_qid q = true)
  /\ (forall code body w1,
        requests_get (MBArtistRels mbid) w = (Response code body, w1) ->
        code <> 200 ->
        out = (Ok None, w1, [EvRequest (MBArtistRels mbid); EvSleep 1200])).
Proof.
  cbv zeta.
  pose proof (retry_loop_requests
                (get_wikidata_qid_from_mb_attempt requests_get mbid)
                (get_wikidata_qid_from_mb_attempt_one_request mbid) 2 1 w)
    as [Hcount Hraise].
  cbv zeta in Hcount, Hraise.
  fold (retry (get_wikidata_qid_from_mb_attempt requests_get mbid)) in *.
  fold (get_wikidata_qid_from_mb requests_get mbid) in *.
  split; [exact Hcount|]. split; [exact Hraise|]. split.
  - intros q. apply get_wikidata_qid_from_mb_is_qid.
  - intros code body w1 Hget Hcode. unfold get_wikidata_qid_from_mb.
    apply retry_after_return.
    now apply get_wikidata_qid_from_mb_attempt_status with code body.
Qed.

(** *** [enrich_from_wikidata] *)

Lemma enrich_from_wikidata_attempt_outcome (q : string) (w : World) :
  match requests_get (WDCountries q) w with
  | (RequestRaises, w1) =>
      enrich_from_wikidata_attempt requests_get q w
      = (Raise NetworkError, w1, [EvRequest (WDCountries q); EvWarning])
  | (Response code body, w1) =>
      exists res,
        enrich_from_wikidata_attempt requests_get q w
        = (res, w1,
           EvRequest (WDCountries q)
             :: match res with Ok _ => [] | Raise _ => [EvWarning] end)
        /\ (code <> 200 -> res = Ok [])
        /\ (code = 200 ->
            res = match body with
                  | BadBody => Raise ValueError
                  | Json data =>
                      Ok (country_values (default [] (bindings data)))
                  end)
  end.
Proof.
  unfold enrich_from_wikidata_attempt, try_except, bind, http_get, emit.
  destruct (requests_get (WDCountries q) w) as [[|code body] w1];
    [reflexivity|].
  cbn [fst snd]. destruct (Z.eqb_spec code 200) as [->|Hcode].
  - destruct body as [|data]; cbn.
    + exists (Raise ValueError). repeat split. intros H. now contradiction H.
    + eexists (Ok _). repeat split. intros H. now contradiction H.
  - exists (Ok []). cbn. repeat split. intros H. contradiction.
Qed.

Lemma enrich_from_wikidata_attempt_one_request (q : string) (w : World) :
  count_requests (events (enrich_from_wikidata_attempt requests_get q w))
  = 1%nat.
Proof.
  pose proof (enrich_from_wikidata_attempt_outcome q w) as H.
  destruct (requests_get (WDCountries q) w) as [[|code body] w1].
  - now rewrite H.
  - destruct H as (res & -> & _). now destruct res.
Qed.

(** X12.  A call of [enrich_from_wikidata] issues between one and three
    requests and raises only RetryError, after the third.  A response
    whose status is not 200 gives the empty list after that one request;
    a response 200 with a decodable body gives the values of its
    bindings, after one request. *)
Theorem enrich_from_wikidata_retries (q : string) (w : World) :
  let out := enrich_from_wikidata requests_get q w in
  (1 <= count_requests (events out) <= 3)%nat
  /\ (forall e,
        result out = Raise e ->
        e = RetryError /\ count_requests (events out) = 3%nat)
  /\ (forall code body w1,
        requests_get (WDCountries q) w = (Response code body, w1) ->
        code <> 200 ->
        out = (Ok [], w1, [EvRequest (WDCountries q)]))
  /\ (forall data w1,
        requests_get (WDCountries q) w = (Response 200 (Json data), w1) ->
        out = (Ok (country_values (default [] (bindings data))), w1,
               [EvRequest (WDCountries q)])).
Proof.
  cbv zeta.
  pose proof (retry_loop_requests
                (enrich_from_wikidata_attempt requests_get q)
                (enrich_from_wikidata_attempt_one_request q) 2 1 w)
    as [Hcount Hraise].
  cbv zeta in Hcount, Hraise.
  fold (retry (enrich_from_wikidata_attempt requests_get q)) in *.
  fold (enrich_from_wikidata requests_get q) in *.
  split; [exact Hcount|]. split; [exact Hraise|].
  pose proof (enrich_from_wikidata_attempt_outcome q w) as Hatt.
  split.
  - intros code body w1 Hget Hcode. rewrite Hget in Hatt.
    destruct Hatt as (res & Hrun & Hnot & _). rewrite (Hnot Hcode) in Hrun.
    unfold enrich_from_wikidata. now apply retry_after_return.
  - intros data w1 Hget. rewrite Hget in Hatt.
    destruct Hatt as (res & Hrun & _ & Hok). rewrite (Hok eq_refl) in Hrun.
    unfold enrich_from_wikidata. now apply retry_after_return.
Qed.

End WikidataRetryFacts.

Section FetchFacts.
Import WikidataEnrichment.
Context {World : Type}.
Variable requests_get : Request -> World -> HttpOutcome * World.

Lemma strip_all_outcome (l : list (option string)) (w : World) :
  exists r,
    strip_all l w = (r, w, [])
    /\ (forall e, r = Raise e -> e = AttributeError /\ In None l).
Proof.
  induction l as [|[c|] l IH]; cbn [strip_all].
  - exists (Ok []). split; [reflexivity|]. intros e [=].
  - destruct IH as (r & Hrun & Hr). unfold bind. rewrite Hrun.
    destruct r as [stripped|e].
    + eexists (Ok _). split; [reflexivity|]. intros e [=].
    + exists (Raise e). split; [reflexivity|]. intros e' [= <-].
      destruct (Hr e eq_refl) as [-> Hin]. split; [reflexivity | now right].
  - exists (Raise AttributeError). split; [reflexivity|].
    intros e [= <-]. split; [reflexivity | now left].
Qed.

Lemma starts_with_search_musicbrainz (name : string) :
  starts_with (EvRequest (MBSearchArtist name))
    (search_musicbrainz requests_get name).
Proof.
  apply starts_with_retry_loop. intros w.
  pose proof (search_musicbrainz_attempt_outcome requests_get name w) as H.
  destruct (requests_get (MBSearchArtist name) w) as [[|code body] w1].
  - rewrite H. eauto.
  - destruct H as (res & -> & _). eauto.
Qed.

Lemma starts_with_enrich_from_wikidata (q : string) :
  starts_with (EvRequest (WDCountries q))
    (enrich_from_wikidata requests_get q).
Proof.
  apply starts_with_retry_loop. intros w.
  pose proof (enrich_from_wikidata_attempt_outcome requests_get q w) as H.
  destruct (requests_get (WDCountries q) w) as [[|code body] w1].
  - rewrite H. eauto.
  - destruct H as (res & -> & _). eauto.
Qed.

(** The last step of [fetch_and_build_record]: the nationality and the
    record. *)
Lemma build_record_outcome (hit : MBHit) (q : option string)
    (all_countries : list (option string)) (w : World) :
  exists r,
    (final_nationalities <-
       match all_countries with
       | [] => ret None
       | _ :: _ =>
           stripped <- strip_all all_countries ;;
           ret (Some (PyStr.join " / " (unique_in_order stripped ∅)))
       end ;;
     ret (Some {| mbid := hit_mbid hit; qid := q;
                  nationality := final_nationalities |}))%eff w
    = (r, w, [])
    /\ ((r = Raise AttributeError /\ In None all_countries)
        \/ exists nat,
             r = Ok (Some {| mbid := hit_mbid hit; qid := q;
                             nationality := nat |})).
Proof.
  unfold bind at 1.
  destruct all_countries as [|c0 l0].
  - unfold ret. eexists. split; [reflexivity|]. right. eauto.
  - unfold bind at 1.
    destruct (strip_all_outcome (c0 :: l0) w) as (r & -> & Hr).
    destruct r as [stripped|e]; unfold ret.
    + eexists. split; [reflexivity|]. right. eauto.
    + eexists. split; [reflexivity|]. left.
      destruct (Hr e eq_refl) as [-> Hin]. split; [reflexivity | exact Hin].
Qed.

Lemma mb_country_not_null (mb_country : option string) :
  ~ In None (match mb_country with
             | Some c => if is_empty_string c then [] else [Some c]
             | None => []
             end).
Proof.
  destruct mb_country as [c|]; [|simpl; tauto].
  destruct (is_empty_string c); simpl; [tauto|].
  intros [H|[]]. discriminate.
Qed.

(** What follows the lookup of the identifier. *)
Lemma record_after_lookup (hit : MBHit) (qid0 : option string) (w : World) :
  exists r w3 ev,
    (wd_countries <-
       match qid0 with
       | Some q =>
           if is_empty_string q then ret []
           else try_except (enrich_from_wikidata requests_get q)
                  (fun _ => ret [])
       | None => ret []
       end ;;
     final_nationalities <-
       match
         match hit_mb_country hit with
         | Some c => if is_empty_string c then [] else [Some c]
         | None => []
         end ++ wd_countries
       with
       | [] => ret None
       | _ :: _ =>
           stripped <-
             strip_all
               (match hit_mb_country hit with
                | Some c => if is_empty_string c then [] else [Some c]
                | None => []
                end ++ wd_countries) ;;
           ret (Some (PyStr.join " / " (unique_in_order stripped ∅)))
       end ;;
     ret (Some {| mbid := hit_mbid hit; qid := qid0;
                  nationality := final_nationalities |}))%eff w
    = (r, w3, ev)
    /\ ((r = Raise AttributeError
         /\ exists q', qid0 = Some q'
                       /\ In (EvRequest (WDCountries q')) ev)
        \/ exists nat,
             r = Ok (Some {| mbid := hit_mbid hit; qid := qid0;
                             nationality := nat |})).
Proof.
  assert (forall w3 : World,
             exists r,
               (final_nationalities <-
                  match
                    match hit_mb_country hit with
                    | Some c => if is_empty_string c then [] else [Some c]
                    | None => []
                    end ++ []
                  with
                  | [] => ret None
                  | _ :: _ =>
                      stripped <-
                        strip_all
                          (match hit_mb_country hit with
                           | Some c =>
                               if is_empty_string c then [] else [Some c]
                           | None => []
                           end ++ []) ;;
                      ret (Some (PyStr.join " / " (unique_in_order stripped ∅)))
                  end ;;
                ret (Some {| mbid := hit_mbid hit; qid := qid0;
                             nationality := final_nationalities |}))%eff w3
               = (r, w3, [])
               /\ exists nat,
                    r = Ok (Some {| mbid := hit_mbid hit; qid := qid0;
                                    nationality := nat |})) as Hplain.
  { intros w3.
    destruct (build_record_outcome hit qid0
                (match hit_mb_country hit with
                 | Some c => if is_empty_string c then [] else [Some c]
                 | None => []
                 end ++ []) w3) as (r & Hrun & [[_ Hin]|Hok]).
    - rewrite app_nil_r in Hin. now apply mb_country_not_null in Hin.
    - exists r. split; assumption. }
  unfold bind at 1.
  destruct qid0 as [q|].
  2:{ unfold ret at 1. destruct (Hplain w) as (r & -> & Hok).
      exists r, w, []. split; [reflexivity|]. now right. }
  destruct (is_empty_string q).
  { unfold ret at 1. destruct (Hplain w) as (r & -> & Hok).
    exists r, w, []. split; [reflexivity|]. now right. }
  unfold try_except at 1.
  destruct (starts_with_enrich_from_wikidata q w) as [ev Hstart].
  destruct (enrich_from_wikidata requests_get q w) as [[[wd|e] w3] ev3];
    rewrite events_triple in Hstart.
  - destruct (build_record_outcome hit (Some q)
                (match hit_mb_country hit with
                 | Some c => if is_empty_string c then [] else [Some c]
                 | None => []
                 end ++ wd) w3) as (r & -> & Hres).
    exists r, w3, (ev3 ++ []). split; [reflexivity|].
    destruct Hres as [[-> _]|Hok]; [left | now right].
    split; [reflexivity|]. exists q. split; [reflexivity|].
    rewrite app_nil_r, Hstart. now left.
  - unfold ret at 1. destruct (Hplain w3) as (r & -> & Hok).
    exists r, w3, ((ev3 ++ []) ++ []). split; [reflexivity|]. now right.
Qed.

(** The two ways through [fetch_and_build_record]: the search finds no
    artist, or it finds one and the record is built from it. *)
Lemma fetch_and_build_record_cases (name : string) (w : World) :
  match search_musicbrainz requests_get name w with
  | (Ok (Some hit), w1, ev1) =>
      match get_wikidata_qid_from_mb requests_get (hit_mbid hit) w1 with
      | (looked, w2, ev2) =>
          let q := match looked with Ok q => q | Raise _ => None end in
          exists r w3 ev,
            fetch_and_build_record requests_get name w
            = (r, w3, ev1 ++ ev2 ++ ev)
            /\ ((r = Raise AttributeError
                 /\ exists q', q = Some q'
                               /\ In (EvRequest (WDCountries q')) ev)
                \/ exists nat,
                     r = Ok (Some {| mbid := hit_mbid hit; qid := q;
                                     nationality := nat |}))
      end
  | (_, w1, ev1) =>
      fetch_and_build_record requests_get name w = (Ok None, w1, ev1)
  end.
Proof.
  destruct (search_musicbrainz requests_get name w)
    as [[[[hit|]|e] w1] ev1] eqn:Hs.
  2:{ unfold fetch_and_build_record, bind, try_except. rewrite Hs. cbn.
      now rewrite app_nil_r. }
  2:{ now apply fetch_after_search_raises with e. }
  destruct (get_wikidata_qid_from_mb requests_get (hit_mbid hit) w1)
    as [[looked w2] ev2] eqn:Hl.
  cbv zeta. unfold fetch_and_build_record.
  unfold bind at 1. unfold try_except at 1. rewrite Hs.
  unfold bind at 1. unfold try_except at 1. rewrite Hl.
  destruct looked as [a|e].
  - destruct (record_after_lookup hit a w2) as (r & w3 & ev & -> & Hres).
    exists r, w3, ev. split; [reflexivity | exact Hres].
  - unfold ret at 1.
    destruct (record_after_lookup hit None w2) as (r & w3 & ev & -> & Hres).
    exists r, w3, ev. split; [now rewrite app_nil_r | exact Hres].
Qed.

(** X14.  The only exception that leaves [fetch_and_build_record] is the
    AttributeError of [None.strip()], and it does so only after Wikidata
    has been asked for the countries: the failures of the three clients
    are all caught. *)
Theorem fetch_and_build_record_raises (name : string) (w : World) (e : exn) :
  let out := fetch_and_build_record requests_get name w in
  result out = Raise e ->
  e = AttributeError
  /\ exists q, In (EvRequest (WDCountries q)) (events out).
Proof.
  cbv zeta. pose proof (fetch_and_build_record_cases name w) as H.
  destruct (search_musicbrainz requests_get name w)
    as [[[[hit|]|e1] w1] ev1]; try (rewrite H; discriminate).
  destruct (get_wikidata_qid_from_mb requests_get (hit_mbid hit) w1)
    as [[looked w2] ev2].
  cbv zeta in H. destruct H as (r & w3 & ev & -> & Hres).
  unfold result. rewrite events_triple. cbn [fst].
  destruct Hres as [[-> (q & _ & Hin)]|[nat ->]]; [|discriminate].
  intros [= <-]. split; [reflexivity|]. exists q.
  apply in_or_app. right. apply in_or_app. now right.
Qed.

(** X15.  When [fetch_and_build_record] returns None it has done what
    the search did and nothing more: no request for the relations of an
    artist or for countries was issued. *)
Theorem fetch_and_build_record_not_found (name : string) (w : World) :
  let out := fetch_and_build_record requests_get name w in
  result out = Ok None ->
  out = (Ok None,
         state (search_musicbrainz requests_get name w),
         events (search_musicbrainz requests_get name w))
  /\ Forall (fun e => is_lookup e = false) (events out).
Proof.
  cbv zeta. pose proof (fetch_and_build_record_cases name w) as H.
  assert (Forall (fun e => is_lookup e = false)
            (events (search_musicbrainz requests_get name w))) as Hev.
  { apply emits_search_musicbrainz; reflexivity. }
  destruct (search_musicbrainz requests_get name w)
    as [[[[hit|]|e1] w1] ev1]; rewrite events_triple in Hev.
  2,3: rewrite H; intros _; split; [reflexivity | exact Hev].
  destruct (get_wikidata_qid_from_mb requests_get (hit_mbid hit) w1)
    as [[looked w2] ev2].
  cbv zeta in H. destruct H as (r & w3 & ev & -> & Hres).
  unfold result. cbn [fst].
  destruct Hres as [[-> _]|[nat ->]]; discriminate.
Qed.

(** X16.  A record [fetch_and_build_record] returns is built from the hit
    of the search: its mbid is that of the hit, and its qid, when set, is
    "Q" followed by digits. *)
Theorem fetch_and_build_record_found (name : string) (w : World)
    (record : ArtistRecord) :
  result (fetch_and_build_record requests_get name w) = Ok (Some record) ->
  (exists hit,
      result (search_musicbrainz requests_get name w) = Ok (Some hit)
      /\ mbid record = hit_mbid hit)
  /\ (forall q, qid record = Some q -> is_qid q = true).
Proof.
  pose proof (fetch_and_build_record_cases name w) as H.
  destruct (search_musicbrainz requests_get name w)
    as [[[[hit|]|e1] w1] ev1]; try (rewrite H; discriminate).
  pose proof (get_wikidata_qid_from_mb_is_qid requests_get (hit_mbid hit) w1)
    as Hq.
  destruct (get_wikidata_qid_from_mb requests_get (hit_mbid hit) w1)
    as [[looked w2] ev2].
  cbv zeta in H. destruct H as (r & w3 & ev & -> & Hres).
  unfold result in *. cbn [fst] in *.
  destruct Hres as [[-> _]|[nat ->]]; [discriminate|].
  intros [= <-]. cbn [mbid qid]. split; [now exists hit|].
  intros q Hlooked. destruct looked as [a|e]; [|discriminate].
  subst a. now apply Hq.
Qed.

Lemma at_most_retry {A} (f : M World Event A) :
  (forall w, count_requests (events (f w)) = 1%nat) ->
  requests_at_most 3 (retry f).
Proof.
  intros H w. now destruct (retry_loop_requests f H 2 1 w) as [[_ Hle] _].
Qed.

(** X13.  [fetch_and_build_record] begins with the search request for the
    name it is given, and issues nine requests at most. *)
Theorem fetch_and_build_record_requests (name : string) (w : World) :
  let ev := events (fetch_and_build_record requests_get name w) in
  (exists rest, ev = EvRequest (MBSearchArtist name) :: rest)
  /\ (count_requests ev <= 9)%nat.
Proof.
  cbv zeta. split.
  - apply starts_with_bind, starts_with_try_except,
      starts_with_search_musicbrainz.
  - change 9%nat with (3 + (3 + (3 + 0)))%nat.
    unfold fetch_and_build_record.
    apply at_most_bind.
    { apply at_most_caught, at_most_retry,
        search_musicbrainz_attempt_one_request. }
    intros [hit|]; [|apply at_most_weaken with 0%nat; [lia|apply at_most_ret]].
    apply at_most_bind.
    { apply at_most_caught, at_most_retry,
        get_wikidata_qid_from_mb_attempt_one_request. }
    intros qid0. apply at_most_bind.
    { destruct qid0 as [q|];
        [|apply at_most_weaken with 0%nat; [lia|apply at_most_ret]].
      destruct (is_empty_string q);
        [apply at_most_weaken with 0%nat; [lia|apply at_most_ret]|].
      apply at_most_caught, at_most_retry,
        enrich_from_wikidata_attempt_one_request. }
    intros wd s.
    destruct (build_record_outcome hit qid0
                (match hit_mb_country hit with
                 | Some c => if is_empty_string c then [] else [Some c]
                 | None => []
                 end ++ wd) s) as (r & -> & _).
    reflexivity.
Qed.

End FetchFacts.

Section FetchExamples.
Import WikidataEnrichment.

Lemma fetch_and_build_record_raises_witness :
  result (fetch_and_build_record scripted "Gotye"
            [Samples.artist_answer 100; Samples.rels_answer;
             Samples.null_country_answer])
  = Raise AttributeError
  /\ exists q,
       In (EvRequest (WDCountries q))
         (events (fetch_and_build_record scripted "Gotye"
                    [Samples.artist_answer 100; Samples.rels_answer;
                     Samples.null_country_answer])).
Proof.
  split; [reflexivity|].
  apply (fetch_and_build_record_raises scripted "Gotye"
           [Samples.artist_answer 100; Samples.rels_answer;
            Samples.null_country_answer] AttributeError).
  reflexivity.
Defined.

Lemma fetch_and_build_record_not_found_witness :
  Forall (fun e => is_lookup e = false)
    (events (fetch_and_build_record scripted "Gotye & Kimbra"
               [Samples.artist_answer 40])).
Proof.
  apply (fetch_and_build_record_not_found scripted "Gotye & Kimbra"
           [Samples.artist_answer 40]).
  reflexivity.
Defined.

Lemma fetch_and_build_record_found_witness :
  (exists hit,
      result (search_musicbrainz scripted "Gotye"
                [Samples.artist_answer 100; Samples.rels_answer;
                 Samples.countries_answer])
      = Ok (Some hit)
      /\ "mbid-1"%string = hit_mbid hit)
  /\ (forall q, Some "Q42"%string = Some q -> is_qid q = true).
Proof.
  apply (fetch_and_build_record_found scripted "Gotye"
           [Samples.artist_answer 100; Samples.rels_answer;
            Samples.countries_answer]
           (Build_ArtistRecord "mbid-1" (Some "Q42"%string)
              (Some "Australia / Belgium"%string))).
  reflexivity.
Defined.

Lemma find_wikidata_qid_sound_witness :
  is_qid "Q42" = true
  /\ exists rel u url,
       In rel [Samples.wikidata_relation]
       /\ rel_type rel = Some "wikidata"%string
       /\ rel_url rel = Some u /\ resource u = Some url
       /\ PyStr.contains "Q42" url = true.
Proof.
  apply (find_wikidata_qid_sound [Samples.wikidata_relation] "Q42").
  reflexivity.
Defined.

Lemma get_wikidata_qid_from_mb_retries_witness :
  get_wikidata_qid_from_mb scripted "mbid-1"
    [Samples.unavailable; Samples.rels_answer]
  = (Ok None, [Samples.rels_answer],
     [EvRequest (MBArtistRels "mbid-1"); EvSleep 1200]).
Proof.
  apply (proj2 (proj2 (proj2
           (get_wikidata_qid_from_mb_retries scripted "mbid-1"
              [Samples.unavailable; Samples.rels_answer])))
           503 BadBody [Samples.rels_answer]).
  - reflexivity.
  - discriminate.
Defined.

Lemma enrich_from_wikidata_retries_witness :
  enrich_from_wikidata scripted "Q42"
    [Samples.unavailable; Samples.countries_answer]
  = (Ok [], [Samples.countries_answer], [EvRequest (WDCountries "Q42")]).
Proof.
  apply (proj1 (proj2 (proj2
           (enrich_from_wikidata_retries scripted "Q42"
              [Samples.unavailable; Samples.countries_answer])))
           503 BadBody [Samples.countries_answer]).
  - reflexivity.
  - discriminate.
Defined.

End FetchExamples.

Section CatalogFacts.
Import WikidataEnrichment.
Context {World : Type}.
Variable requests_get : Request -> World -> HttpOutcome * World.

Lemma insert_keeps_key (catalog : Catalog) (key other : string)
    (v : option ArtistRecord) :
  is_Some (catalog !! key) -> is_Some (<[other := v]> catalog !! key).
Proof.
  intros H. unfold Catalog in *.
  destruct (decide (other = key)) as [->|Hne].
  - rewrite lookup_insert_eq. eauto.
  - now rewrite lookup_insert_ne.
Qed.

Lemma process_tokens_keeps (tokens : list string) :
  forall (w : World) (catalog : Catalog) (key : string),
    is_Some (catalog !! key) ->
    is_Some (snd (state (process_tokens requests_get tokens (w, catalog)))
               !! key).
Proof.
  induction tokens as [|token rest IH]; intros w catalog key Hkey;
    [exact Hkey|].
  rewrite process_tokens_cons.
  destruct (needs_processing catalog token); [|now apply IH].
  destruct (fetch_and_build_record requests_get token w)
    as [[[record|e] w1] ev1]; cbv zeta; rewrite state_triple;
    [|exact Hkey].
  apply IH. now apply insert_keeps_key.
Qed.

Lemma needs_processing_absent (catalog : Catalog) (key : string) :
  needs_processing catalog key = false -> is_Some (catalog !! key).
Proof.
  unfold needs_processing. destruct (catalog !! key); [eauto | discriminate].
Qed.

Lemma process_tokens_covers (tokens : list string) :
  forall (w : World) (catalog : Catalog),
    let out := process_tokens requests_get tokens (w, catalog) in
    result out = Ok tt ->
    forall token, In token tokens -> is_Some (snd (state out) !! token).
Proof.
  induction tokens as [|token rest IH]; intros w catalog; cbv zeta;
    [intros _ t []|].
  rewrite process_tokens_cons.
  destruct (needs_processing catalog token) eqn:Hn.
  - destruct (fetch_and_build_record requests_get token w)
      as [[[record|e] w1] ev1]; [|discriminate].
    cbv zeta. unfold result at 1. rewrite state_triple. cbn [fst].
    intros Hok t [<-|Hin].
    + apply process_tokens_keeps. unfold Catalog.
      rewrite lookup_insert_eq. eauto.
    + now apply (IH w1 (<[token := record]> catalog)).
  - intros Hok t [<-|Hin].
    + apply process_tokens_keeps. now apply needs_processing_absent.
    + now apply (IH w catalog).
Qed.

Lemma process_raw_entry_keeps (raw_string : string) (w : World)
    (catalog : Catalog) :
  let out := process_raw_entry requests_get raw_string (w, catalog) in
  (forall k, is_Some (catalog !! k) -> is_Some (snd (state out) !! k))
  /\ (result out = Ok tt ->
      is_Some (snd (state out) !! normalize raw_string)).
Proof.
  cbv zeta. rewrite process_raw_entry_unfold. cbv zeta.
  set (key := normalize raw_string).
  destruct (needs_processing catalog key) eqn:Hn.
  - destruct (fetch_and_build_record requests_get key w)
      as [[[[record|]|e] w1] ev1]; rewrite ?state_triple; cbn [snd].
    + split; [intros k; apply insert_keeps_key|]. intros _.
      unfold Catalog. rewrite lookup_insert_eq. eauto.
    + split.
      * intros k Hk. apply process_tokens_keeps. now apply insert_keeps_key.
      * intros _. apply process_tokens_keeps. unfold Catalog.
        rewrite lookup_insert_eq. eauto.
    + split; [auto | discriminate].
  - pose proof (needs_processing_absent catalog key Hn) as Hkey.
    destruct (catalog !! key) as [[record|]|] eqn:Hl.
    + rewrite state_triple. cbn [snd]. split; [auto|]. intros _.
      now rewrite Hl.
    + split; [intros k; apply process_tokens_keeps|]. intros _.
      apply process_tokens_keeps. rewrite Hl. eauto.
    + destruct Hkey as [? [=]].
Qed.

(** X17.  [process_raw_entry] never removes a key from the catalog.  When
    it returns, the normalized key of the raw string is in the catalog,
    and if that key holds the null marker, so is every token of the
    string. *)
Theorem process_raw_entry_catalog (raw_string : string) (w : World)
    (catalog : Catalog) :
  let out := process_raw_entry requests_get raw_string (w, catalog) in
  let key := normalize raw_string in
  (forall k, is_Some (catalog !! k) -> is_Some (snd (state out) !! k))
  /\ (result out = Ok tt ->
      is_Some (snd (state out) !! key)
      /\ (snd (state out) !! key = Some None ->
          forall token,
            In token (split_collaborations key) ->
            is_Some (snd (state out) !! token))).
Proof.
  cbv zeta. rewrite process_raw_entry_unfold. cbv zeta.
  set (key := normalize raw_string).
  destruct (needs_processing catalog key) eqn:Hn.
  - destruct (fetch_and_build_record requests_get key w)
      as [[[[record|]|e] w1] ev1]; rewrite ?state_triple; cbn [snd].
    + split; [intros k; apply insert_keeps_key|]. intros _.
      unfold Catalog. rewrite lookup_insert_eq. split; [eauto | discriminate].
    + split.
      * intros k Hk. apply process_tokens_keeps. now apply insert_keeps_key.
      * unfold result at 1. cbn [fst]. intros Hok. split.
        -- apply process_tokens_keeps. unfold Catalog.
           rewrite lookup_insert_eq. eauto.
        -- intros _.
           now apply (process_tokens_covers (split_collaborations key) w1
                        (<[key := None]> catalog)).
    + split; [auto | discriminate].
  - pose proof (needs_processing_absent catalog key Hn) as Hkey.
    destruct (catalog !! key) as [[record|]|] eqn:Hl.
    + rewrite state_triple. cbn [snd]. split; [auto|]. intros _.
      split; [now rewrite Hl|]. rewrite Hl. discriminate.
    + split; [intros k; apply process_tokens_keeps|]. intros Hok. split.
      * apply process_tokens_keeps. rewrite Hl. eauto.
      * intros _.
        now apply (process_tokens_covers (split_collaborations key) w catalog).
    + destruct Hkey as [? [=]].
Qed.

(** X18.  The first pass of [process_raw_entry] on a key that needs
    processing.  A record for the full string is stored and ends the
    call: no token is looked up.  A full string that is not found is
    marked null and stays so through the second pass.  An exception of
    the lookup leaves the call with the catalog as it was, the key
    unmarked. *)
Theorem process_raw_entry_first_pass (raw_string : string) (w : World)
    (catalog : Catalog) :
  let key := normalize raw_string in
  let out := process_raw_entry requests_get raw_string (w, catalog) in
  needs_processing catalog key = true ->
  match fetch_and_build_record requests_get key w with
  | (Ok (Some record), w1, ev1) =>
      out = (Ok tt, (w1, <[key := Some record]> catalog), ev1)
  | (Ok None, w1, ev1) =>
      snd (state out) !! key = Some None
      /\ exists ev2, events out = ev1 ++ ev2
  | (Raise e, w1, ev1) => out = (Raise e, (w1, catalog), ev1)
  end.
Proof.
  cbv zeta. intros Hn. rewrite process_raw_entry_unfold. cbv zeta.
  rewrite Hn.
  destruct (fetch_and_build_record requests_get (normalize raw_string) w)
    as [[[[record|]|e] w1] ev1]; [reflexivity| |reflexivity].
  rewrite state_triple, events_triple. split; [|eauto].
  destruct (process_tokens_settled requests_get
              (split_collaborations (normalize raw_string)) w1
              (<[normalize raw_string := None]> catalog)
              (normalize raw_string)) as [_ Hk].
  { left. unfold Catalog. now rewrite lookup_insert_eq. }
  cbv zeta in Hk. rewrite Hk. unfold Catalog. now rewrite lookup_insert_eq.
Qed.

(** X19.  [process_raw_entry] sees a raw string through its normalized
    key only: the string and its key are processed alike. *)
Theorem process_raw_entry_normalized (raw_string : string)
    (st : St (World := World)) :
  process_raw_entry requests_get (normalize raw_string) st
  = process_raw_entry requests_get raw_string st.
Proof.
  unfold process_raw_entry. now rewrite normalize_idempotent.
Qed.

(** *** [main] *)

Lemma unique_in_order_In (l : list string) :
  forall (seen : gset string) (x : string),
    In x (unique_in_order l seen) <-> In x l /\ x ∉ seen.
Proof.
  induction l as [|y l IH]; intros seen x; simpl; [tauto|].
  destruct (bool_decide_reflect (y ∈ seen)) as [Hin|Hout].
  - rewrite IH. split; [tauto|].
    intros [[<-|H] Hx]; [contradiction | tauto].
  - simpl. rewrite IH, not_elem_of_union, not_elem_of_singleton. split.
    + intros [<-|[H [_ Hx]]]; tauto.
    + intros [[<-|H] Hx]; [tauto|].
      destruct (decide (x = y)) as [->|Hne]; tauto.
Qed.

Lemma unique_in_order_NoDup (l : list string) :
  forall seen : gset string, List.NoDup (unique_in_order l seen).
Proof.
  induction l as [|y l IH]; intros seen; simpl; [constructor|].
  destruct (bool_decide (y ∈ seen)); [apply IH|].
  constructor; [|apply IH].
  rewrite unique_in_order_In, not_elem_of_union, not_elem_of_singleton.
  tauto.
Qed.

Lemma unique_in_order_sublist (l : list string) :
  forall seen : gset string, sublist (unique_in_order l seen) l.
Proof.
  induction l as [|y l IH]; intros seen; simpl; [constructor|].
  destruct (bool_decide (y ∈ seen)).
  - apply sublist_cons. apply IH.
  - apply sublist_skip. apply IH.
Qed.

Lemma unique_in_order_all (l : list string) (x : string) :
  In x (unique_in_order l ∅) <-> In x l.
Proof.
  rewrite unique_in_order_In. split; [tauto|].
  intros H. split; [exact H | apply not_elem_of_empty].
Qed.

(** X20.  [list(dict.fromkeys(l))], by which [main] turns its input into
    a work list and [fetch_and_build_record] merges the countries: the
    result has no duplicate, holds the elements of [l] and no other, in
    the order of [l]. *)
Theorem unique_in_order_first_occurrences (l : list string) :
  List.NoDup (unique_in_order l ∅)
  /\ (forall x, In x (unique_in_order l ∅) <-> In x l)
  /\ sublist (unique_in_order l ∅) l.
Proof.
  split; [apply unique_in_order_NoDup|].
  split; [apply unique_in_order_all | apply unique_in_order_sublist].
Qed.

Lemma main_loop_keys (entries : list string) :
  forall (i : nat) (w : World) (catalog : Catalog) (disk : Disk),
    (forall key, file_has_key disk key -> is_Some (catalog !! key)) ->
    let out := main_loop requests_get entries i ((w, catalog), disk) in
    (forall key, is_Some (catalog !! key) ->
                 is_Some (snd (fst (state out)) !! key))
    /\ (forall key, file_has_key disk key ->
                    file_has_key (snd (state out)) key)
    /\ (forall key, file_has_key (snd (state out)) key ->
                    is_Some (snd (fst (state out)) !! key))
    /\ (result out = Ok tt ->
        forall raw, In raw entries ->
                    is_Some (snd (fst (state out)) !! normalize raw)).
Proof.
  induction entries as [|raw rest IH]; intros i w catalog disk Hinv.
  - cbn. split; [auto|]. split; [auto|]. split; [exact Hinv|].
    intros _ raw [].
  - cbv zeta. rewrite main_loop_cons.
    destruct (process_raw_entry_keeps raw w catalog) as [Hkeep Hmark].
    cbv zeta in Hkeep, Hmark.
    destruct (process_raw_entry requests_get raw (w, catalog))
      as [[[[]|e] [w1 catalog1]] ev1];
      rewrite state_triple in Hkeep, Hmark; cbn [snd] in Hkeep, Hmark.
    2:{ rewrite state_triple. cbn [fst snd].
        split; [exact Hkeep|]. split; [auto|].
        split; [intros key H; apply Hkeep, Hinv, H | discriminate]. }
    cbv zeta. rewrite state_triple.
    set (disk1 := if ((i + 1) mod 50 =? 0)%nat then Some catalog1 else disk).
    assert (forall key, file_has_key disk1 key -> is_Some (catalog1 !! key))
      as Hinv1.
    { intros key. unfold disk1. destruct ((i + 1) mod 50 =? 0)%nat.
      - intros (c & [= <-] & Hc). exact Hc.
      - intros H. apply Hkeep, Hinv, H. }
    assert (forall key, file_has_key disk key -> file_has_key disk1 key)
      as Hdisk.
    { intros key H. unfold disk1. destruct ((i + 1) mod 50 =? 0)%nat; [|exact H].
      exists catalog1. split; [reflexivity|]. apply Hkeep, Hinv, H. }
    destruct (IH (S i) w1 catalog1 disk1 Hinv1) as (Hmem & Hfile & Hwithin & Hcov).
    cbv zeta in Hmem, Hfile, Hwithin, Hcov.
    split; [auto|]. split; [auto|]. split; [auto|].
    unfold result at 1. cbn [fst]. intros Hok raw' [<-|Hin].
    + apply Hmem. now apply Hmark.
    + now apply Hcov.
Qed.

(** X21.  A run of [main] of enrich_with_wikidata never loses a key of
    the catalog file, also when it is interrupted by an exception; and
    when it ends, the file holds the normalized key of every input. *)
Theorem main_catalog_file (INPUT_SONGS : list string) (w : World)
    (disk : Disk) :
  let out := main requests_get INPUT_SONGS (w, disk) in
  (forall key, file_has_key disk key -> file_has_key (snd (state out)) key)
  /\ (result out = Ok tt ->
      forall raw, In raw INPUT_SONGS ->
                  file_has_key (snd (state out)) (normalize raw)).
Proof.
  cbv zeta. unfold main. cbn [fst snd]. unfold bind.
  destruct (main_loop_keys (unique_in_order INPUT_SONGS ∅) 0 w
              (default ∅ disk) disk) as (Hmem & Hfile & Hwithin & Hcov).
  { intros key (c & -> & Hc). exact Hc. }
  cbv zeta in Hmem, Hfile, Hwithin, Hcov.
  destruct (main_loop requests_get _ 0%nat _)
    as [[[[]|e] [[w1 catalog1] disk1]] ev1];
    rewrite state_triple in Hmem, Hfile, Hwithin, Hcov;
    cbn [fst snd] in *.
  - unfold save_catalog, modify. cbn [fst snd]. rewrite state_triple.
    cbn [snd]. split.
    + intros key H. exists catalog1. split; [reflexivity|].
      apply Hwithin, Hfile, H.
    + intros _ raw Hin. exists catalog1. split; [reflexivity|].
      apply (Hcov eq_refl). now apply unique_in_order_all.
  - rewrite state_triple. cbn [snd]. split; [exact Hfile | discriminate].
Qed.

End CatalogFacts.

Section CatalogExamples.

Import WikidataEnrichment.

Lemma process_raw_entry_catalog_witness :
  is_Some
    (snd (state (process_raw_entry scripted "Gotye  & Kimbra"
                   ([Samples.artist_answer 40; Samples.artist_answer 100;
                     Samples.rels_answer; Samples.countries_answer;
                     Samples.unavailable], Samples.no_catalog)))
       !! "Gotye & Kimbra"%string)
  /\ is_Some
       (snd (state (process_raw_entry scripted "Gotye  & Kimbra"
                      ([Samples.artist_answer 40; Samples.artist_answer 100;
                        Samples.rels_answer; Samples.countries_answer;
                        Samples.unavailable], Samples.no_catalog)))
          !! "Kimbra"%string).
Proof.
  destruct (proj2 (process_raw_entry_catalog scripted "Gotye  & Kimbra"
                     [Samples.artist_answer 40; Samples.artist_answer 100;
                      Samples.rels_answer; Samples.countries_answer;
                      Samples.unavailable] Samples.no_catalog) eq_refl)
    as [Hkey Htokens].
  split; [exact Hkey|].
  apply Htokens; [reflexivity|]. right. left. reflexivity.
Defined.

Lemma process_raw_entry_first_pass_witness :
  process_raw_entry scripted " Gotye "
    ([Samples.artist_answer 100; Samples.rels_answer;
      Samples.countries_answer], Samples.no_catalog)
  = (Ok tt,
     ([],
      <["Gotye"%string :=
          Some (Build_ArtistRecord "mbid-1" (Some "Q42"%string)
                  (Some "Australia / Belgium"%string))]> Samples.no_catalog),
     [EvRequest (MBSearchArtist "Gotye"); EvSleep 1200;
      EvRequest (MBArtistRels "mbid-1"); EvSleep 1200;
      EvRequest (WDCountries "Q42")]).
Proof.
  exact (process_raw_entry_first_pass scripted " Gotye "
           [Samples.artist_answer 100; Samples.rels_answer;
            Samples.countries_answer] Samples.no_catalog eq_refl).
Defined.

Lemma main_catalog_file_witness :
  file_has_key
    (snd (state (main scripted ["Gotye"; "Gotye"]%string
                   ([Samples.artist_answer 100; Samples.rels_answer;
                     Samples.countries_answer], None)))) "Gotye".
Proof.
  apply (proj2 (main_catalog_file scripted ["Gotye"; "Gotye"]%string
                  [Samples.artist_answer 100; Samples.rels_answer;
                   Samples.countries_answer] None) eq_refl "Gotye"%string).
  left. reflexivity.
Defined.

End CatalogExamples.

(** ** The merge step: records not found and the range of the columns *)

Section FeaturesMoreFacts.
Import MusicBrainzFeatures.

(** X22.  A row whose key is in the cache with a found flag that is
    false, null or missing receives the neutral defaults, whatever the
    other fields of the record hold: a track looked up and not found is
    treated as one never looked up. *)
Theorem extract_logic_not_found
    (mb_data : gmap string CachedRecord) (artist_name song_name : string)
    (data : CachedRecord) :
  mb_data !! mb_key artist_name song_name = Some data ->
  found data <> Some true ->
  extract_logic mb_data artist_name song_name = neutral_defaults.
Proof.
  intros Hkey Hfound. unfold extract_logic. rewrite Hkey.
  change (default empty_record (Some data)) with data.
  unfold features_of.
  destruct (found data) as [[|]|]; [contradiction | reflexivity | reflexivity].
Qed.

(** X23.  Whatever the cache holds, mb_found and mb_is_single are 0 or 1,
    mb_track_number and mb_track_count are never 0, a negative
    mb_track_count leaves mb_prominence_ratio at 0.0, and a row with
    mb_found=0 holds the neutral defaults. *)
Theorem extract_logic_columns
    (mb_data : gmap string CachedRecord) (artist_name song_name : string) :
  let res := extract_logic mb_data artist_name song_name in
  (mb_found res = 0 \/ mb_found res = 1)
  /\ (mb_is_single res = 0 \/ mb_is_single res = 1)
  /\ mb_track_number res <> 0
  /\ mb_track_count res <> 0
  /\ (mb_track_count res < 0 -> mb_prominence_ratio res = 0)
  /\ (mb_found res = 0 -> res = neutral_defaults).
Proof.
  cbv zeta. unfold extract_logic.
  generalize (default empty_record (mb_data !! mb_key artist_name song_name)).
  intros data. unfold features_of.
  destruct (default false (found data)); cbn [mb_found mb_is_single
    mb_track_number mb_track_count mb_prominence_ratio].
  - split; [now right|]. split.
    { destruct (_ || _); [now right | now left]. }
    split; [apply or_one_nonzero|]. split; [apply or_one_nonzero|].
    split; [|discriminate].
    intros Hneg. destruct (Z.ltb_spec 0 (or_one (track_count data))); [lia|].
    reflexivity.
  - split; [now left|]. split; [now right|].
    split; [discriminate|]. split; [discriminate|].
    split; [reflexivity | reflexivity].
Qed.

Lemma round4_whole (n : Z) : 0 < n -> round4 n n = 10000.
Proof.
  intros Hn. unfold round4, round4_nonneg.
  destruct (Z.leb_spec 0 n); [|lia].
  replace (n * 10000) with (10000 * n) by lia.
  rewrite Z.div_mul, Z.mod_mul by lia.
  destruct (Z.ltb_spec (2 * 0) n); [reflexivity | lia].
Qed.

Lemma round4_at_most_one (a b : Z) :
  0 <= a -> a <= b -> 0 < b -> 0 <= round4 a b <= 10000.
Proof.
  intros Ha Hab Hb.
  destruct (Z.eq_dec a b) as [->|Hne]; [rewrite round4_whole; lia|].
  pose proof (round4_between a b Ha Hb) as [Hlo Hhi].
  assert (0 <= a * 10000 / b) by (apply Z.div_pos; lia).
  assert (a * 10000 / b < 10000) by (apply Z.div_lt_upper_bound; lia).
  lia.
Qed.

(** X24.  For a found record whose track number lies between 1 and its
    track count, the two columns hold the recorded values and
    mb_prominence_ratio lies between 0.0 and 1.0; it is 1.0 for the last
    track. *)
Theorem ratio_of_track_within_release (data : CachedRecord) (n c : Z) :
  found_truthy data ->
  track_number data = Some n -> track_count data = Some c ->
  1 <= n <= c ->
  let res := features_of data in
  mb_track_number res = n /\ mb_track_count res = c
  /\ 0 <= mb_prominence_ratio res <= 10000
  /\ (n = c -> mb_prominence_ratio res = 10000).
Proof.
  intros Hfound Hn Hc Hrange. unfold found_truthy in Hfound.
  cbv zeta. unfold features_of. rewrite Hfound, Hn, Hc.
  cbn [default mb_track_number mb_track_count mb_prominence_ratio or_one].
  destruct (Z.eqb_spec n 0); [lia|]. destruct (Z.eqb_spec c 0); [lia|].
  destruct (Z.ltb_spec 0 c); [|lia].
  split; [reflexivity|]. split; [reflexivity|]. split.
  - apply round4_at_most_one; lia.
  - intros ->. apply round4_whole. lia.
Qed.

End FeaturesMoreFacts.

Section FeaturesExamples.

Import MusicBrainzFeatures.

Lemma extract_logic_not_found_witness :
  extract_logic Samples.cached_not_found "Pink Floyd" "Echoes"
  = neutral_defaults.
Proof.
  apply (extract_logic_not_found Samples.cached_not_found
           "Pink Floyd" "Echoes"
           {| found := Some false; release_type := Some "unknown"%string;
              track_number := None; track_count := None |}).
  - reflexivity.
  - discriminate.
Defined.

Lemma ratio_of_track_within_release_witness :
  mb_track_number (features_of Samples.last_of_ten) = 10
  /\ mb_track_count (features_of Samples.last_of_ten) = 10
  /\ 0 <= mb_prominence_ratio (features_of Samples.last_of_ten) <= 10000
  /\ (10 = 10 -> mb_prominence_ratio (features_of Samples.last_of_ten) = 10000).
Proof.
  apply (ratio_of_track_within_release Samples.last_of_ten 10 10);
    [reflexivity | reflexivity | reflexivity | lia].
Defined.

End FeaturesExamples.

(** ** The schema cleanup: what it keeps *)

Section SchemaMoreFacts.
Import SchemaDrift.
Context {V : Type}.
Implicit Type df : DataFrame (V := V).

Lemma filter_sublist {A} (f : A -> bool) (l : list A) :
  sublist (List.filter f l) l.
Proof.
  induction l as [|x l IH]; simpl; [constructor|].
  destruct (f x); [now apply sublist_skip | now apply sublist_cons].
Qed.

Lemma cleaned_content (drops : list string) df :
  sublist
    (map snd
       (List.filter (fun cv => kept drops (fst cv))
          (map (fun cv => (relabel (fst cv), snd cv)) df)))
    (map snd df).
Proof.
  induction df as [|[c v] df IH]; simpl; [constructor|].
  destruct (kept drops (relabel c)); simpl;
    [now apply sublist_skip | now apply sublist_cons].
Qed.

Lemma cleaned_length (drops : list string) df :
  (forall c, In c (columns df) -> PyStr.endswith c "_y" = true ->
             In c drops) ->
  (length (List.filter (fun cv => kept drops (fst cv))
             (map (fun cv => (relabel (fst cv), snd cv)) df))
   + length (List.filter (fun col => PyStr.endswith col "_y") (columns df))
   <= length df)%nat.
Proof.
  induction df as [|[c v] df IH]; intros Hd; simpl; [lia|].
  assert (forall c0, In c0 (columns df) -> PyStr.endswith c0 "_y" = true ->
                     In c0 drops) as Hd'
    by (intros c0 Hc0; apply Hd; now right).
  specialize (IH Hd').
  destruct (PyStr.endswith c "_y") eqn:Hy.
  - rewrite (relabel_y c Hy).
    assert (kept drops c = false) as ->.
    { unfold kept. apply andb_false_iff. left. apply negb_false_iff.
      apply mem_string_In. apply Hd; [now left | exact Hy]. }
    simpl. lia.
  - destruct (kept drops (relabel c)); simpl; lia.
Qed.

Lemma distinct_NoDup (labels : list string) :
  distinct labels = true <-> List.NoDup labels.
Proof.
  induction labels as [|l rest IH]; simpl.
  - split; [constructor | reflexivity].
  - rewrite andb_true_iff, negb_true_iff, IH. split.
    + intros [Hl Hrest]. constructor; [|exact Hrest].
      intros Hin. apply mem_string_In in Hin. congruence.
    + intros H. inversion H as [|? ? Hl Hrest]; subst. split; [|exact Hrest].
      destruct (mem_string l rest) eqn:Hm; [|reflexivity].
      apply mem_string_In in Hm. contradiction.
Qed.

(** X26.  Steps 1 to 3 of [clean_redundant_columns] raise no [KeyError];
    the table [df_clean] they compute has no column labelled "Unnamed: 0";
    the contents of its columns are contents of columns of the input, in
    the same order; and it has fewer columns than the input by the number
    of "_y" columns at least.  Step 4 writes that table when its labels
    are pairwise distinct; when a label repeats, as the renaming can make
    it, the write raises and the function ends without having written. *)
Theorem clean_redundant_columns_keeps_content df :
  exists df_clean,
    clean_redundant_columns df = Some df_clean
    /\ ~ In "Unnamed: 0"%string (columns df_clean)
    /\ sublist (map snd df_clean) (map snd df)
    /\ (length df_clean + length (cols_to_drop df) <= length df)%nat
    /\ (List.NoDup (columns df_clean) -> clean_and_save df = Some df_clean)
    /\ (~ List.NoDup (columns df_clean) -> clean_and_save df = None).
Proof.
  exists (cleaned df). split; [apply clean_redundant_columns_cleaned|].
  split; [|split; [|split; [|split]]].
  - intros Hin. apply cleaned_columns in Hin as [Hk _].
    unfold kept in Hk. apply andb_prop in Hk as [_ Hk].
    now rewrite String.eqb_refl in Hk.
  - apply cleaned_content.
  - apply cleaned_length. intros c Hc Hy. apply filter_In. now split.
  - intros Hnd. unfold clean_and_save, to_parquet.
    rewrite clean_redundant_columns_cleaned.
    apply distinct_NoDup in Hnd. now rewrite Hnd.
  - intros Hdup. unfold clean_and_save, to_parquet.
    rewrite clean_redundant_columns_cleaned.
    destruct (distinct (columns (cleaned df))) eqn:Hd; [|reflexivity].
    apply distinct_NoDup in Hd. contradiction.
Qed.

Lemma cleaned_settled (drops : list string) df :
  (forall c, In c drops -> PyStr.endswith c "_y" = true) ->
  forallb settled_label (columns df) = true ->
  List.filter (fun cv => kept drops (fst cv))
    (map (fun cv => (relabel (fst cv), snd cv)) df)
  = df.
Proof.
  intros Hd. induction df as [|[c v] df IH]; simpl; [reflexivity|].
  intros H. apply andb_prop in H as [Hc Hrest].
  unfold settled_label in Hc. apply andb_prop in Hc as [Hc Hu].
  apply andb_prop in Hc as [Hx Hy].
  apply negb_true_iff in Hx, Hy.
  assert (relabel c = c) as -> by (unfold relabel; now rewrite Hx).
  assert (kept drops c = true) as ->.
  { unfold kept. rewrite Hu, andb_true_r. apply negb_true_iff.
    destruct (mem_string c drops) eqn:Hm; [|reflexivity].
    apply mem_string_In, Hd in Hm. congruence. }
  f_equal. now apply IH.
Qed.

(** X25.  A table none of whose labels ends in "_x" or "_y" or is
    "Unnamed: 0" is written back as it is: the cleanup of a clean table
    changes nothing. *)
Theorem clean_redundant_columns_settled df :
  forallb settled_label (columns df) = true ->
  clean_redundant_columns df = Some df.
Proof.
  intros H. rewrite clean_redundant_columns_cleaned. f_equal.
  unfold cleaned. apply cleaned_settled; [|exact H].
  intros c Hc. now apply filter_In in Hc as [_ Hy].
Qed.

End SchemaMoreFacts.

Lemma clean_redundant_columns_keeps_content_witness :
  SchemaDrift.clean_redundant_columns Samples.merged_next_to_plain
  = Some [("artist_name", 1); ("artist_name", 2); ("tempo", 3)]%string
  /\ SchemaDrift.clean_and_save Samples.merged_next_to_plain = None.
Proof.
  destruct (clean_redundant_columns_keeps_content Samples.merged_next_to_plain)
    as (df_clean & Hrun & _ & _ & _ & _ & Hdup).
  vm_compute in Hrun. injection Hrun as <-.
  split; [reflexivity|]. apply Hdup.
  intros H. inversion H as [|? ? Hl _]; subst. apply Hl. now left.
Defined.

Lemma clean_redundant_columns_settled_witness :
  SchemaDrift.clean_redundant_columns Samples.clean_table
  = Some Samples.clean_table.
Proof.
  apply (clean_redundant_columns_settled Samples.clean_table).
  reflexivity.
Defined.

(** ** The Last.fm client and its runner *)

Section LastFMClientFacts.
Import LastFMClient.
Context {World : Type}.
Variable requests_get : Request -> World -> HttpOutcome * World.

Lemma lower_char_idempotent (c : ascii) :
  PyStr.lower_char (PyStr.lower_char c) = PyStr.lower_char c.
Proof. destruct c as [[] [] [] [] [] [] [] []]; reflexivity. Qed.

Lemma lower_idempotent (s : string) : PyStr.lower (PyStr.lower s) = PyStr.lower s.
Proof.
  induction s as [|c s IH]; simpl; [reflexivity|].
  now rewrite lower_char_idempotent, IH.
Qed.

Lemma tag_names_outcome (l : list TagJson) (w : World) :
  exists r,
    tag_names l w = (r, w, [])
    /\ forall names, r = Ok names ->
                     Forall (fun t => PyStr.lower t = t) names
                     /\ map (fun n => Some n) names
                        = map (fun t => option_map PyStr.lower (tag_name t)) l.
Proof.
  induction l as [|t l IH]; cbn [tag_names].
  - exists (Ok []). split; [reflexivity|]. intros names [= <-].
    split; [constructor | reflexivity].
  - destruct (tag_name t) as [name|] eqn:Ht.
    + destruct IH as (r & Hrun & Hr). unfold bind. rewrite Hrun.
      destruct r as [names|e].
      * eexists (Ok _). split; [reflexivity|]. intros names' [= <-].
        destruct (Hr names eq_refl) as [Hlow Hmap]. split.
        -- constructor; [apply lower_idempotent | exact Hlow].
        -- cbn [map]. rewrite Ht. cbn [option_map]. now rewrite Hmap.
      * exists (Raise e). split; [reflexivity|]. intros names [=].
    + exists (Raise KeyError). split; [reflexivity|]. intros names [=].
Qed.

Lemma get_artist_info_returns (artist_name : string) (w : World) :
  exists info w1,
    get_artist_info requests_get artist_name w
    = (Ok info, w1, [EvRequest (ArtistGetInfo artist_name)]).
Proof.
  unfold get_artist_info, try_except, bind, http_get.
  destruct (requests_get (ArtistGetInfo artist_name) w) as [[|code body] w1];
    [now eexists _, w1|].
  cbn [fst snd]. destruct (negb (code =? 200)); [now eexists _, w1|].
  destruct body as [|doc]; cbn [json]; [now eexists _, w1|].
  unfold ret at 1. cbn [app].
  destruct (tag_names_outcome
              (default [] (tag (default empty_tags
                                  (a_tags (default empty_artist (artist doc))))))
              w1) as (r & -> & _).
  destruct r as [names|e]; [|now eexists _, w1].
  destruct (default (IntLike 0) _) as [z|]; cbn; now eexists _, w1.
Qed.

(** X27.  [get_artist_info] never raises and issues exactly one request.
    The tags it returns are in lower case.  It returns [no_info], no tag
    and no listener, when the request raises, when the status is not 200
    and when the body cannot be decoded; from a decoded body it returns
    the lower-cased names of the tags and the listener count converted to
    an integer, or [no_info] when a tag has no name or the count is no
    number. *)
Theorem get_artist_info_total (artist_name : string) (w : World) :
  exists info w1,
    get_artist_info requests_get artist_name w
    = (Ok info, w1, [EvRequest (ArtistGetInfo artist_name)])
    /\ Forall (fun t => PyStr.lower t = t) (tags info)
    /\ match requests_get (ArtistGetInfo artist_name) w with
       | (Response code body, _) =>
           (code <> 200 -> info = no_info)
           /\ (code = 200 ->
               match body with
               | BadBody => info = no_info
               | Json doc =>
                   let data := default empty_artist (artist doc) in
                   info = no_info
                   \/ (map (fun n => Some n) (tags info)
                       = map (fun t => option_map PyStr.lower (tag_name t))
                           (default []
                              (tag (default empty_tags (a_tags data))))
                       /\ default (IntLike 0)
                            (stats_listeners
                               (default empty_stats (a_stats data)))
                          = IntLike (listeners info))
               end)
       | (RequestRaises, _) => info = no_info
       end.
Proof.
  unfold get_artist_info, try_except, bind, http_get.
  destruct (requests_get (ArtistGetInfo artist_name) w) as [[|code body] w1].
  { exists no_info, w1. split; [reflexivity|]. split; [constructor|].
    reflexivity. }
  cbn [fst snd]. destruct (Z.eqb_spec code 200) as [->|Hcode]; cbn [negb].
  2:{ exists no_info, w1. split; [reflexivity|]. split; [constructor|].
      split; [reflexivity | contradiction]. }
  destruct body as [|doc]; cbn [json].
  { exists no_info, w1. split; [reflexivity|]. split; [constructor|].
    split; [reflexivity | reflexivity]. }
  unfold ret at 1. cbn [app].
  destruct (tag_names_outcome
              (default [] (tag (default empty_tags
                                  (a_tags (default empty_artist (artist doc))))))
              w1) as (r & -> & Hr).
  destruct r as [names|e].
  2:{ exists no_info, w1. split; [reflexivity|]. split; [constructor|].
      split; [intros H; now contradiction H | intros _; now left]. }
  destruct (Hr names eq_refl) as [Hlow Hmap].
  destruct (default (IntLike 0) _) as [z|] eqn:Hz; cbn.
  - eexists _, w1. split; [reflexivity|]. split; [exact Hlow|].
    split; [intros H; now contradiction H|]. intros _. right.
    split; [exact Hmap | reflexivity].
  - exists no_info, w1. split; [reflexivity|]. split; [constructor|].
    split; [intros H; now contradiction H | intros _; now left].
Qed.

(** X28.  [get_track_year] never raises and issues exactly one request;
    it returns the title of the album of the track from a response 200
    with a decodable body, and None in every other case. *)
Theorem get_track_year_total (artist_name track_name : string) (w : World) :
  exists r w1,
    get_track_year requests_get artist_name track_name w
    = (Ok r, w1, [EvRequest (TrackGetInfo artist_name track_name)])
    /\ match requests_get (TrackGetInfo artist_name track_name) w with
       | (Response code (Json doc), _) =>
           r = if code =? 200
               then title (default empty_album
                             (album (default empty_track (track doc))))
               else None
       | _ => r = None
       end.
Proof.
  unfold get_track_year, try_except, bind, http_get.
  destruct (requests_get (TrackGetInfo artist_name track_name) w)
    as [[|code body] w1].
  { exists None, w1. split; reflexivity. }
  cbn [fst snd]. destruct (code =? 200); cbn [negb].
  - destruct body as [|doc]; cbn.
    + exists None, w1. split; reflexivity.
    + eexists _, w1. split; reflexivity.
  - exists None, w1. split; [reflexivity|]. now destruct body.
Qed.

End LastFMClientFacts.

Section LastFMRunnerFacts.
Import LastFMClient LastFMRunner.
Context {World TrackMeta : Type}.
Variable get_artist_info : string -> M World LastFMClient.Event ArtistInfo.

Implicit Types (data : EnrichmentData (TrackMeta := TrackMeta))
  (st : St (World := World) (TrackMeta := TrackMeta)).

Lemma phase1_cons (artist : string) (rest : list string) data
    (new_reqs : nat) st :
  phase1 get_artist_info (artist :: rest) data new_reqs st
  = match artists data !! artist with
    | Some _ => phase1 get_artist_info rest data new_reqs st
    | None =>
        match get_artist_info artist (fst st) with
        | (Ok info, w1, ev1) =>
            let data1 := set_artist artist info data in
            let saved := ((S new_reqs) mod 50 =? 0)%nat in
            let out :=
              phase1 get_artist_info rest data1 (S new_reqs)
                (w1, if saved then Some data1 else snd st) in
            (result out, state out,
             map EvClient ev1
               ++ (if saved then [EvSave data1] else [])
               ++ EvSleep 200 :: events out)
        | (Raise e, w1, ev1) => (Raise e, (w1, snd st), map EvClient ev1)
        end
    end.
Proof.
  cbn [phase1]. destruct (artists data !! artist); [reflexivity|].
  unfold bind at 1, call_client at 1.
  destruct (get_artist_info artist (fst st)) as [[[info|e] w1] ev1];
    [|reflexivity].
  cbv zeta. unfold bind at 1.
  destruct ((S new_reqs) mod 50 =? 0)%nat.
  - unfold save at 1. cbn [fst snd]. unfold bind at 1, emit at 1.
    destruct (phase1 get_artist_info rest _ (S new_reqs) _) as [[r s2] ev2].
    reflexivity.
  - unfold ret at 1. unfold bind at 1, emit at 1.
    destruct (phase1 get_artist_info rest _ (S new_reqs) _) as [[r s2] ev2].
    reflexivity.
Qed.


Lemma subseteq_set_artist (artist : string) (info : ArtistInfo) data :
  artists data !! artist = None ->
  artists data ⊆ artists (set_artist artist info data).
Proof. intros H. cbn. now apply insert_subseteq. Qed.

(** The loop keeps what the cache held and never touches the track
    metadata; the file is left alone or holds a later state of the
    cache. *)
Lemma phase1_keeps (unique_artists : list string) :
  forall data (new_reqs : nat) st,
    let out := phase1 get_artist_info unique_artists data new_reqs st in
    (forall data',
        snd (state out) = Some data' ->
        snd st = Some data'
        \/ (artists data ⊆ artists data'
            /\ tracks_metadata data' = tracks_metadata data))
    /\ (forall data',
          result out = Ok data' ->
          artists data ⊆ artists data'
          /\ tracks_metadata data' = tracks_metadata data
          /\ forall a, In a unique_artists -> is_Some (artists data' !! a)).
Proof.
  induction unique_artists as [|artist rest IH]; intros data new_reqs st.
  - cbn. split; [intros data' H; now left|].
    intros data' [= <-]. split; [done|]. split; [reflexivity|]. intros a [].
  - cbv zeta. rewrite phase1_cons.
    destruct (artists data !! artist) as [info0|] eqn:Hkey.
    + destruct (IH data new_reqs st) as [Hfile Hres]. cbv zeta in Hfile, Hres.
      split; [exact Hfile|]. intros data' Hok.
      destruct (Hres data' Hok) as (Hsub & Htm & Hcov).
      split; [exact Hsub|]. split; [exact Htm|].
      intros a [<-|Ha]; [|now apply Hcov].
      exists info0. eapply lookup_weaken; eassumption.
    + destruct (get_artist_info artist (fst st)) as [[[info|e] w1] ev1].
      2:{ rewrite state_triple. cbn [snd]. split; [intros data' H; now left|].
          intros data' [=]. }
      cbv zeta. rewrite state_triple.
      pose proof (subseteq_set_artist artist info data Hkey) as Hsub1.
      set (data1 := set_artist artist info data) in *.
      destruct (IH data1 (S new_reqs)
                  (w1, if (S new_reqs mod 50 =? 0)%nat
                       then Some data1 else snd st))
        as [Hfile Hres].
      cbv zeta in Hfile, Hres. cbn [snd] in Hfile. split.
      * intros data' Hd. destruct (Hfile data' Hd) as [H|[Hsub Htm]].
        -- destruct (S new_reqs mod 50 =? 0)%nat; [|now left].
           injection H as <-. right. split; [exact Hsub1 | reflexivity].
        -- right. split; [now transitivity (artists data1) | exact Htm].
      * unfold result at 1. cbn [fst]. intros data' Hok.
        destruct (Hres data' Hok) as (Hsub & Htm & Hcov).
        split; [now transitivity (artists data1)|]. split; [exact Htm|].
        intros a [<-|Ha]; [|now apply Hcov].
        exists info. eapply lookup_weaken; [|exact Hsub].
        unfold data1. cbn. apply lookup_insert_eq.
Qed.

Lemma phase1_all_cached (unique_artists : list string) data
    (new_reqs : nat) st :
  (forall a, In a unique_artists -> is_Some (artists data !! a)) ->
  phase1 get_artist_info unique_artists data new_reqs st = (Ok data, st, []).
Proof.
  induction unique_artists as [|artist rest IH]; intros Hall; [reflexivity|].
  cbn [phase1]. destruct (Hall artist (or_introl eq_refl)) as [info ->].
  apply IH. intros a Ha. apply Hall. now right.
Qed.

(** X29.  Whatever the client does, the file a run of [main] of
    enrich_with_lastfm leaves holds every artist entry of the file it
    started from, unchanged, and the same track metadata; when the run
    ends the file holds an entry for every artist of the work list; and a
    run over artists that are all cached calls the client for none and
    writes the cache back as it was. *)
Theorem lastfm_main_resumes (unique_artists : list string) (w : World)
    (disk : Disk (TrackMeta := TrackMeta)) :
  let out := main get_artist_info unique_artists (w, disk) in
  let old := default no_data disk in
  (forall data',
      snd (state out) = Some data' ->
      artists old ⊆ artists data'
      /\ tracks_metadata data' = tracks_metadata old)
  /\ (result out = Ok tt ->
      exists data',
        snd (state out) = Some data'
        /\ forall a, In a unique_artists -> is_Some (artists data' !! a))
  /\ ((forall a, In a unique_artists -> is_Some (artists old !! a)) ->
      out = (Ok tt, (w, Some old), [EvSave old])).
Proof.
  cbv zeta. split; [|split].
  - unfold main, bind, load. cbn [fst snd].
    destruct (phase1_keeps unique_artists (default no_data disk) 0%nat (w, disk))
      as [Hfile Hres].
    cbv zeta in Hfile, Hres.
    destruct (phase1 get_artist_info unique_artists _ 0%nat _)
      as [[[data1|e] [w1 d1]] ev1]; rewrite state_triple in Hfile;
      unfold result in Hres; cbn [fst snd] in *.
    + unfold save. rewrite state_triple. cbn [snd]. intros data' [= <-].
      destruct (Hres data1 eq_refl) as (Hsub & Htm & _). now split.
    + rewrite state_triple. cbn [snd]. intros data' Hd.
      destruct (Hfile data' Hd) as [H|H]; [|exact H].
      rewrite H. cbn. now split.
  - unfold main, bind, load. cbn [fst snd].
    destruct (phase1_keeps unique_artists (default no_data disk) 0%nat (w, disk))
      as [_ Hres].
    cbv zeta in Hres.
    destruct (phase1 get_artist_info unique_artists _ 0%nat _)
      as [[[data1|e] [w1 d1]] ev1]; unfold result in *; cbn [fst snd] in *;
      [|discriminate].
    intros _. exists data1. unfold save. rewrite state_triple.
    split; [reflexivity|]. now destruct (Hres data1 eq_refl) as (_ & _ & Hcov).
  - intros Hall. unfold main, bind, load. cbn [fst snd].
    now rewrite phase1_all_cached.
Qed.

End LastFMRunnerFacts.

Section LastFMPacingFacts.
Import LastFMClient LastFMRunner.
Context {World TrackMeta : Type}.
Variable requests_get : Request -> World -> HttpOutcome * World.

Lemma fetches_paced_save (snapshot : EnrichmentData (TrackMeta := TrackMeta))
    (ev : list (LastFMRunner.Event (TrackMeta := TrackMeta))) :
  forall pending,
    fetches_paced pending ev = true ->
    fetches_paced pending (ev ++ [EvSave snapshot]) = true.
Proof.
  induction ev as [|e ev IH]; intros pending H; [reflexivity|].
  destruct e as [[r]|ms|s]; simpl in *.
  - destruct pending; [discriminate | now apply IH].
  - now apply IH.
  - now apply IH.
Qed.

Lemma phase1_paced (unique_artists : list string) :
  forall (data : EnrichmentData (TrackMeta := TrackMeta)) (new_reqs : nat)
         (st : St),
    fetches_paced false
      (events (phase1 (LastFMClient.get_artist_info requests_get)
                 unique_artists data new_reqs st)) = true.
Proof.
  induction unique_artists as [|artist rest IH]; intros data new_reqs st;
    [reflexivity|].
  rewrite phase1_cons. destruct (artists data !! artist); [apply IH|].
  destruct (get_artist_info_returns requests_get artist (fst st))
    as (info & w1 & ->).
  cbv zeta. rewrite events_triple. cbn [map app fetches_paced].
  destruct (S new_reqs mod 50 =? 0)%nat; cbn [app fetches_paced]; apply IH.
Qed.

(** X30.  In a run of [main] of enrich_with_lastfm with the client of
    lastfm_client.py, every request is followed by a sleep before the
    next request is issued. *)
Theorem lastfm_main_paced (unique_artists : list string) (w : World)
    (disk : Disk (TrackMeta := TrackMeta)) :
  fetches_paced false
    (events (main (LastFMClient.get_artist_info requests_get)
               unique_artists (w, disk))) = true.
Proof.
  unfold main, bind, load. cbn [fst snd].
  pose proof (phase1_paced unique_artists (default no_data disk) 0%nat (w, disk))
    as H.
  destruct (phase1 _ unique_artists _ 0%nat _) as [[[data1|e] s1] ev1];
    rewrite events_triple in *.
  - unfold save. cbn [app]. now apply fetches_paced_save.
  - exact H.
Qed.

End LastFMPacingFacts.
